(** * Batch submitter utilities: MPC signing client and transaction submission

    A shallow embedding of
    - [packages/batch-submitter/src/utils/mpc-client.ts]
    - [packages/batch-submitter/src/utils/tx-submission.ts]
    together with the properties of these two modules.

    A JavaScript string is a sequence of UTF-16 code units.  It is
    modelled as a [string] (a sequence of 8-bit characters) where the text
    is made of characters below U+0100, and as the list of its code units
    ([list N]) where the code is given arbitrary text to decode.  A
    [Buffer] is a [list byte]; times in milliseconds are integers ([Z]);
    a number computed from a gas price is a [JsNumber] (a double that is a
    non-negative integer, or [Infinity]); plain JavaScript objects are
    finite maps or association lists. *)

From Stdlib Require Import ZArith NArith Lia Bool List Ascii String.
From Stdlib.Strings Require Import Byte.
From stdpp Require Import base option list strings gmap.

Local Open Scope N_scope.

(** ** Part I.  Definitions *)

(** *** Strings *)

(** [s.startsWith(p)] *)
Fixpoint startsWith (s p : string) {struct p} : bool :=
  match p, s with
  | EmptyString, _ => true
  | String _ _, EmptyString => false
  | String a p', String b s' => Ascii.eqb a b && startsWith s' p'
  end.

(** [s.substring(n)], everything from index [n] on. *)
Fixpoint substring_from (n : nat) (s : string) : string :=
  match n, s with
  | O, _ => s
  | S _, EmptyString => EmptyString
  | S n', String _ s' => substring_from n' s'
  end.

(** [s.replace(/^0+/, '')]: the maximal run of ['0'] at the start of [s]
    is removed. *)
Fixpoint replace_leading_zeros (s : string) : string :=
  match s with
  | EmptyString => EmptyString
  | String c s' => if Ascii.eqb c "0" then replace_leading_zeros s' else s
  end.

(** [n] copies of the digit ['0']. *)
Fixpoint zeros (n : nat) : string :=
  match n with
  | O => EmptyString
  | S n' => String "0" (zeros n')
  end.

(** *** Hex and base64 codec ([mpc-client.ts], lines 126-142) *)

(** [removeHexLeadingZero(hex, keepOneZero = false)] *)
Definition removeHexLeadingZero (hex : string) (keepOneZero : bool) : string :=
  let toHex := if startsWith hex "0x" then substring_from 2 hex else hex in
  let toHex := replace_leading_zeros toHex in
  let toHex :=
    if (String.length toHex =? 0)%nat && keepOneZero then "0" else toHex in
  if startsWith hex "0x" then "0x" +:+ toHex else toHex.

(** Whether [hex] starts with [0x], and what follows the prefix. *)
Definition strip_0x (hex : string) : bool * string :=
  match hex with
  | String c0 (String c1 body) =>
      if Ascii.eqb c0 "0" && Ascii.eqb c1 "x" then (true, body) else (false, hex)
  | _ => (false, hex)
  end.

(** The same operation, written from its description: strip the prefix
    if present, trim the leading zeros, keep a single zero when nothing
    is left and [keepOneZero] is set, restore the prefix if the input had
    one. *)
Definition removeHexLeadingZero_described (hex : string) (keepOneZero : bool)
  : string :=
  let '(had_prefix, digits) := strip_0x hex in
  let trimmed := replace_leading_zeros digits in
  let kept :=
    match trimmed with
    | EmptyString => if keepOneZero then "0" else EmptyString
    | _ => trimmed
    end in
  if had_prefix then String "0" (String "x" kept) else kept.

(** The byte with value [n mod 256], and the value of a byte. *)
Definition byte_of_N (n : N) : byte := byte_of_ascii (ascii_of_N n).
Definition N_of_byte (b : byte) : N := Byte.to_N b.

(** The standard base64 alphabet (RFC 4648, section 4). *)
Definition base64_alphabet : string :=
  "ABCDEFGHIJKLMNOPQRSTUVWXYZabcdefghijklmnopqrstuvwxyz0123456789+/".

Definition base64_char (sextet : N) : ascii :=
  match String.get (N.to_nat sextet) base64_alphabet with
  | Some c => c
  | None => "="%char
  end.

(** Node's [unbase64] table: the value of a legal character.  Both the
    standard alphabet and the URL-safe one (['-'] and ['_']) are legal. *)
Definition unbase64 (c : ascii) : option N :=
  let n := N_of_ascii c in
  if (65 <=? n) && (n <=? 90) then Some (n - 65)
  else if (97 <=? n) && (n <=? 122) then Some (n - 97 + 26)
  else if (48 <=? n) && (n <=? 57) then Some (n - 48 + 52)
  else if (n =? 43) || (n =? 45) then Some 62
  else if (n =? 47) || (n =? 95) then Some 63
  else None.

(** The four sextets of a group of three bytes. *)
Definition sextet1 (a : N) : N := N.shiftr a 2.
Definition sextet2 (a b : N) : N := N.lor (N.shiftl (N.land a 3) 4) (N.shiftr b 4).
Definition sextet3 (b c : N) : N := N.lor (N.shiftl (N.land b 15) 2) (N.shiftr c 6).
Definition sextet4 (c : N) : N := N.land c 63.

(** [buffer.toString('base64')]: three bytes become four characters, a
    last group of one or two bytes is completed with zero bits and
    padded with ['=']. *)
Fixpoint base64_encode (bs : list byte) : string :=
  match bs with
  | [] => EmptyString
  | [a] =>
      let a := N_of_byte a in
      String (base64_char (sextet1 a))
        (String (base64_char (sextet2 a 0)) "==")
  | [a; b] =>
      let a := N_of_byte a in
      let b := N_of_byte b in
      String (base64_char (sextet1 a))
        (String (base64_char (sextet2 a b))
           (String (base64_char (sextet3 b 0)) "="))
  | a :: b :: c :: rest =>
      let a := N_of_byte a in
      let b := N_of_byte b in
      let c := N_of_byte c in
      String (base64_char (sextet1 a))
        (String (base64_char (sextet2 a b))
           (String (base64_char (sextet3 b c))
              (String (base64_char (sextet4 c)) (base64_encode rest))))
  end.

(** [Buffer.from(s, 'base64')] as Node decodes it, for a text [s] of
    characters below U+0100: characters are read one
    at a time; a character outside the alphabet is skipped; ['='] ends the
    decoding; the characters of the alphabet are taken in groups of four,
    the second, third and fourth of a group each completing one byte from
    the previous sextet [hi] and the current one [lo]; an incomplete byte
    at the end is dropped.  [phase] is the position in the group. *)
Fixpoint base64_decode_from (phase : nat) (hi : N) (s : string) : list byte :=
  match s with
  | EmptyString => []
  | String c rest =>
      if Ascii.eqb c "=" then []
      else
        match unbase64 c with
        | None => base64_decode_from phase hi rest
        | Some lo =>
            match phase with
            | 0%nat => base64_decode_from 1 lo rest
            | 1%nat =>
                byte_of_N (N.lor (N.shiftl (N.land hi 63) 2)
                                 (N.shiftr (N.land lo 48) 4))
                  :: base64_decode_from 2 lo rest
            | 2%nat =>
                byte_of_N (N.lor (N.shiftl (N.land hi 15) 4)
                                 (N.shiftr (N.land lo 60) 2))
                  :: base64_decode_from 3 lo rest
            | _ =>
                byte_of_N (N.lor (N.shiftl (N.land hi 3) 6) (N.land lo 63))
                  :: base64_decode_from 0 lo rest
            end
        end
  end.

Definition Buffer_from_base64 (s : string) : list byte :=
  base64_decode_from 0 0 s.

(** [buffer.toString('hex')]: two lowercase digits per byte. *)
Definition hex_digits : string := "0123456789abcdef".

Definition hex_digit (nibble : N) : ascii :=
  match String.get (N.to_nat nibble) hex_digits with
  | Some c => c
  | None => "0"%char
  end.

Fixpoint Buffer_toString_hex (bs : list byte) : string :=
  match bs with
  | [] => EmptyString
  | b :: rest =>
      let n := N_of_byte b in
      String (hex_digit (N.shiftr n 4))
        (String (hex_digit (N.land n 15)) (Buffer_toString_hex rest))
  end.

(** [base64ToHex(base64String)], for a text of characters below U+0100. *)
Definition base64ToHex (base64String : string) : string :=
  let binaryData := Buffer_from_base64 base64String in
  "0x" +:+ Buffer_toString_hex binaryData.

(** Any text, given by its UTF-16 code units.  Node's decoder looks a
    code unit up by its low byte: the higher byte is dropped. *)
Definition low_byte (unit : N) : ascii := ascii_of_N (N.land unit 255).

Fixpoint low_bytes (units : list N) : string :=
  match units with
  | [] => EmptyString
  | unit :: rest => String (low_byte unit) (low_bytes rest)
  end.

(** [Buffer.from(s, 'base64')] for any text. *)
Definition Buffer_from_base64_utf16 (units : list N) : list byte :=
  Buffer_from_base64 (low_bytes units).

(** [base64ToHex(base64String)] for any text. *)
Definition base64ToHex_utf16 (base64String : list N) : string :=
  let binaryData := Buffer_from_base64_utf16 base64String in
  "0x" +:+ Buffer_toString_hex binaryData.

(** The code units of a text of characters below U+0100. *)
Fixpoint units_of (s : string) : list N :=
  match s with
  | EmptyString => []
  | String c rest => N_of_ascii c :: units_of rest
  end.

(** A lowercase hexadecimal digit. *)
Definition is_lower_hex (c : ascii) : bool :=
  let n := N_of_ascii c in
  ((48 <=? n) && (n <=? 57)) || ((97 <=? n) && (n <=? 102)).

Fixpoint string_forall (p : ascii -> bool) (s : string) : bool :=
  match s with
  | EmptyString => true
  | String c s' => p c && string_forall p s'
  end.

(** *** JavaScript values and completions *)

Inductive JsError : Type :=
| SyntaxError
| TypeError
| ReferenceError
| TransportError (message : string).

(** The outcome of running a piece of JavaScript: a value, or a thrown
    exception (for an [async] function: a promise that is fulfilled, or
    rejected). *)
Inductive Completion (A : Type) : Type :=
| Normal (a : A)
| Throw (e : JsError).
Arguments Normal {A} a.
Arguments Throw {A} e.

#[local] Set Warnings "-register-all".

(** Plain data values: [undefined], [null], booleans, non-negative
    integers, strings, and arrays and objects of plain data.  An object
    is the list of its own data properties in source order; a later
    property with the same key overrides; its prototype is the default
    one.  These are the values of JSON texts and of literal expressions;
    a value of which a property read runs code (an accessor property, a
    proxy) is not one of them. *)
Inductive JsVal : Type :=
| JUndefined
| JNull
| JBool (b : bool)
| JNum (n : N)
| JStr (s : string)
| JArr (elems : list JsVal)
| JObj (props : list (string * JsVal)).

(** [ToBoolean]: [undefined], [null], [false], [0] and the empty string
    are falsy, every other value (all objects, all arrays) is truthy. *)
Definition truthy (v : JsVal) : bool :=
  match v with
  | JUndefined | JNull => false
  | JBool b => b
  | JNum n => negb (n =? 0)
  | JStr s => negb (String.length s =? 0)%nat
  | JArr _ | JObj _ => true
  end.

Fixpoint own_property (props : list (string * JsVal)) (key : string)
  : option JsVal :=
  match props with
  | [] => None
  | (k, v) :: rest =>
      match own_property rest key with
      | Some later => Some later
      | None => if String.eqb k key then Some v else None
      end
  end.

(** [v.key] for the property names read by the client ([result],
    [error], [mpc_address], [signed_tx]), none of which is defined on a
    built-in prototype: reading a property of [undefined] or [null] throws
    a [TypeError], an object gives its own property or [undefined], any
    other value gives [undefined]. *)
Definition get_property (v : JsVal) (key : string) : Completion JsVal :=
  match v with
  | JUndefined | JNull => Throw TypeError
  | JObj props =>
      match own_property props key with
      | Some x => Normal x
      | None => Normal JUndefined
      end
  | _ => Normal JUndefined
  end.

(** *** Programs that call out to the environment

    A program returns, throws, or performs an external call [c : E X] and
    continues with its answer.  [E] lists the calls a module makes. *)
Inductive Prog (E : Type -> Type) (A : Type) : Type :=
| Ret (a : A)
| Raise (e : JsError)
| Call (X : Type) (c : E X) (k : X -> Prog E A).
Arguments Ret {E A} a.
Arguments Raise {E A} e.
Arguments Call {E A X} c k.

Fixpoint bind {E : Type -> Type} {A B : Type}
         (p : Prog E A) (f : A -> Prog E B) : Prog E B :=
  match p with
  | Ret a => f a
  | Raise e => Raise e
  | Call c k => Call c (fun x => bind (k x) f)
  end.

Definition perform {E : Type -> Type} {X : Type} (c : E X) : Prog E X :=
  Call c Ret.

Notation "'let*' x ':=' p 'in' q" := (bind p (fun x => q))
  (at level 10, x name, p at level 100, q at level 200).
Notation "'do' p 'then' q" := (bind p (fun _ => q))
  (at level 10, p at level 100, q at level 200).

(** Lifting a completion into a program. *)
Definition complete {E : Type -> Type} {A : Type} (c : Completion A) : Prog E A :=
  match c with
  | Normal a => Ret a
  | Throw e => Raise e
  end.

(** Running a program against an environment: [handle] answers each
    external call, possibly with an exception, and updates the state of
    the world [W]. *)
Fixpoint run {E : Type -> Type} {A W : Type}
         (handle : forall X, E X -> W -> Completion X * W)
         (p : Prog E A) (w : W) : Completion A * W :=
  match p with
  | Ret a => (Normal a, w)
  | Raise e => (Throw e, w)
  | Call c k =>
      match handle _ c w with
      | (Normal x, w') => run handle (k x) w'
      | (Throw e, w') => (Throw e, w')
      end
  end.

(** *** Lexical helpers *)

Definition ch_dquote : ascii := "034"%char.
Definition ch_squote : ascii := "039"%char.
Definition ch_backslash : ascii := "092"%char.

Definition is_ws (c : ascii) : bool :=
  let n := N_of_ascii c in (n =? 32) || (n =? 9) || (n =? 10) || (n =? 13).

Definition is_digit (c : ascii) : bool :=
  let n := N_of_ascii c in (48 <=? n) && (n <=? 57).

Definition is_hex_digit (c : ascii) : bool :=
  let n := N_of_ascii c in
  ((48 <=? n) && (n <=? 57)) || ((65 <=? n) && (n <=? 70))
  || ((97 <=? n) && (n <=? 102)).

Definition is_ident_start (c : ascii) : bool :=
  let n := N_of_ascii c in
  ((65 <=? n) && (n <=? 90)) || ((97 <=? n) && (n <=? 122))
  || (n =? 95) || (n =? 36).

Definition is_ident_part (c : ascii) : bool := is_ident_start c || is_digit c.

Fixpoint skip_ws (s : string) : string :=
  match s with
  | EmptyString => EmptyString
  | String c r => if is_ws c then skip_ws r else s
  end.

(** [expect c s]: the rest of [s] after optional white space and the
    character [c]. *)
Definition expect (c : ascii) (s : string) : option string :=
  match skip_ws s with
  | String d r => if Ascii.eqb d c then Some r else None
  | EmptyString => None
  end.

(** The longest prefix of characters satisfying [p], and the rest. *)
Fixpoint span (p : ascii -> bool) (s : string) : string * string :=
  match s with
  | EmptyString => (EmptyString, EmptyString)
  | String c r =>
      if p c then let '(taken, rest) := span p r in (String c taken, rest)
      else (EmptyString, s)
  end.

Fixpoint decimal_value (acc : N) (digits : string) : N :=
  match digits with
  | EmptyString => acc
  | String c r => decimal_value (10 * acc + (N_of_ascii c - 48)) r
  end.

(** *** Strict JSON (the grammar accepted by [JSON.parse])

    A recogniser: [json_value fuel s] is the rest of [s] after one JSON
    value, if [s] starts with one. *)

(** After the opening quote: the rest after the closing quote. *)
Fixpoint json_string (s : string) : option string :=
  match s with
  | EmptyString => None
  | String c r =>
      if Ascii.eqb c ch_dquote then Some r
      else if Ascii.eqb c ch_backslash then
        match r with
        | String e r1 =>
            if Ascii.eqb e "u" then
              match r1 with
              | String h1 (String h2 (String h3 (String h4 r2))) =>
                  if is_hex_digit h1 && is_hex_digit h2
                     && is_hex_digit h3 && is_hex_digit h4
                  then json_string r2 else None
              | _ => None
              end
            else if Ascii.eqb e ch_dquote || Ascii.eqb e ch_backslash
                    || Ascii.eqb e "/" || Ascii.eqb e "b" || Ascii.eqb e "f"
                    || Ascii.eqb e "n" || Ascii.eqb e "r" || Ascii.eqb e "t"
            then json_string r1 else None
        | EmptyString => None
        end
      else if N_of_ascii c <? 32 then None
      else json_string r
  end.

Definition json_digits1 (s : string) : option string :=
  match span is_digit s with
  | (EmptyString, _) => None
  | (_, rest) => Some rest
  end.

Definition json_number (s : string) : option string :=
  let unsigned :=
    match s with
    | String c r => if Ascii.eqb c "-" then r else s
    | EmptyString => s
    end in
  let after_int :=
    match unsigned with
    | String c r =>
        if Ascii.eqb c "0" then Some r
        else if is_digit c then Some (snd (span is_digit r))
        else None
    | EmptyString => None
    end in
  match after_int with
  | None => None
  | Some s1 =>
      let after_frac :=
        match s1 with
        | String c r => if Ascii.eqb c "." then json_digits1 r else Some s1
        | EmptyString => Some s1
        end in
      match after_frac with
      | None => None
      | Some s2 =>
          match s2 with
          | String c r =>
              if Ascii.eqb c "e" || Ascii.eqb c "E" then
                match r with
                | String sign r' =>
                    if Ascii.eqb sign "+" || Ascii.eqb sign "-"
                    then json_digits1 r' else json_digits1 r
                | EmptyString => None
                end
              else Some s2
          | EmptyString => Some s2
          end
      end
  end.

Definition json_keyword (s : string) : option string :=
  let '(word, rest) := span is_ident_part s in
  if String.eqb word "true" || String.eqb word "false" || String.eqb word "null"
  then Some rest else None.

Fixpoint json_value (fuel : nat) (s : string) : option string :=
  match fuel with
  | O => None
  | S f =>
      match skip_ws s with
      | EmptyString => None
      | String c r =>
          if Ascii.eqb c "{" then
            match expect "}" r with
            | Some r1 => Some r1
            | None => json_members f r
            end
          else if Ascii.eqb c "[" then
            match expect "]" r with
            | Some r1 => Some r1
            | None => json_elements f r
            end
          else if Ascii.eqb c ch_dquote then json_string r
          else if is_digit c || Ascii.eqb c "-" then json_number (String c r)
          else json_keyword (String c r)
      end
  end
with json_members (fuel : nat) (s : string) : option string :=
  match fuel with
  | O => None
  | S f =>
      match expect ch_dquote s with
      | None => None
      | Some r =>
          match json_string r with
          | None => None
          | Some r1 =>
              match expect ":" r1 with
              | None => None
              | Some r2 =>
                  match json_value f r2 with
                  | None => None
                  | Some r3 =>
                      match expect "," r3 with
                      | Some r4 => json_members f r4
                      | None => expect "}" r3
                      end
                  end
              end
          end
      end
  end
with json_elements (fuel : nat) (s : string) : option string :=
  match fuel with
  | O => None
  | S f =>
      match json_value f s with
      | None => None
      | Some r1 =>
          match expect "," r1 with
          | Some r2 => json_elements f r2
          | None => expect "]" r1
          end
      end
  end.

(** [is_json body]: [JSON.parse(body)] succeeds. *)
Definition is_json (body : string) : bool :=
  match json_value (S (String.length body)) body with
  | Some rest =>
      match skip_ws rest with EmptyString => true | _ => false end
  | None => false
  end.

(** *** Evaluation of JavaScript literal expressions

    [eval] is the engine's; the client calls it on the parenthesised
    response body.  The fragment below is the part of the language that
    is evaluated here: a parenthesised expression built from [null],
    [undefined], [true], [false], decimal integer literals up to [2^53],
    string literals in single or double quotes (printable ASCII, no
    escapes), array literals and object literals whose keys are
    identifiers or string literals.  [None] stands for a text outside
    this fragment. *)

(** After the opening quote [q]: the characters up to the closing quote. *)
Fixpoint js_string (q : ascii) (s : string) : option (string * string) :=
  match s with
  | EmptyString => None
  | String c r =>
      if Ascii.eqb c q then Some (EmptyString, r)
      else if Ascii.eqb c ch_backslash then None
      else if (N_of_ascii c <? 32) || (126 <? N_of_ascii c) then None
      else
        match js_string q r with
        | Some (text, rest) => Some (String c text, rest)
        | None => None
        end
  end.

Definition js_number (s : string) : option (JsVal * string) :=
  let '(digits, rest) := span is_digit s in
  let leading_zero :=
    match digits with
    | String c (String _ _) => Ascii.eqb c "0"
    | _ => false
    end in
  let continues :=
    match rest with
    | String c _ => is_ident_part c || Ascii.eqb c "."
    | EmptyString => false
    end in
  let n := decimal_value 0 digits in
  if leading_zero || continues || (9007199254740992 <? n) then None
  else Some (JNum n, rest).

Definition js_keyword (s : string) : option (JsVal * string) :=
  let '(word, rest) := span is_ident_part s in
  if String.eqb word "null" then Some (JNull, rest)
  else if String.eqb word "undefined" then Some (JUndefined, rest)
  else if String.eqb word "true" then Some (JBool true, rest)
  else if String.eqb word "false" then Some (JBool false, rest)
  else None.

(** A property name: an identifier or a string literal.  [__proto__]
    sets the prototype instead of defining a property and is left out. *)
Definition js_property_name (s : string) : option (string * string) :=
  match skip_ws s with
  | EmptyString => None
  | String c r =>
      let name :=
        if Ascii.eqb c ch_dquote || Ascii.eqb c ch_squote then js_string c r
        else if is_ident_start c then Some (span is_ident_part (String c r))
        else None in
      match name with
      | Some (key, rest) =>
          if String.eqb key "__proto__" then None else Some (key, rest)
      | None => None
      end
  end.

Fixpoint js_value (fuel : nat) (s : string) : option (JsVal * string) :=
  match fuel with
  | O => None
  | S f =>
      match skip_ws s with
      | EmptyString => None
      | String c r =>
          if Ascii.eqb c "(" then
            match js_value f r with
            | Some (v, r1) =>
                match expect ")" r1 with
                | Some r2 => Some (v, r2)
                | None => None
                end
            | None => None
            end
          else if Ascii.eqb c "{" then
            match expect "}" r with
            | Some r1 => Some (JObj [], r1)
            | None =>
                match js_properties f r with
                | Some (props, r1) => Some (JObj props, r1)
                | None => None
                end
            end
          else if Ascii.eqb c "[" then
            match expect "]" r with
            | Some r1 => Some (JArr [], r1)
            | None =>
                match js_elements f r with
                | Some (elems, r1) => Some (JArr elems, r1)
                | None => None
                end
            end
          else if Ascii.eqb c ch_dquote || Ascii.eqb c ch_squote then
            match js_string c r with
            | Some (text, r1) => Some (JStr text, r1)
            | None => None
            end
          else if is_digit c then js_number (String c r)
          else if is_ident_start c then js_keyword (String c r)
          else None
      end
  end
with js_properties (fuel : nat) (s : string)
  : option (list (string * JsVal) * string) :=
  match fuel with
  | O => None
  | S f =>
      match js_property_name s with
      | None => None
      | Some (key, r1) =>
          match expect ":" r1 with
          | None => None
          | Some r2 =>
              match js_value f r2 with
              | None => None
              | Some (v, r3) =>
                  match expect "," r3 with
                  | Some r4 =>
                      match js_properties f r4 with
                      | Some (props, r5) => Some ((key, v) :: props, r5)
                      | None => None
                      end
                  | None =>
                      match expect "}" r3 with
                      | Some r4 => Some ([(key, v)], r4)
                      | None => None
                      end
                  end
              end
          end
      end
  end
with js_elements (fuel : nat) (s : string) : option (list JsVal * string) :=
  match fuel with
  | O => None
  | S f =>
      match js_value f s with
      | None => None
      | Some (v, r1) =>
          match expect "," r1 with
          | Some r2 =>
              match js_elements f r2 with
              | Some (elems, r3) => Some (v :: elems, r3)
              | None => None
              end
          | None =>
              match expect "]" r1 with
              | Some r2 => Some ([v], r2)
              | None => None
              end
          end
      end
  end.

(** No expression starts with one of these characters: a text that has
    one of them right after its opening parenthesis is a syntax error. *)
Definition cannot_start_expression (c : ascii) : bool :=
  Ascii.eqb c "}" || Ascii.eqb c "]" || Ascii.eqb c "," || Ascii.eqb c ":"
  || Ascii.eqb c ";".

(** [eval(src)] for a text [src] of the fragment that starts with a
    parenthesis. *)
Definition eval_literal (src : string) : option (Completion JsVal) :=
  match skip_ws src with
  | String c r =>
      if Ascii.eqb c "(" then
        match skip_ws r with
        | String d _ =>
            if cannot_start_expression d then Some (Throw SyntaxError)
            else
              match js_value (S (String.length src)) src with
              | Some (v, rest) =>
                  match skip_ws rest with
                  | EmptyString => Some (Normal v)
                  | _ => None
                  end
              | None => None
              end
        | EmptyString => Some (Throw SyntaxError)
        end
      else None
  | EmptyString => None
  end.

(** An engine that evaluates the literal expressions above and rejects
    every other text. *)
Definition literal_engine (src : string) : Completion JsVal :=
  match eval_literal src with
  | Some c => c
  | None => Throw SyntaxError
  end.

(** *** The MPC client ([mpc-client.ts], lines 5-105) *)

Inductive Protocol : Type := http | https.

Inductive HeaderValue : Type :=
| HeaderText (text : string)
| ByteLengthOfJson (data : JsVal).

(** The parts of a parsed [URL] that the client reads. *)
Record URL : Type := {
  URL_hostname : string;
  URL_port : string;
  URL_pathname : string
}.

(** The options of a request. *)
Record RequestOptions : Type := {
  method : string;
  hostname : string;
  port : string;
  path : string;
  headers : list (string * HeaderValue)
}.

(** What the client uses of the platform without a trace: [eval], for
    the source texts whose evaluation does nothing but yield a plain data
    value or throw, and [new URL(input, base)], which throws a
    [TypeError] when the two strings do not make a URL.  (A text whose
    evaluation makes calls of its own, or yields a value that is not plain
    data, is outside this model.) *)
Record Platform : Type := {
  js_eval : string -> Completion JsVal;
  new_URL : string -> string -> Completion URL
}.

(** What the client asks of Node: one HTTP exchange, which answers with
    the whole response body or fails with a transport error, and a line
    on the console. *)
Inductive NodeCall : Type -> Type :=
| ProtocolRequest (protocol : Protocol) (options : RequestOptions)
                  (written : option JsVal) : NodeCall string
| Console (level label text : string) : NodeCall unit.

Definition toLowerCase_char (c : ascii) : ascii :=
  let n := N_of_ascii c in
  if (65 <=? n) && (n <=? 90) then ascii_of_N (n + 32) else c.

Fixpoint toLowerCase (s : string) : string :=
  match s with
  | EmptyString => EmptyString
  | String c r => String (toLowerCase_char c) (toLowerCase r)
  end.

Definition is_empty (s : string) : bool := (String.length s =? 0)%nat.

Record MpcClient : Type := { url : string }.

Section Client.

Variable node : Platform.

(** [httpRequest(url, options, data?)]: the promise is resolved with
    the concatenated chunks of the response and rejected with the
    request's error; [data], when truthy, is written as JSON. *)
Definition httpRequest (url : string) (options : RequestOptions)
           (data : JsVal) : Prog NodeCall string :=
  let protocol := if startsWith (toLowerCase url) "https" then https else http in
  perform (ProtocolRequest protocol options
             (if truthy data then Some data else None)).

(** [getLatestMpc()].  The property [result] is read each time the
    source names it. *)
Definition getLatestMpc (this : MpcClient) : Prog NodeCall JsVal :=
  let* getUrl := complete (new_URL node "/mpc/latest" (url this)) in
  let getOptions :=
    {| method := "GET"; hostname := URL_hostname getUrl;
       port := URL_port getUrl; path := URL_pathname getUrl;
       headers := [] |} in
  let* resp := httpRequest (url this) getOptions JUndefined in
  do perform (Console "debug" "getLatestMpc resp" resp) then
  if is_empty resp then Ret JNull
  else
    let* obj := complete (js_eval node ("(" +:+ resp +:+ ")")) in
    let* result := complete (get_property obj "result") in
    if truthy result then
      let* result_again := complete (get_property obj "result") in
      let* mpc_address := complete (get_property result_again "mpc_address") in
      if truthy mpc_address then complete (get_property obj "result")
      else Ret JNull
    else Ret JNull.

(** [proposeMpcSign(data)].  [JSON.stringify(undefined)] is [undefined],
    of which [Buffer.byteLength] throws a [TypeError]. *)
Definition proposeMpcSign (this : MpcClient) (data : JsVal)
  : Prog NodeCall JsVal :=
  let* postUrl := complete (new_URL node "/mpc/propose-mpc-sign" (url this)) in
  let* content_length :=
    match data with
    | JUndefined => Raise TypeError
    | _ => Ret (ByteLengthOfJson data)
    end in
  let postOptions :=
    {| method := "POST"; hostname := URL_hostname postUrl;
       port := URL_port postUrl; path := URL_pathname postUrl;
       headers := [("Content-Type", HeaderText "application/json");
                   ("Content-Length", content_length)] |} in
  let* resp := httpRequest (url this) postOptions data in
  do perform (Console "info" "proposeMpcSign resp" resp) then
  if is_empty resp then Ret JNull
  else
    let* obj := complete (js_eval node ("(" +:+ resp +:+ ")")) in
    let* error := complete (get_property obj "error") in
    if truthy error then Ret JNull else Ret obj.

(** [getMpcSign(id)].  The properties [result] and [signed_tx] are read
    each time the source names them. *)
Definition getMpcSign (this : MpcClient) (id : string)
  : Prog NodeCall JsVal :=
  let* getUrl := complete (new_URL node ("/mpc/sign/" +:+ id) (url this)) in
  let getOptions :=
    {| method := "GET"; hostname := URL_hostname getUrl;
       port := URL_port getUrl; path := URL_pathname getUrl;
       headers := [] |} in
  let* resp := httpRequest (url this) getOptions JUndefined in
  do perform (Console "info" "getMpcSign resp" resp) then
  if is_empty resp then Ret (JStr EmptyString)
  else
    let* obj := complete (js_eval node ("(" +:+ resp +:+ ")")) in
    let* error := complete (get_property obj "error") in
    if truthy error then Ret (JStr EmptyString)
    else
      let* result := complete (get_property obj "result") in
      if truthy result then
        let* result_again := complete (get_property obj "result") in
        let* signed_tx := complete (get_property result_again "signed_tx") in
        if truthy signed_tx then
          let* returned_from := complete (get_property obj "result") in
          complete (get_property returned_from "signed_tx")
        else Ret (JStr EmptyString)
      else Ret (JStr EmptyString).

End Client.

(** The environment in which the service answers a request with [reply]:
    the calls made are recorded in order. *)
Inductive NodeEvent : Type :=
| Requested (protocol : Protocol) (options : RequestOptions)
            (written : option JsVal)
| Logged (level label text : string).

Definition answering (reply : Completion string)
  : forall X, NodeCall X -> list NodeEvent -> Completion X * list NodeEvent :=
  fun X c =>
    match c in NodeCall X return list NodeEvent -> Completion X * list NodeEvent with
    | ProtocolRequest protocol options written =>
        fun log => (reply, log ++ [Requested protocol options written])
    | Console level label text =>
        fun log => (Normal tt, log ++ [Logged level label text])
    end.

(** The completion of an operation of the client when the service
    answers with [reply]. *)
Definition outcome {A : Type} (reply : Completion string)
           (operation : Prog NodeCall A) : Completion A :=
  fst (run (answering reply) operation []).

(** An absent result: [null] or the empty string. *)
Definition absent (c : Completion JsVal) : Prop :=
  c = Normal JNull \/ c = Normal (JStr EmptyString).

(** [v.key], with [undefined] where the read throws. *)
Definition property_or_undefined (v : JsVal) (key : string) : JsVal :=
  match get_property v key with
  | Normal x => x
  | Throw _ => JUndefined
  end.

(** An engine agrees with the evaluation of literal expressions. *)
Definition conforming (node : Platform) : Prop :=
  forall src c, eval_literal src = Some c -> js_eval node src = c.

(** The URLs of the three requests are well-formed. *)
Definition valid_urls (node : Platform) (this : MpcClient) (id : string)
  : Prop :=
  (exists u, new_URL node "/mpc/latest" (url this) = Normal u) /\
  (exists u, new_URL node "/mpc/propose-mpc-sign" (url this) = Normal u) /\
  (exists u, new_URL node ("/mpc/sign/" +:+ id) (url this) = Normal u).

(** What the three operations make of an evaluated response. *)
Definition latest_of (obj : JsVal) : Completion JsVal :=
  match get_property obj "result" with
  | Throw e => Throw e
  | Normal result =>
      if truthy result && truthy (property_or_undefined result "mpc_address")
      then Normal result else Normal JNull
  end.

Definition proposal_of (obj : JsVal) : Completion JsVal :=
  match get_property obj "error" with
  | Throw e => Throw e
  | Normal error => if truthy error then Normal JNull else Normal obj
  end.

Definition signature_of (obj : JsVal) : Completion JsVal :=
  match get_property obj "error" with
  | Throw e => Throw e
  | Normal error =>
      if truthy error then Normal (JStr EmptyString)
      else
        let result := property_or_undefined obj "result" in
        let signed_tx := property_or_undefined result "signed_tx" in
        if truthy result && truthy signed_tx then Normal signed_tx
        else Normal (JStr EmptyString)
  end.

(** A client of a service on the local machine, for the examples, and a
    platform for it: [eval] is the engine of literal expressions, and
    [new URL(input, base)] is evaluated for the base of that client and
    an absolute path of letters, digits, ['/'], ['-'], ['_'] and ['$'], which
    the URL keeps as it is; every other pair of strings is rejected. *)
Definition local_client : MpcClient := {| url := "http://127.0.0.1:1317" |}.

Definition is_plain_path_char (c : ascii) : bool :=
  is_ident_part c || Ascii.eqb c "/" || Ascii.eqb c "-".

Definition local_URL (input base : string) : Completion URL :=
  if String.eqb base "http://127.0.0.1:1317"
     && startsWith input "/" && negb (startsWith input "//")
     && string_forall is_plain_path_char input
  then Normal {| URL_hostname := "127.0.0.1"; URL_port := "1317";
                 URL_pathname := input |}
  else Throw TypeError.

Definition local_platform : Platform :=
  {| js_eval := literal_engine; new_URL := local_URL |}.

(** *** Transaction submission ([tx-submission.ts]) *)

(** A [PopulatedTransaction] is a plain object: its own properties. *)
Abbreviation PopulatedTransaction := (gmap string JsVal).

Record Provider : Type := { endpoint : string }.
Record Signer : Type := { address : string; provider : Provider }.

Record TransactionResponse : Type := { hash : string; nonce : N }.
Record TransactionReceipt : Type := {
  transactionHash : string;
  confirmations : N
}.

(** A JavaScript number, as far as this module computes one: a
    non-negative integer, or [Infinity]. *)
Inductive JsNumber : Type :=
| Finite (n : N)
| Infinity.

(** The double nearest to a non-negative integer.  An integer of at most
    53 bits is a double.  Of a longer one the 53 leading bits are kept
    and the [excess] bits are rounded to the nearest multiple, a tie
    going to the neighbour whose last kept bit is zero. *)
Definition round_to_double (n : N) : N :=
  let excess := N.size n - 53 in
  let kept := N.shiftr n excess in
  let dropped := N.land n (N.ones excess) in
  let half := N.shiftl 1 (excess - 1) in
  if excess =? 0 then n
  else if (half <? dropped) || ((dropped =? half) && N.odd kept)
       then N.shiftl (kept + 1) excess
       else N.shiftl kept excess.

(** The JavaScript number for a mathematical integer: the nearest
    double, and [Infinity] once that would be [2^1024]. *)
Definition Number_of_integer (n : N) : JsNumber :=
  let d := round_to_double n in
  if d <? 2 ^ 1024 then Finite d else Infinity.

(** [d] is the double nearest to an integer [n] of more than 53 bits: a
    multiple of the unit in the last place, by a significand of 53 bits
    (or the power of two that follows), at most half a unit away from
    [n], and with an even significand when it is exactly half a unit
    away. *)
Definition nearest_double (n d : N) : Prop :=
  let unit := 2 ^ (N.size n - 53) in
  exists significand,
    d = significand * unit /\
    2 ^ 52 <= significand <= 2 ^ 53 /\
    2 * d <= 2 * n + unit /\
    2 * n <= 2 * d + unit /\
    (2 * d = 2 * n + unit \/ 2 * n = 2 * d + unit ->
     N.even significand = true).

(** [ethers.utils.formatUnits(value, 'gwei')]: the decimal text of
    [value / 10^9], given by the number written before the point and the
    nine digits after it. *)
Definition formatUnits_gwei (value : N) : N * N :=
  (value / 1000000000, value mod 1000000000).

(** [parseInt(text, 10)] for such a text: the digits before the point
    are read as an integer, of which the result is the number.  (Node's
    engine converts all the digits; the language lets an engine neglect
    the digits after the twentieth.) *)
Definition parseInt_decimal (text : N * N) : JsNumber :=
  Number_of_integer (fst text).

(** The order of these numbers. *)
Definition JsNumber_lt (a b : JsNumber) : Prop :=
  match a, b with
  | Finite x, Finite y => x < y
  | Finite _, Infinity => True
  | Infinity, _ => False
  end.

(** [ResubmissionConfig] *)
Record ResubmissionConfig : Type := {
  resubmissionTimeout : N;
  minGasPriceInGwei : N;
  maxGasPriceInGwei : N;
  gasRetryIncrement : N
}.

(** The calls made to the signer and to its provider. *)
Inductive ChainCall : Type -> Type :=
| Signer_getGasPrice (signer : Signer) : ChainCall N
| Signer_sendTransaction (signer : Signer) (tx : PopulatedTransaction)
  : ChainCall TransactionResponse
| Provider_sendTransaction (p : Provider) (signedTx : string)
  : ChainCall TransactionResponse
| Provider_waitForTransaction (p : Provider) (txHash : string)
                              (numConfirmations : N)
  : ChainCall TransactionReceipt
| Notify_beforeSend (tx : PopulatedTransaction) : ChainCall unit
| Notify_response (txResponse : TransactionResponse) : ChainCall unit.

(** [TxSubmissionHooks] *)
Record TxSubmissionHooks : Type := {
  beforeSendTransaction : PopulatedTransaction -> Prog ChainCall unit;
  onTransactionResponse : TransactionResponse -> Prog ChainCall unit
}.

(** Hooks that report what they are called with. *)
Definition reporting_hooks : TxSubmissionHooks := {|
  beforeSendTransaction := fun tx => perform (Notify_beforeSend tx);
  onTransactionResponse := fun txResponse => perform (Notify_response txResponse)
|}.

(** [ynatm.LINEAR(slope)], the scaling function handed to the engine. *)
Inductive GasPriceScaling : Type := LINEAR (slope : N).

(** The argument of [ynatm.send]. *)
Record SendOptions : Type := {
  sendTransactionFunction : N -> Prog ChainCall TransactionReceipt;
  send_minGasPrice : JsNumber;
  send_maxGasPrice : JsNumber;
  send_gasPriceScalingFunction : GasPriceScaling;
  send_delay : N
}.

(** The argument of [ynatmAsync.sendAfterSign]. *)
Record SendAfterSignOptions (SignFunction : Type) : Type := {
  sendSignedTransactionFunction : string -> Prog ChainCall TransactionReceipt;
  signFunction : SignFunction;
  sign_minGasPrice : JsNumber;
  sign_maxGasPrice : JsNumber;
  sign_gasPriceScalingFunction : GasPriceScaling;
  sign_delay : N
}.
Arguments sendSignedTransactionFunction {SignFunction} _.
Arguments signFunction {SignFunction} _.
Arguments sign_minGasPrice {SignFunction} _.
Arguments sign_maxGasPrice {SignFunction} _.
Arguments sign_gasPriceScalingFunction {SignFunction} _.
Arguments sign_delay {SignFunction} _.

(** What a submission does: calls to the chain, and the one call that
    starts the resubmission engine. *)
Inductive SubmitCall (SignFunction : Type) : Type -> Type :=
| Chain (X : Type) (c : ChainCall X) : SubmitCall SignFunction X
| Ynatm_send (options : SendOptions)
  : SubmitCall SignFunction TransactionReceipt
| YnatmAsync_sendAfterSign (options : SendAfterSignOptions SignFunction)
  : SubmitCall SignFunction TransactionReceipt.
Arguments Chain {SignFunction X} c.
Arguments Ynatm_send {SignFunction} options.
Arguments YnatmAsync_sendAfterSign {SignFunction} options.

Section Submission.

(** The type of the signing function, which is only passed on. *)
Context {SignFunction : Type}.

(** [ynatm.toGwei] and [ynatmAsync.toGwei], the unit conversions of
    the two engines. *)
Variable ynatm_toGwei : JsNumber -> JsNumber.
Variable ynatmAsync_toGwei : JsNumber -> JsNumber.

(** [getGasPriceInGwei(signer)]: the network's gas price, in wei, is
    formatted in gwei as a decimal text, of which [parseInt] reads the
    integer part into a number. *)
Definition getGasPriceInGwei (signer : Signer)
  : Prog (SubmitCall SignFunction) JsNumber :=
  let* price := perform (Chain (Signer_getGasPrice signer)) in
  Ret (parseInt_decimal (formatUnits_gwei price)).

(** The function [submitTransactionWithYNATM] gives to the engine. *)
Definition sendTxAndWaitForReceipt
           (tx : PopulatedTransaction) (signer : Signer)
           (numConfirmations : N) (hooks : TxSubmissionHooks)
           (gasPrice : N) : Prog ChainCall TransactionReceipt :=
  let fullTx := <["gasPrice" := JNum gasPrice]> tx in
  do beforeSendTransaction hooks fullTx then
  let* txResponse := perform (Signer_sendTransaction signer fullTx) in
  do onTransactionResponse hooks txResponse then
  perform (Provider_waitForTransaction (provider signer) (hash txResponse)
             numConfirmations).

(** [submitTransactionWithYNATM(tx, signer, config, numConfirmations, hooks)] *)
Definition submitTransactionWithYNATM
           (tx : PopulatedTransaction) (signer : Signer)
           (config : ResubmissionConfig) (numConfirmations : N)
           (hooks : TxSubmissionHooks)
  : Prog (SubmitCall SignFunction) TransactionReceipt :=
  let* minGasPrice := getGasPriceInGwei signer in
  let* receipt :=
    perform (Ynatm_send {|
      sendTransactionFunction :=
        sendTxAndWaitForReceipt tx signer numConfirmations hooks;
      send_minGasPrice := ynatm_toGwei minGasPrice;
      send_maxGasPrice := ynatm_toGwei (Finite (maxGasPriceInGwei config));
      send_gasPriceScalingFunction := LINEAR (gasRetryIncrement config);
      send_delay := resubmissionTimeout config |}) in
  Ret receipt.

(** The function [submitSignedTransactionWithYNATM] gives to the engine. *)
Definition sendSignedTxAndWaitForReceipt
           (tx : PopulatedTransaction) (signer : Signer)
           (numConfirmations : N) (hooks : TxSubmissionHooks)
           (signedTx : string) : Prog ChainCall TransactionReceipt :=
  do beforeSendTransaction hooks tx then
  let* txResponse :=
    perform (Provider_sendTransaction (provider signer) signedTx) in
  do onTransactionResponse hooks txResponse then
  perform (Provider_waitForTransaction (provider signer) (hash txResponse)
             numConfirmations).

(** [submitSignedTransactionWithYNATM(tx, signFunction, signer, config,
    numConfirmations, hooks)] *)
Definition submitSignedTransactionWithYNATM
           (tx : PopulatedTransaction) (sign : SignFunction)
           (signer : Signer) (config : ResubmissionConfig)
           (numConfirmations : N) (hooks : TxSubmissionHooks)
  : Prog (SubmitCall SignFunction) TransactionReceipt :=
  let* minGasPrice := getGasPriceInGwei signer in
  let* receipt :=
    perform (YnatmAsync_sendAfterSign {|
      sendSignedTransactionFunction :=
        sendSignedTxAndWaitForReceipt tx signer numConfirmations hooks;
      signFunction := sign;
      sign_minGasPrice := ynatmAsync_toGwei minGasPrice;
      sign_maxGasPrice :=
        ynatmAsync_toGwei (Finite (maxGasPriceInGwei config));
      sign_gasPriceScalingFunction := LINEAR (gasRetryIncrement config);
      sign_delay := resubmissionTimeout config |}) in
  Ret receipt.

(** [YnatmTransactionSubmitter] *)
Record YnatmTransactionSubmitter : Type := {
  signer : Signer;
  ynatmConfig : ResubmissionConfig;
  numConfirmations : N
}.

(** The hooks used when the caller gives none. *)
Definition default_hooks : TxSubmissionHooks := {|
  beforeSendTransaction := fun _ => Ret tt;
  onTransactionResponse := fun _ => Ret tt
|}.

Definition submitTransaction (this : YnatmTransactionSubmitter)
           (tx : PopulatedTransaction) (hooks : option TxSubmissionHooks)
  : Prog (SubmitCall SignFunction) TransactionReceipt :=
  let hooks :=
    match hooks with
    | None => default_hooks
    | Some given => given
    end in
  submitTransactionWithYNATM tx (signer this) (ynatmConfig this)
    (numConfirmations this) hooks.

Definition submitSignedTransaction (this : YnatmTransactionSubmitter)
           (tx : PopulatedTransaction) (sign : SignFunction)
           (hooks : option TxSubmissionHooks)
  : Prog (SubmitCall SignFunction) TransactionReceipt :=
  let hooks :=
    match hooks with
    | None => default_hooks
    | Some given => given
    end in
  submitSignedTransactionWithYNATM tx sign (signer this) (ynatmConfig this)
    (numConfirmations this) hooks.

End Submission.

(** The chain as an environment: how the signer and the provider answer,
    and what the engines return.  Every call is recorded. *)
Record Chain_env (SignFunction : Type) : Type := {
  network_gas_price : Signer -> Completion N;
  signer_sends : Signer -> PopulatedTransaction -> Completion TransactionResponse;
  provider_sends : Provider -> string -> Completion TransactionResponse;
  provider_waits : Provider -> string -> N -> Completion TransactionReceipt;
  ynatm_returns : SendOptions -> Completion TransactionReceipt;
  ynatmAsync_returns :
    SendAfterSignOptions SignFunction -> Completion TransactionReceipt
}.
Arguments network_gas_price {SignFunction} _.
Arguments signer_sends {SignFunction} _.
Arguments provider_sends {SignFunction} _.
Arguments provider_waits {SignFunction} _.
Arguments ynatm_returns {SignFunction} _.
Arguments ynatmAsync_returns {SignFunction} _.

Inductive ChainEvent : Type :=
| Called (X : Type) (c : ChainCall X).
Arguments Called {X} c.

Definition chain_answer {SignFunction : Type} (env : Chain_env SignFunction)
           (X : Type) (c : ChainCall X) : Completion X :=
  match c in ChainCall X return Completion X with
  | Signer_getGasPrice s => network_gas_price env s
  | Signer_sendTransaction s tx => signer_sends env s tx
  | Provider_sendTransaction p signedTx => provider_sends env p signedTx
  | Provider_waitForTransaction p h n => provider_waits env p h n
  | Notify_beforeSend _ => Normal tt
  | Notify_response _ => Normal tt
  end.

Definition on_chain {SignFunction : Type} (env : Chain_env SignFunction)
  : forall X, ChainCall X -> list ChainEvent -> Completion X * list ChainEvent :=
  fun X c log => (chain_answer env X c, log ++ [Called c]).

Inductive SubmitEvent (SignFunction : Type) : Type :=
| Submitted (X : Type) (c : SubmitCall SignFunction X).
Arguments Submitted {SignFunction X} c.

Definition on_submit {SignFunction : Type} (env : Chain_env SignFunction)
  : forall X, SubmitCall SignFunction X -> list (SubmitEvent SignFunction) ->
              Completion X * list (SubmitEvent SignFunction) :=
  fun X c log =>
    (match c in SubmitCall _ X return Completion X with
     | Chain c' => chain_answer env _ c'
     | Ynatm_send options => ynatm_returns env options
     | YnatmAsync_sendAfterSign options => ynatmAsync_returns env options
     end,
     log ++ [Submitted c]).

(** The starting gas prices handed to the engines in a record of calls. *)
Definition starting_gas_price {SignFunction X : Type}
           (c : SubmitCall SignFunction X) : list JsNumber :=
  match c with
  | Chain _ => []
  | Ynatm_send options => [send_minGasPrice options]
  | YnatmAsync_sendAfterSign options => [sign_minGasPrice options]
  end.

Fixpoint starting_gas_prices {SignFunction : Type}
         (log : list (SubmitEvent SignFunction)) : list JsNumber :=
  match log with
  | [] => []
  | Submitted c :: rest => starting_gas_price c ++ starting_gas_prices rest
  end.

(** Gwei to wei, without rounding: a conversion for the examples, which
    preserves the order. *)
Definition gwei (x : JsNumber) : JsNumber :=
  match x with
  | Finite n => Finite (n * 1000000000)
  | Infinity => Infinity
  end.

(** An example: a network whose gas price is 20 gwei, and a
    configuration whose floor is 50 gwei. *)
Definition example_provider : Provider := {| endpoint := "http://127.0.0.1:8545" |}.
Definition example_signer : Signer :=
  {| address := "0x00000000000000000000000000000000000000aa";
     provider := example_provider |}.
Definition example_config : ResubmissionConfig :=
  {| resubmissionTimeout := 60000; minGasPriceInGwei := 50;
     maxGasPriceInGwei := 500; gasRetryIncrement := 5 |}.
Definition example_receipt : TransactionReceipt :=
  {| transactionHash := "0x01"; confirmations := 1 |}.
Definition example_tx : PopulatedTransaction :=
  <["to" := JStr "0x00000000000000000000000000000000000000bb"]>
    (<["data" := JStr "0x"]> ∅).
Definition example_env : Chain_env unit :=
  {| network_gas_price := fun _ => Normal 20000000000;
     signer_sends := fun _ _ => Normal {| hash := "0x01"; nonce := 0 |};
     provider_sends := fun _ _ => Normal {| hash := "0x01"; nonce := 0 |};
     provider_waits := fun _ _ _ => Normal example_receipt;
     ynatm_returns := fun _ => Normal example_receipt;
     ynatmAsync_returns := fun _ => Normal example_receipt |}.

(** *** Waiting for a signature ([mpc-client.ts], lines 107-124)

    The event loop with a virtual clock, in milliseconds.  The interval
    timer fires one delay after [setInterval] and then every delay; each
    tick issues a poll, of which the service decides the duration and
    the reply; a poll that completes runs the rest of the callback.
    Ticks do not wait for polls: several polls can be in flight. *)

(** How the service treats the [k]-th poll. *)
Record Poll : Type := {
  latency : N;
  reply : Completion string
}.

Record Loop : Type := {
  timer : bool;
  issued : list Z;
  inflight : list (Z * Completion JsVal);
  settled : option (Z * Completion JsVal)
}.

(** The poll in flight that completes first. *)
Fixpoint take_earliest (polls : list (Z * Completion JsVal))
  : option ((Z * Completion JsVal) * list (Z * Completion JsVal)) :=
  match polls with
  | [] => None
  | p :: rest =>
      match take_earliest rest with
      | None => Some (p, [])
      | Some (q, others) =>
          if (fst p <=? fst q)%Z then Some (p, rest) else Some (q, p :: others)
      end
  end.

(** [resolve] and [reject] settle a promise once. *)
Definition settle (at_time : Z) (c : Completion JsVal)
           (state : option (Z * Completion JsVal))
  : option (Z * Completion JsVal) :=
  match state with
  | Some _ => state
  | None => Some (at_time, c)
  end.

Section Polling.

Variable node : Platform.
Variable this : MpcClient.
(** [maxTimeout] and [interval] are finite numbers of milliseconds,
    taken as integers.  (A [maxTimeout] that is [NaN] or [Infinity] never
    passes the comparison of line 114: the wait then has no deadline.
    That case is not modelled.) *)
Variables (id : string) (maxTimeout interval : Z).
(** [Date.now()] when the function is called. *)
Variable startTime : Z.
Variable service : nat -> Poll.

(** The delay of the timer: Node sets a delay below 1 or above
    [2^31 - 1] to 1. *)
Definition delay : Z :=
  if ((interval <? 1) || (2147483647 <? interval))%Z then 1%Z else interval.

Definition tick_time (k : nat) : Z := (startTime + Z.of_nat k * delay)%Z.

(** When the [k]-th poll completes, and how [getMpcSign] completes. *)
Definition done_at (k : nat) : Z :=
  (tick_time k + Z.of_N (latency (service k)))%Z.

Definition completion_of (k : nat) : Completion JsVal :=
  outcome (reply (service k)) (getMpcSign node this id).

(** The timer fires: the callback calls [getMpcSign] and waits. *)
Definition on_tick (st : Loop) : Loop :=
  let k := S (length (issued st)) in
  {| timer := timer st;
     issued := issued st ++ [tick_time k];
     inflight := inflight st ++ [(done_at k, completion_of k)];
     settled := settled st |}.

(** A poll completes at [currentTime]: the callback goes on. *)
Definition on_completion (st : Loop) (currentTime : Z)
           (c : Completion JsVal) (others : list (Z * Completion JsVal))
  : Loop :=
  match c with
  | Normal signedTx =>
      if truthy signedTx || (maxTimeout <=? currentTime - startTime)%Z then
        {| timer := false;
           issued := issued st;
           inflight := others;
           settled := settle currentTime (Normal signedTx) (settled st) |}
      else
        {| timer := timer st;
           issued := issued st;
           inflight := others;
           settled := settled st |}
  | Throw error =>
      {| timer := false;
         issued := issued st;
         inflight := others;
         settled := settle currentTime (Throw error) (settled st) |}
  end.

(** The next event: the earliest completion, or the next tick when the
    timer is active and due strictly before it; nothing when no poll
    is in flight and the timer is cleared. *)
Definition step (st : Loop) : option Loop :=
  match take_earliest (inflight st) with
  | Some ((t, c), others) =>
      if timer st && (tick_time (S (length (issued st))) <? t)%Z
      then Some (on_tick st)
      else Some (on_completion st t c others)
  | None => if timer st then Some (on_tick st) else None
  end.

Fixpoint run_loop (fuel : nat) (st : Loop) : Loop :=
  match fuel with
  | O => st
  | S fuel' =>
      match step st with
      | Some st' => run_loop fuel' st'
      | None => st
      end
  end.

(** [getMpcSignWithTimeout(id, maxTimeout, interval)] after [events]
    events: the timer has been set and the promise is pending. *)
Definition getMpcSignWithTimeout (events : nat) : Loop :=
  run_loop events
    {| timer := true; issued := []; inflight := []; settled := None |}.

(** The [k]-th poll ends the wait. *)
Definition decisive (k : nat) : bool :=
  match completion_of k with
  | Normal signedTx =>
      truthy signedTx || (maxTimeout <=? done_at k - startTime)%Z
  | Throw _ => true
  end.

(** Between two polls, and after the poll that ended the wait. *)
Definition waiting (k : nat) : Loop :=
  {| timer := true; issued := map tick_time (seq 1 k);
     inflight := []; settled := None |}.

Definition finished (k : nat) : Loop :=
  {| timer := false; issued := map tick_time (seq 1 k);
     inflight := []; settled := Some (done_at k, completion_of k) |}.

End Polling.

(** Three services, for the examples: one that never has a signature
    and answers at once, one that never has a signature and takes 4.5
    seconds, and one whose first poll fails after 1.5 seconds while its
    second poll is answered with a signature within 100 ms. *)
Definition no_signature_yet : nat -> Poll :=
  fun _ => {| latency := 0; reply := Normal "{result:{}}" |}.

Definition slow_service : nat -> Poll :=
  fun _ => {| latency := 4500; reply := Normal "{result:{}}" |}.

Definition late_failure : nat -> Poll :=
  fun k =>
    match k with
    | 1%nat => {| latency := 1500; reply := Throw (TransportError "ECONNRESET") |}
    | _ => {| latency := 100; reply := Normal "{result:{signed_tx:'0xf86b'}}" |}
    end.

(** A service whose first poll fails after 1.5 seconds while the later
    polls are answered within 100 ms that there is no signature. *)
Definition late_failure_unsigned : nat -> Poll :=
  fun k =>
    match k with
    | 1%nat => {| latency := 1500; reply := Throw (TransportError "ECONNRESET") |}
    | _ => {| latency := 100; reply := Normal "{result:{}}" |}
    end.

(** A service that has the signature at the second poll, and one whose
    third poll fails. *)
Definition signed_on_second : nat -> Poll :=
  fun k =>
    match k with
    | 2%nat => {| latency := 100; reply := Normal "{result:{signed_tx:'0xf86b'}}" |}
    | _ => {| latency := 100; reply := Normal "{result:{}}" |}
    end.

Definition fails_on_third : nat -> Poll :=
  fun k =>
    match k with
    | 3%nat => {| latency := 100; reply := Throw (TransportError "ECONNRESET") |}
    | _ => {| latency := 100; reply := Normal "{result:{}}" |}
    end.

(** The numbers below a bound, for checks by enumeration. *)
Definition below (bound : nat) : list N := map N.of_nat (seq 0 bound).

(** *** Codec: notions used to state further properties *)

(** The digits of a hex string, without its [0x] prefix. *)
Definition hex_digits_of (hex : string) : string := snd (strip_0x hex).

(** The value of a hexadecimal digit; a character that is not one
    counts as zero. *)
Definition nibble_value (c : ascii) : N :=
  let n := N_of_ascii c in
  if (48 <=? n) && (n <=? 57) then n - 48
  else if (97 <=? n) && (n <=? 102) then n - 87
  else if (65 <=? n) && (n <=? 70) then n - 55
  else 0.

(** The number a string of hexadecimal digits denotes, most significant
    digit first. *)
Fixpoint hex_value_from (acc : N) (digits : string) : N :=
  match digits with
  | EmptyString => acc
  | String c rest => hex_value_from (16 * acc + nibble_value c) rest
  end.

Definition hex_value (digits : string) : N := hex_value_from 0 digits.

(** A character of base64 text: a character of the standard alphabet,
    or the padding character. *)
Definition is_base64_unit (unit : N) : bool :=
  existsb (fun c => N_of_ascii c =? unit) (list_ascii_of_string base64_alphabet)
  || (unit =? 61).

(** The lowercase hexadecimal encoding of a byte sequence, from its
    description: every byte is written as two digits in base 16, the more
    significant one first, the digits above 9 as the letters [a] to [f]. *)
Definition lowercase_hex_digit (d : N) : ascii :=
  ascii_of_N (if d <? 10 then 48 + d else 87 + d).

Fixpoint lowercase_hex (bs : list byte) : string :=
  match bs with
  | [] => EmptyString
  | b :: rest =>
      String (lowercase_hex_digit (N_of_byte b / 16))
        (String (lowercase_hex_digit (N_of_byte b mod 16)) (lowercase_hex rest))
  end.

(** The number a byte sequence denotes, most significant byte first. *)
Fixpoint bytes_value_from (acc : N) (bs : list byte) : N :=
  match bs with
  | [] => acc
  | b :: rest => bytes_value_from (256 * acc + N_of_byte b) rest
  end.

Definition bytes_value (bs : list byte) : N := bytes_value_from 0 bs.

(** The character of the standard alphabet for a character of the
    URL-safe one. *)
Definition to_standard_alphabet (c : ascii) : ascii :=
  if Ascii.eqb c "-" then "+"%char
  else if Ascii.eqb c "_" then "/"%char
  else c.

Fixpoint string_map (f : ascii -> ascii) (s : string) : string :=
  match s with
  | EmptyString => EmptyString
  | String c rest => String (f c) (string_map f rest)
  end.

(** The number of characters of the alphabet before the first ['=']. *)
Fixpoint sextet_count (s : string) : nat :=
  match s with
  | EmptyString => O
  | String c rest =>
      if Ascii.eqb c "=" then O
      else
        match unbase64 c with
        | Some _ => S (sextet_count rest)
        | None => sextet_count rest
        end
  end.

(** The protocol module [httpRequest] picks for a base URL. *)
Definition protocol_of (base : string) : Protocol :=
  if startsWith (toLowerCase base) "https" then https else http.

(** The options of a request, from the parsed URL. *)
Definition options_of (verb : string) (u : URL)
           (fields : list (string * HeaderValue)) : RequestOptions :=
  {| method := verb; hostname := URL_hostname u; port := URL_port u;
     path := URL_pathname u; headers := fields |}.

(** The line logged for a reply that was received. *)
Definition logged_reply (level label : string) (reply : Completion string)
  : list NodeEvent :=
  match reply with
  | Normal body => [Logged level label body]
  | Throw _ => []
  end.

(** A client whose base is not a URL. *)
Definition misconfigured_client : MpcClient := {| url := "mpc.example" |}.

(** Hooks that throw: one before the send, one on the response. *)
Definition refusing_hooks (e : JsError) : TxSubmissionHooks := {|
  beforeSendTransaction := fun _ => Raise e;
  onTransactionResponse := fun txResponse => perform (Notify_response txResponse)
|}.

(** An environment whose network does not answer the gas price query. *)
Definition offline_env : Chain_env unit :=
  {| network_gas_price := fun _ => Throw (TransportError "ETIMEDOUT");
     signer_sends := fun _ _ => Throw (TransportError "ETIMEDOUT");
     provider_sends := fun _ _ => Throw (TransportError "ETIMEDOUT");
     provider_waits := fun _ _ _ => Throw (TransportError "ETIMEDOUT");
     ynatm_returns := fun _ => Normal example_receipt;
     ynatmAsync_returns := fun _ => Normal example_receipt |}.

(** An environment whose network gas price is 900 gwei and a half. *)
Definition congested_env : Chain_env unit :=
  {| network_gas_price := fun _ => Normal 900500000000;
     signer_sends := fun _ _ => Normal {| hash := "0x01"; nonce := 0 |};
     provider_sends := fun _ _ => Normal {| hash := "0x01"; nonce := 0 |};
     provider_waits := fun _ _ _ => Normal example_receipt;
     ynatm_returns := fun _ => Normal example_receipt;
     ynatmAsync_returns := fun _ => Normal example_receipt |}.

(** An environment whose network gas price is 9007199254740993 gwei, one
    more than [2^53]. *)
Definition precise_env : Chain_env unit :=
  {| network_gas_price := fun _ => Normal 9007199254740993000000000;
     signer_sends := fun _ _ => Normal {| hash := "0x01"; nonce := 0 |};
     provider_sends := fun _ _ => Normal {| hash := "0x01"; nonce := 0 |};
     provider_waits := fun _ _ _ => Normal example_receipt;
     ynatm_returns := fun _ => Normal example_receipt;
     ynatmAsync_returns := fun _ => Normal example_receipt |}.

(** Hooks that accept the transaction and throw on its response. *)
Definition response_refusing_hooks (e : JsError) : TxSubmissionHooks := {|
  beforeSendTransaction := fun tx => perform (Notify_beforeSend tx);
  onTransactionResponse := fun _ => Raise e
|}.

(** The maxima and minima handed to the engines in a record of calls. *)
Definition price_range {SignFunction X : Type}
           (c : SubmitCall SignFunction X) : list (JsNumber * JsNumber) :=
  match c with
  | Chain _ => []
  | Ynatm_send options => [(send_minGasPrice options, send_maxGasPrice options)]
  | YnatmAsync_sendAfterSign options =>
      [(sign_minGasPrice options, sign_maxGasPrice options)]
  end.

Fixpoint price_ranges {SignFunction : Type}
         (log : list (SubmitEvent SignFunction))
  : list (JsNumber * JsNumber) :=
  match log with
  | [] => []
  | Submitted c :: rest => price_range c ++ price_ranges rest
  end.

(** *** Waiting for a signature: what holds of every state of the loop *)

Section PollingInvariant.

Variable node : Platform.
Variable this : MpcClient.
Variables (id : string) (maxTimeout interval : Z).
Variable startTime : Z.
Variable service : nat -> Poll.

(** [p] is the completion of one of the first [n] polls. *)
Definition issued_poll (n : nat) (p : Z * Completion JsVal) : Prop :=
  exists k, (1 <= k <= n)%nat /\
            p = (done_at interval startTime service k,
                 completion_of node this id service k).

(** A completion that ends the wait: an exception, a truthy value, or
    any value once [maxTimeout] has passed. *)
Definition ends_wait (p : Z * Completion JsVal) : bool :=
  match snd p with
  | Normal signedTx => truthy signedTx || (maxTimeout <=? fst p - startTime)%Z
  | Throw _ => true
  end.

(** The index of the first tick at or after [maxTimeout]. *)
Definition deadline_poll : nat :=
  Z.to_nat (Z.max 1 ((maxTimeout + delay interval - 1) / delay interval)).

Record loop_invariant (st : Loop) : Prop := {
  inv_timer :
    timer st = match settled st with None => true | Some _ => false end;
  inv_issued :
    issued st
    = map (tick_time interval startTime) (seq 1 (length (issued st)));
  inv_inflight :
    forall p, In p (inflight st) -> issued_poll (length (issued st)) p;
  inv_settled :
    forall r, settled st = Some r ->
              issued_poll (length (issued st)) r /\ ends_wait r = true /\
              (fst r <= done_at interval startTime service deadline_poll)%Z;
  inv_pending :
    settled st = None ->
    forall k, (1 <= k <= length (issued st))%nat ->
              decisive node this id maxTimeout interval startTime service k
              = true ->
              In (done_at interval startTime service k,
                  completion_of node this id service k) (inflight st)
}.

(** What is left to do before the wait must have ended, given a bound on
    the number of polls. *)
Definition remaining_events (bound : nat) (st : Loop) : nat :=
  (2 * (bound - length (issued st)) + length (inflight st))%nat.

End PollingInvariant.

(** No poll is issued beyond this index: the poll of the deadline is
    issued at most that late, and ends the wait when it completes. *)
Definition poll_bound (maxTimeout interval startTime : Z)
           (service : nat -> Poll) : nat :=
  Nat.max (deadline_poll maxTimeout interval)
    (Z.to_nat (done_at interval startTime service
                 (deadline_poll maxTimeout interval) - startTime)).

(** ** Part II.  Properties *)

(** *** Codec *)

#[local] Arguments Ascii.eqb : simpl never.

Lemma startsWith_0x (hex : string) :
  startsWith hex "0x" = fst (strip_0x hex) /\
  (startsWith hex "0x" = true -> substring_from 2 hex = snd (strip_0x hex)) /\
  (startsWith hex "0x" = false -> snd (strip_0x hex) = hex).
Proof.
  destruct hex as [|c0 [|c1 body]]; cbn.
  - repeat split; congruence.
  - rewrite andb_false_r. repeat split; congruence.
  - rewrite andb_true_r, (Ascii.eqb_sym "0" c0), (Ascii.eqb_sym "x" c1).
    destruct (Ascii.eqb c0 "0"), (Ascii.eqb c1 "x"); cbn;
      repeat split; congruence.
Qed.

Lemma replace_leading_zeros_split (s : string) :
  exists k : nat,
    s = zeros k +:+ replace_leading_zeros s /\
    startsWith (replace_leading_zeros s) "0" = false.
Proof.
  induction s as [|c s IH].
  - exists 0%nat. split; reflexivity.
  - simpl. destruct (Ascii.eqb_spec c "0") as [->|Hc].
    + destruct IH as [k [Hk Hz]]. exists (S k). split; [|exact Hz].
      rewrite Hk at 1. reflexivity.
    + exists 0%nat. split; [reflexivity|].
      cbn. rewrite andb_true_r, Ascii.eqb_sym.
      destruct (Ascii.eqb_spec c "0"); [congruence|reflexivity].
Qed.

(** C6.  [removeHexLeadingZero] strips a [0x] prefix if there is one, removes
    every leading ['0'] (what is left does not start with ['0'], and the
    input digits are some zeros followed by it), puts a single ['0'] back
    when nothing is left and [keepOneZero] is set, and restores [0x] exactly
    when the input had it; on the three inputs of the specification it gives
    ["0x0"], ["0x"] and ["0xa1"]. *)
Theorem removeHexLeadingZero_correct :
  (forall hex keepOneZero,
      removeHexLeadingZero hex keepOneZero
      = removeHexLeadingZero_described hex keepOneZero) /\
  (forall hex keepOneZero,
      startsWith (removeHexLeadingZero hex keepOneZero) "0x"
      = startsWith hex "0x") /\
  (forall digits,
      exists k : nat,
        digits = zeros k +:+ replace_leading_zeros digits /\
        startsWith (replace_leading_zeros digits) "0" = false) /\
  removeHexLeadingZero "0x00" true = "0x0" /\
  removeHexLeadingZero "0x00" false = "0x" /\
  removeHexLeadingZero "0x0a1" false = "0xa1".
Proof.
  split; [|split; [|split; [|repeat split]]].
  - intros hex keep.
    destruct (startsWith_0x hex) as [Hp [Ht Hf]].
    unfold removeHexLeadingZero, removeHexLeadingZero_described.
    destruct (strip_0x hex) as [had digits]; cbn [fst snd] in *.
    destruct (startsWith hex "0x"); subst had.
    + rewrite (Ht eq_refl).
      destruct (replace_leading_zeros digits); destruct keep; reflexivity.
    + rewrite <- (Hf eq_refl).
      destruct (replace_leading_zeros digits); destruct keep; reflexivity.
  - intros hex keepOneZero. unfold removeHexLeadingZero.
    destruct (startsWith hex "0x"); [reflexivity|].
    destruct (replace_leading_zeros_split hex) as [k [_ Hz]].
    destruct (replace_leading_zeros hex) as [|c t]; destruct keepOneZero;
      try reflexivity.
    all: cbn in Hz |- *; rewrite andb_true_r in Hz; rewrite Hz; reflexivity.
  - exact replace_leading_zeros_split.
Qed.

Lemma below_forall (bound : nat) (P : N -> bool) :
  forallb P (below bound) = true ->
  forall n, n < N.of_nat bound -> P n = true.
Proof.
  intros Hall n Hn.
  rewrite forallb_forall in Hall. apply Hall.
  unfold below. rewrite <- (N2Nat.id n). apply in_map.
  apply in_seq. lia.
Qed.

Lemma below_forall2 (bound : nat) (P : N -> N -> bool) :
  forallb (fun a => forallb (P a) (below bound)) (below bound) = true ->
  forall a b, a < N.of_nat bound -> b < N.of_nat bound -> P a b = true.
Proof.
  intros Hall a b Ha Hb.
  apply (below_forall bound (P a)); [|exact Hb].
  exact (below_forall bound _ Hall a Ha).
Qed.

Lemma N_of_byte_bound (b : byte) : N_of_byte b < 256.
Proof. unfold N_of_byte. pose proof (Byte.to_N_bounded b). lia. Qed.

Lemma byte_of_N_of_byte (b : byte) : byte_of_N (N_of_byte b) = b.
Proof. destruct b; reflexivity. Qed.

Lemma unbase64_base64_char (s : N) :
  s < 64 ->
  unbase64 (base64_char s) = Some s /\ Ascii.eqb (base64_char s) "=" = false.
Proof.
  intros Hs.
  pose proof (below_forall 64
    (fun s => match unbase64 (base64_char s) with
              | Some v => N.eqb v s
              | None => false
              end && negb (Ascii.eqb (base64_char s) "="))) as H.
  specialize (H ltac:(vm_compute; reflexivity) s Hs). cbv beta in H.
  apply andb_true_iff in H. destruct H as [H1 H2].
  destruct (unbase64 (base64_char s)) as [v|]; [|discriminate].
  apply N.eqb_eq in H1. apply negb_true_iff in H2. subst v. auto.
Qed.

Lemma sextet_bounds (a b : N) :
  a < 256 -> b < 256 ->
  sextet1 a < 64 /\ sextet2 a b < 64 /\ sextet3 a b < 64 /\ sextet4 a < 64.
Proof.
  intros Ha Hb.
  pose proof (below_forall2 256
    (fun a b => (sextet1 a <? 64) && (sextet2 a b <? 64) && (sextet3 a b <? 64)
                && (sextet4 a <? 64))) as H.
  specialize (H ltac:(vm_compute; reflexivity) a b Ha Hb). cbv beta in H.
  repeat (apply andb_true_iff in H; destruct H as [H ?]).
  repeat match goal with
         | H : (_ <? _) = true |- _ => apply N.ltb_lt in H
         end.
  auto.
Qed.

(** The bytes the decoder rebuilds from consecutive sextets. *)
Lemma decoded_bytes (a b : N) :
  a < 256 -> b < 256 ->
  N.lor (N.shiftl (N.land (sextet1 a) 63) 2)
        (N.shiftr (N.land (sextet2 a b) 48) 4) = a /\
  N.land (sextet2 a b) 15 = N.shiftr b 4 /\
  N.shiftr (N.land (sextet3 a b) 60) 2 = N.land a 15 /\
  N.lor (N.shiftl (N.shiftr a 4) 4) (N.land a 15) = a /\
  N.lor (N.shiftl (N.land (sextet3 a b) 3) 6) (N.land (sextet4 b) 63) = b.
Proof.
  intros Ha Hb.
  pose proof (below_forall2 256
    (fun a b =>
       (N.lor (N.shiftl (N.land (sextet1 a) 63) 2)
              (N.shiftr (N.land (sextet2 a b) 48) 4) =? a)
       && (N.land (sextet2 a b) 15 =? N.shiftr b 4)
       && (N.shiftr (N.land (sextet3 a b) 60) 2 =? N.land a 15)
       && (N.lor (N.shiftl (N.shiftr a 4) 4) (N.land a 15) =? a)
       && (N.lor (N.shiftl (N.land (sextet3 a b) 3) 6)
                 (N.land (sextet4 b) 63) =? b)))
    as H.
  specialize (H ltac:(vm_compute; reflexivity) a b Ha Hb). cbv beta in H.
  repeat (apply andb_true_iff in H; destruct H as [H ?]).
  repeat match goal with
         | H : (_ =? _) = true |- _ => apply N.eqb_eq in H
         end.
  auto 10.
Qed.

Lemma list_ind3 {A : Type} (P : list A -> Prop) :
  P [] -> (forall a, P [a]) -> (forall a b, P [a; b]) ->
  (forall a b c l, P l -> P (a :: b :: c :: l)) ->
  forall l, P l.
Proof.
  intros H0 H1 H2 H3 l.
  assert (P l /\ (forall a, P (a :: l)) /\ (forall a b, P (a :: b :: l))) as [H _].
  { induction l as [|x l [IH0 [IH1 IH2]]]; auto. }
  exact H.
Qed.

(** In the first position of a group the previous sextet is not used. *)
Lemma base64_decode_phase0 (h h' : N) (s : string) :
  base64_decode_from 0 h s = base64_decode_from 0 h' s.
Proof.
  induction s as [|c s IH]; [reflexivity|].
  cbn [base64_decode_from].
  destruct (Ascii.eqb c "="); [reflexivity|].
  destruct (unbase64 c); [reflexivity | exact IH].
Qed.

Lemma base64_decode_legal (hi lo : N) (rest : string) :
  lo < 64 ->
  base64_decode_from 0 hi (String (base64_char lo) rest)
  = base64_decode_from 1 lo rest /\
  base64_decode_from 1 hi (String (base64_char lo) rest)
  = byte_of_N (N.lor (N.shiftl (N.land hi 63) 2) (N.shiftr (N.land lo 48) 4))
      :: base64_decode_from 2 lo rest /\
  base64_decode_from 2 hi (String (base64_char lo) rest)
  = byte_of_N (N.lor (N.shiftl (N.land hi 15) 4) (N.shiftr (N.land lo 60) 2))
      :: base64_decode_from 3 lo rest /\
  base64_decode_from 3 hi (String (base64_char lo) rest)
  = byte_of_N (N.lor (N.shiftl (N.land hi 3) 6) (N.land lo 63))
      :: base64_decode_from 0 lo rest.
Proof.
  intros Hlo. destruct (unbase64_base64_char lo Hlo) as [E1 E2].
  cbn [base64_decode_from]. rewrite E2, E1. auto.
Qed.

Lemma base64_decode_group (a b c : byte) (h : N) (rest : string) :
  base64_decode_from 0 h
    (String (base64_char (sextet1 (N_of_byte a)))
       (String (base64_char (sextet2 (N_of_byte a) (N_of_byte b)))
          (String (base64_char (sextet3 (N_of_byte b) (N_of_byte c)))
             (String (base64_char (sextet4 (N_of_byte c))) rest))))
  = a :: b :: c :: base64_decode_from 0 h rest.
Proof.
  pose proof (N_of_byte_bound a) as Ha.
  pose proof (N_of_byte_bound b) as Hb.
  pose proof (N_of_byte_bound c) as Hc.
  destruct (sextet_bounds _ _ Ha Hb) as (B1 & B2 & _).
  destruct (sextet_bounds _ _ Hb Hc) as (_ & _ & B3 & _).
  destruct (sextet_bounds _ _ Hc Hc) as (_ & _ & _ & B4).
  destruct (decoded_bytes _ _ Ha Hb) as (D1 & D2 & _).
  destruct (decoded_bytes _ _ Hb Hc) as (_ & _ & D3 & D4 & D5).
  rewrite (proj1 (base64_decode_legal h _ _ B1)).
  rewrite (proj1 (proj2 (base64_decode_legal _ _ _ B2))).
  rewrite (proj1 (proj2 (proj2 (base64_decode_legal _ _ _ B3)))).
  rewrite (proj2 (proj2 (proj2 (base64_decode_legal _ _ _ B4)))).
  rewrite D1, D2, D3, D4, D5, !byte_of_N_of_byte.
  do 3 f_equal. apply base64_decode_phase0.
Qed.

Lemma base64_decode_encode (bs : list byte) :
  Buffer_from_base64 (base64_encode bs) = bs.
Proof.
  unfold Buffer_from_base64. generalize 0 as h.
  assert (0 < 256) as H0 by lia.
  induction bs as [|a|a b|a b c rest IH] using list_ind3; intros h.
  - reflexivity.
  - pose proof (N_of_byte_bound a) as Ha.
    destruct (sextet_bounds _ _ Ha H0) as (B1 & B2 & _).
    destruct (decoded_bytes _ _ Ha H0) as (D1 & _).
    cbn [base64_encode].
    rewrite (proj1 (base64_decode_legal h _ _ B1)).
    rewrite (proj1 (proj2 (base64_decode_legal _ _ _ B2))).
    rewrite D1, byte_of_N_of_byte. reflexivity.
  - pose proof (N_of_byte_bound a) as Ha.
    pose proof (N_of_byte_bound b) as Hb.
    destruct (sextet_bounds _ _ Ha Hb) as (B1 & B2 & _).
    destruct (sextet_bounds _ _ Hb H0) as (_ & _ & B3 & _).
    destruct (decoded_bytes _ _ Ha Hb) as (D1 & D2 & _).
    destruct (decoded_bytes _ _ Hb H0) as (_ & _ & D3 & D4 & _).
    cbn [base64_encode].
    rewrite (proj1 (base64_decode_legal h _ _ B1)).
    rewrite (proj1 (proj2 (base64_decode_legal _ _ _ B2))).
    rewrite (proj1 (proj2 (proj2 (base64_decode_legal _ _ _ B3)))).
    rewrite D1, D2, D3, D4, !byte_of_N_of_byte. reflexivity.
  - cbn [base64_encode].
    rewrite base64_decode_group. f_equal. f_equal. f_equal. apply IH.
Qed.

Lemma Buffer_toString_hex_lower (bs : list byte) :
  string_forall is_lower_hex (Buffer_toString_hex bs) = true.
Proof.
  induction bs as [|b bs IH]; [reflexivity|].
  cbn [Buffer_toString_hex string_forall]. rewrite IH, andb_true_r.
  exact (below_forall 256
           (fun n => is_lower_hex (hex_digit (N.shiftr n 4))
                     && is_lower_hex (hex_digit (N.land n 15)))
           ltac:(vm_compute; reflexivity) _ (N_of_byte_bound b)).
Qed.

Lemma Buffer_toString_hex_length (bs : list byte) :
  String.length (Buffer_toString_hex bs) = (2 * length bs)%nat.
Proof.
  induction bs as [|b bs IH]; [reflexivity|].
  cbn [Buffer_toString_hex String.length length]. rewrite IH. lia.
Qed.

(** The hex encoding of Node is the one described. *)
Lemma Buffer_toString_hex_described (bs : list byte) :
  Buffer_toString_hex bs = lowercase_hex bs.
Proof.
  induction bs as [|b bs IH]; [reflexivity|].
  cbn [Buffer_toString_hex lowercase_hex]. rewrite IH.
  pose proof (below_forall 256
    (fun n => Ascii.eqb (hex_digit (N.shiftr n 4)) (lowercase_hex_digit (n / 16))
              && Ascii.eqb (hex_digit (N.land n 15))
                           (lowercase_hex_digit (n mod 16)))
    ltac:(vm_compute; reflexivity) _ (N_of_byte_bound b)) as H.
  cbv beta in H. apply andb_true_iff in H. destruct H as [H1 H2].
  apply Ascii.eqb_eq in H1, H2. rewrite H1, H2. reflexivity.
Qed.

Lemma lowercase_hex_value (bs : list byte) (acc : N) :
  hex_value_from acc (lowercase_hex bs) = bytes_value_from acc bs.
Proof.
  revert acc. induction bs as [|b bs IH]; intros acc; [reflexivity|].
  cbn [lowercase_hex hex_value_from bytes_value_from]. rewrite IH. f_equal.
  pose proof (below_forall 256
    (fun n => (nibble_value (lowercase_hex_digit (n / 16)) =? n / 16)
              && (nibble_value (lowercase_hex_digit (n mod 16)) =? n mod 16))
    ltac:(vm_compute; reflexivity) _ (N_of_byte_bound b)) as H.
  cbv beta in H. apply andb_true_iff in H. destruct H as [H1 H2].
  apply N.eqb_eq in H1, H2. rewrite H1, H2.
  pose proof (N.div_mod (N_of_byte b) 16 ltac:(lia)) as Hdm.
  set (q := N_of_byte b / 16) in *. set (r := N_of_byte b mod 16) in *.
  lia.
Qed.

Lemma low_byte_of_character (c : ascii) : low_byte (N_of_ascii c) = c.
Proof. destruct c as [[] [] [] [] [] [] [] []]; reflexivity. Qed.

Lemma low_bytes_units_of (s : string) : low_bytes (units_of s) = s.
Proof.
  induction s as [|c s IH]; [reflexivity|].
  cbn [units_of low_bytes]. rewrite low_byte_of_character, IH. reflexivity.
Qed.

(** On a text of characters below U+0100 the two readings agree. *)
Lemma base64ToHex_utf16_units_of (s : string) :
  base64ToHex_utf16 (units_of s) = base64ToHex s.
Proof.
  unfold base64ToHex_utf16, Buffer_from_base64_utf16, base64ToHex.
  rewrite low_bytes_units_of. reflexivity.
Qed.

(** C7.  Encoding any byte sequence to standard base64 and passing the
    text through [base64ToHex] gives ["0x"] followed by the lowercase
    hexadecimal encoding of the same bytes: decoding undoes the encoding,
    and the digits that follow ["0x"] are two for each byte, lowercase,
    and denote the same number as the bytes; the bytes 1, 2, 3, 255, whose
    base64 text is [AQID/w==], give ["0x010203ff"]. *)
Theorem base64ToHex_base64_encode :
  forall bs : list byte,
    Buffer_from_base64 (base64_encode bs) = bs /\
    base64ToHex (base64_encode bs) = "0x" +:+ lowercase_hex bs /\
    base64ToHex_utf16 (units_of (base64_encode bs)) = "0x" +:+ lowercase_hex bs /\
    String.length (lowercase_hex bs) = (2 * length bs)%nat /\
    string_forall is_lower_hex (lowercase_hex bs) = true /\
    hex_value (lowercase_hex bs) = bytes_value bs /\
    base64_encode [byte_of_N 1; byte_of_N 2; byte_of_N 3; byte_of_N 255]
    = "AQID/w==" /\
    base64ToHex "AQID/w==" = "0x010203ff".
Proof.
  intros bs.
  assert (base64ToHex (base64_encode bs) = "0x" +:+ lowercase_hex bs) as H.
  { unfold base64ToHex. rewrite base64_decode_encode.
    rewrite Buffer_toString_hex_described. reflexivity. }
  split; [apply base64_decode_encode|]. split; [exact H|].
  split; [rewrite base64ToHex_utf16_units_of; exact H|].
  rewrite <- Buffer_toString_hex_described.
  split; [apply Buffer_toString_hex_length|].
  split; [apply Buffer_toString_hex_lower|].
  rewrite Buffer_toString_hex_described.
  split; [apply lowercase_hex_value|].
  split; reflexivity.
Qed.

Lemma append_empty (s : string) : EmptyString +:+ s = s.
Proof. reflexivity. Qed.

Lemma append_String (c : ascii) (s t : string) :
  String c s +:+ t = String c (s +:+ t).
Proof. reflexivity. Qed.

Lemma base64_decode_skip (phase : nat) (hi : N) (s1 : string) (c : ascii)
      (s2 : string) :
  unbase64 c = None -> c <> "="%char ->
  base64_decode_from phase hi (s1 +:+ String c s2)
  = base64_decode_from phase hi (s1 +:+ s2).
Proof.
  intros Hc Hpad. revert phase hi.
  induction s1 as [|d s1 IH]; intros phase hi.
  - rewrite !append_empty. cbn [base64_decode_from]. rewrite Hc.
    destruct (Ascii.eqb_spec c "="); [contradiction | reflexivity].
  - rewrite !append_String. cbn [base64_decode_from].
    destruct (Ascii.eqb d "="); [reflexivity|].
    destruct (unbase64 d) as [lo|]; [|apply IH].
    destruct phase as [|[|[|phase]]]; rewrite IH; reflexivity.
Qed.

Lemma low_bytes_app (s1 s2 : list N) :
  low_bytes (s1 ++ s2) = low_bytes s1 +:+ low_bytes s2.
Proof.
  induction s1 as [|u s1 IH]; [reflexivity|].
  cbn [app low_bytes]. rewrite IH. reflexivity.
Qed.

Lemma base64_decode_after_padding (phase : nat) (hi : N) (s1 s2 : string) :
  base64_decode_from phase hi (s1 +:+ String "=" s2)
  = base64_decode_from phase hi s1.
Proof.
  revert phase hi. induction s1 as [|c s1 IH]; intros phase hi.
  - rewrite append_empty. reflexivity.
  - rewrite append_String. cbn [base64_decode_from].
    destruct (Ascii.eqb c "="); [reflexivity|].
    destruct (unbase64 c) as [lo|]; [|apply IH].
    destruct phase as [|[|[|phase]]]; rewrite IH; reflexivity.
Qed.

(** C9, as stated, fails in its reason.  The character U+0141 is not a
    character of base64 text, yet it is not skipped: the decoder reads
    its low byte, which is that of [A].  [AQ], U+0141, [ID] gives
    ["0x010008"], while [AQID] gives ["0x010203"]. *)
Lemma base64ToHex_skip_counterexample :
  is_base64_unit 321 = false /\
  low_byte 321 = "A"%char /\
  base64ToHex_utf16 [65; 81; 321; 73; 68] = "0x010008" /\
  base64ToHex_utf16 [65; 81; 73; 68] = "0x010203" /\
  ~ (forall (s1 : list N) (unit : N) (s2 : list N),
        is_base64_unit unit = false ->
        base64ToHex_utf16 (s1 ++ unit :: s2) = base64ToHex_utf16 (s1 ++ s2)).
Proof.
  repeat (split; [reflexivity|]).
  intros H. specialize (H [65; 81] 321 [73; 68] eq_refl).
  vm_compute in H. discriminate H.
Qed.

(** C9, amended.  On every text, well-formed base64 or not, [base64ToHex]
    returns ["0x"] followed by lowercase hexadecimal digits, two for each
    decoded byte (the limit of the platform on the length of a string
    is left out).  The decoder reads every code unit by its low byte: a
    code unit whose low byte is neither in the alphabet nor the padding
    character is skipped, so that removing it from the input does not
    change the result; a code unit whose low byte is the padding
    character ends the decoding; and two code units with the same low
    byte are decoded alike, so that a character above U+00FF whose low
    byte is in the alphabet is decoded as that character of the
    alphabet. *)
Theorem base64ToHex_total :
  (forall units : list N,
      exists digits : string,
        base64ToHex_utf16 units = "0x" +:+ digits /\
        string_forall is_lower_hex digits = true /\
        String.length digits
        = (2 * length (Buffer_from_base64_utf16 units))%nat) /\
  (forall (s1 : list N) (unit : N) (s2 : list N),
      unbase64 (low_byte unit) = None -> low_byte unit <> "="%char ->
      base64ToHex_utf16 (s1 ++ unit :: s2) = base64ToHex_utf16 (s1 ++ s2)) /\
  (forall (s1 : list N) (unit : N) (s2 : list N),
      low_byte unit = "="%char ->
      base64ToHex_utf16 (s1 ++ unit :: s2) = base64ToHex_utf16 s1) /\
  (forall (s1 : list N) (unit other : N) (s2 : list N),
      low_byte unit = low_byte other ->
      base64ToHex_utf16 (s1 ++ unit :: s2)
      = base64ToHex_utf16 (s1 ++ other :: s2)) /\
  (forall s : string, base64ToHex_utf16 (units_of s) = base64ToHex s).
Proof.
  split; [|split; [|split; [|split]]].
  - intros units.
    exists (Buffer_toString_hex (Buffer_from_base64_utf16 units)).
    split; [reflexivity|].
    split; [apply Buffer_toString_hex_lower | apply Buffer_toString_hex_length].
  - intros s1 u s2 Hc Hpad.
    unfold base64ToHex_utf16, Buffer_from_base64_utf16, Buffer_from_base64.
    rewrite !low_bytes_app. cbn [low_bytes].
    rewrite (base64_decode_skip _ _ _ _ _ Hc Hpad). reflexivity.
  - intros s1 u s2 Hpad.
    unfold base64ToHex_utf16, Buffer_from_base64_utf16, Buffer_from_base64.
    rewrite low_bytes_app. cbn [low_bytes]. rewrite Hpad.
    rewrite base64_decode_after_padding. reflexivity.
  - intros s1 u v s2 Heq.
    unfold base64ToHex_utf16, Buffer_from_base64_utf16.
    rewrite !low_bytes_app. cbn [low_bytes]. rewrite Heq. reflexivity.
  - apply base64ToHex_utf16_units_of.
Qed.

Lemma base64ToHex_total_witness :
  base64ToHex_utf16 [65; 81; 289; 73; 68; 47; 119; 61; 61]
  = base64ToHex_utf16 [65; 81; 73; 68; 47; 119; 61; 61] /\
  base64ToHex_utf16 [65; 81; 73; 68; 317; 47; 119] = base64ToHex_utf16 [65; 81; 73; 68] /\
  base64ToHex_utf16 [65; 81; 321; 73; 68] = base64ToHex_utf16 [65; 81; 65; 73; 68] /\
  base64ToHex_utf16 [65; 81; 289; 73; 68; 47; 119; 61; 61] = "0x010203ff".
Proof.
  destruct base64ToHex_total as (_ & Hskip & Hstop & Hlow & _).
  split; [|split; [|split]].
  - apply (Hskip [65; 81] 289 [73; 68; 47; 119; 61; 61]).
    + reflexivity.
    + discriminate.
  - apply (Hstop [65; 81; 73; 68] 317 [47; 119]). reflexivity.
  - apply (Hlow [65; 81] 321 65 [73; 68]). reflexivity.
  - reflexivity.
Defined.

(** *** The MPC client: single requests *)

Lemma run_bind {E : Type -> Type} {A B W : Type}
      (handle : forall X, E X -> W -> Completion X * W)
      (p : Prog E A) (f : A -> Prog E B) (w : W) :
  run handle (bind p f) w
  = match run handle p w with
    | (Normal a, w') => run handle (f a) w'
    | (Throw e, w') => (Throw e, w')
    end.
Proof.
  revert w. induction p as [a|e|X c k IH]; intros w; cbn [bind run].
  - reflexivity.
  - reflexivity.
  - destruct (handle X c w) as [[x|e] w']; [apply IH | reflexivity].
Qed.

Lemma truthy_get_property (v : JsVal) (key : string) :
  truthy v = true ->
  get_property v key = Normal (property_or_undefined v key).
Proof.
  unfold property_or_undefined.
  destruct v; cbn; try discriminate; intros _; try reflexivity.
  destruct (own_property props key); reflexivity.
Qed.

Lemma get_property_defined (v : JsVal) (key : string) :
  v <> JNull -> v <> JUndefined ->
  get_property v key = Normal (property_or_undefined v key).
Proof.
  unfold property_or_undefined.
  destruct v; cbn; try congruence.
  destruct (own_property props key); reflexivity.
Qed.

Section ClientFacts.

Variable node : Platform.
Variable this : MpcClient.

(** A transport error is the outcome of the operation. *)
Lemma outcome_transport_error (e : JsError) (id : string) :
  valid_urls node this id ->
  outcome (Throw e) (getLatestMpc node this) = Throw e /\
  outcome (Throw e) (getMpcSign node this id) = Throw e /\
  forall data, data <> JUndefined ->
               outcome (Throw e) (proposeMpcSign node this data) = Throw e.
Proof.
  intros ([u1 H1] & [u2 H2] & [u3 H3]).
  unfold outcome, getLatestMpc, getMpcSign, proposeMpcSign.
  rewrite H1, H2, H3.
  repeat split; try reflexivity.
  intros data Hd. destruct data; try reflexivity. congruence.
Qed.

Lemma getLatestMpc_outcome (body : string) (u : URL) :
  new_URL node "/mpc/latest" (url this) = Normal u ->
  outcome (Normal body) (getLatestMpc node this)
  = if is_empty body then Normal JNull
    else match js_eval node ("(" +:+ body +:+ ")") with
         | Throw e => Throw e
         | Normal obj => latest_of obj
         end.
Proof.
  intros Hu.
  unfold outcome, getLatestMpc, httpRequest, latest_of. rewrite Hu. cbn.
  destruct (is_empty body); [reflexivity|].
  rewrite run_bind.
  destruct (js_eval node _) as [obj|e]; cbn; [|reflexivity].
  rewrite run_bind.
  destruct (get_property obj "result") as [result|e]; cbn; [|reflexivity].
  destruct (truthy result) eqn:Hr; cbn; [|reflexivity].
  rewrite run_bind, (truthy_get_property _ _ Hr). cbn.
  destruct (truthy (property_or_undefined result "mpc_address")); reflexivity.
Qed.

Lemma proposeMpcSign_outcome (data : JsVal) (body : string) (u : URL) :
  new_URL node "/mpc/propose-mpc-sign" (url this) = Normal u ->
  data <> JUndefined ->
  outcome (Normal body) (proposeMpcSign node this data)
  = if is_empty body then Normal JNull
    else match js_eval node ("(" +:+ body +:+ ")") with
         | Throw e => Throw e
         | Normal obj => proposal_of obj
         end.
Proof.
  intros Hu Hd.
  assert (outcome (Normal body) (proposeMpcSign node this data)
          = if is_empty body then Normal JNull
            else fst (run (answering (Normal body))
                        (let* obj := complete (js_eval node ("(" +:+ body +:+ ")")) in
                         let* error := complete (get_property obj "error") in
                         if truthy error then Ret JNull else Ret obj)
                        [Requested
                           (if startsWith (toLowerCase (url this)) "https"
                            then https else http)
                           {| method := "POST";
                              hostname := URL_hostname u;
                              port := URL_port u;
                              path := URL_pathname u;
                              headers :=
                                [("Content-Type", HeaderText "application/json");
                                 ("Content-Length", ByteLengthOfJson data)] |}
                           (if truthy data then Some data else None);
                         Logged "info" "proposeMpcSign resp" body])) as ->.
  { unfold outcome, proposeMpcSign, httpRequest. rewrite Hu.
    destruct data; try congruence; cbn;
      destruct (is_empty body); reflexivity. }
  destruct (is_empty body); [reflexivity|].
  unfold proposal_of. rewrite run_bind.
  destruct (js_eval node _) as [obj|e]; cbn; [|reflexivity].
  rewrite run_bind.
  destruct (get_property obj "error") as [error|e]; cbn; [|reflexivity].
  destruct (truthy error); reflexivity.
Qed.

Lemma getMpcSign_outcome (id : string) (body : string) (u : URL) :
  new_URL node ("/mpc/sign/" +:+ id) (url this) = Normal u ->
  outcome (Normal body) (getMpcSign node this id)
  = if is_empty body then Normal (JStr EmptyString)
    else match js_eval node ("(" +:+ body +:+ ")") with
         | Throw e => Throw e
         | Normal obj => signature_of obj
         end.
Proof.
  intros Hu.
  unfold outcome, getMpcSign, httpRequest, signature_of. rewrite Hu. cbn.
  destruct (is_empty body); [reflexivity|].
  rewrite run_bind.
  destruct (js_eval node _) as [obj|e]; cbn; [|reflexivity].
  rewrite run_bind.
  destruct (get_property obj "error") as [error|e] eqn:He; cbn; [|reflexivity].
  destruct (truthy error); cbn; [reflexivity|].
  assert (get_property obj "result"
          = Normal (property_or_undefined obj "result")) as ->.
  { apply get_property_defined; intros ->; discriminate. }
  rewrite run_bind. cbn.
  destruct (truthy (property_or_undefined obj "result")) eqn:Hr; cbn;
    [|reflexivity].
  rewrite run_bind, (truthy_get_property _ _ Hr). cbn.
  destruct (truthy (property_or_undefined
                      (property_or_undefined obj "result") "signed_tx"));
    reflexivity.
Qed.

(** When the base is not a URL, nothing is requested. *)
Lemma invalid_url_outcome (reply : Completion string) (e : JsError) :
  new_URL node "/mpc/latest" (url this) = Throw e ->
  run (answering reply) (getLatestMpc node this) [] = (Throw e, []).
Proof. intros Hu. unfold getLatestMpc. rewrite Hu. reflexivity. Qed.

End ClientFacts.

Lemma local_platform_conforming : conforming local_platform.
Proof.
  intros src c H. unfold local_platform, js_eval, literal_engine.
  rewrite H. reflexivity.
Qed.

Lemma local_urls_valid : valid_urls local_platform local_client "7".
Proof. repeat split; eexists; reflexivity. Qed.

(** On the bodies below every conforming platform gives the same
    outcome as the engine of literal expressions. *)
Lemma conforming_outcomes (node : Platform) (this : MpcClient) (u : URL) :
  conforming node ->
  new_URL node "/mpc/latest" (url this) = Normal u ->
  outcome (Normal "undefined") (getLatestMpc node this) = Throw TypeError /\
  outcome (Normal "null") (getLatestMpc node this) = Throw TypeError /\
  outcome (Normal "}") (getLatestMpc node this) = Throw SyntaxError /\
  outcome (Normal "{result:{mpc_address:'0xabc'}}") (getLatestMpc node this)
  = Normal (JObj [("mpc_address", JStr "0xabc")]).
Proof.
  intros Hc Hu. rewrite !(getLatestMpc_outcome node this _ u Hu).
  cbv [String.append is_empty String.length Nat.eqb].
  repeat split.
  - rewrite (Hc "(undefined)" (Normal JUndefined) eq_refl). reflexivity.
  - rewrite (Hc "(null)" (Normal JNull) eq_refl). reflexivity.
  - rewrite (Hc "(})" (Throw SyntaxError) eq_refl). reflexivity.
  - rewrite (Hc "({result:{mpc_address:'0xabc'}})"
               (Normal (JObj [("result", JObj [("mpc_address", JStr "0xabc")])]))
               eq_refl).
    reflexivity.
Qed.

(** C1, as stated, fails.  The body [{result:{mpc_address:'0xabc'}}] is
    not JSON, yet [getLatestMpc] returns the object it describes; the
    bodies [undefined] and [}] are not JSON, and each of the three
    operations throws on them; so a body that is not JSON is not always
    treated as an absent result. *)
Lemma mpc_strict_json_counterexample :
  is_json "{result:{mpc_address:'0xabc'}}" = false /\
  outcome (Normal "{result:{mpc_address:'0xabc'}}")
          (getLatestMpc local_platform local_client)
  = Normal (JObj [("mpc_address", JStr "0xabc")]) /\
  is_json "undefined" = false /\
  outcome (Normal "undefined") (getLatestMpc local_platform local_client)
  = Throw TypeError /\
  outcome (Normal "undefined")
          (proposeMpcSign local_platform local_client (JObj []))
  = Throw TypeError /\
  outcome (Normal "undefined") (getMpcSign local_platform local_client "7")
  = Throw TypeError /\
  is_json "}" = false /\
  outcome (Normal "}") (getLatestMpc local_platform local_client)
  = Throw SyntaxError /\
  outcome (Normal "}") (proposeMpcSign local_platform local_client (JObj []))
  = Throw SyntaxError /\
  outcome (Normal "}") (getMpcSign local_platform local_client "7")
  = Throw SyntaxError /\
  ~ (forall body : string,
        is_json body = false ->
        absent (outcome (Normal body) (getLatestMpc local_platform local_client)) /\
        absent (outcome (Normal body)
                        (proposeMpcSign local_platform local_client (JObj []))) /\
        absent (outcome (Normal body)
                        (getMpcSign local_platform local_client "7"))).
Proof.
  repeat (split; [reflexivity|]).
  intros H. destruct (H "undefined" eq_refl) as [[A|A] _]; discriminate A.
Qed.

(** C1, amended.  Each operation treats the empty body as an absent
    result without evaluating anything; a body that is not empty is put
    between parentheses and evaluated by [eval] as a JavaScript
    expression, whether or not it is JSON: when the evaluation throws,
    the operation throws the same exception, and when it yields a value,
    the result of the operation is computed from that value.  (The
    request is made: the URLs are well-formed and the data to sign is
    not [undefined].) *)
Theorem mpc_response_evaluated :
  forall (node : Platform) (this : MpcClient)
         (id : string) (data : JsVal) (body : string),
    valid_urls node this id ->
    data <> JUndefined ->
    (is_empty body = true ->
     outcome (Normal body) (getLatestMpc node this) = Normal JNull /\
     outcome (Normal body) (proposeMpcSign node this data) = Normal JNull /\
     outcome (Normal body) (getMpcSign node this id)
     = Normal (JStr EmptyString)) /\
    (is_empty body = false ->
     forall e, js_eval node ("(" +:+ body +:+ ")") = Throw e ->
     outcome (Normal body) (getLatestMpc node this) = Throw e /\
     outcome (Normal body) (proposeMpcSign node this data) = Throw e /\
     outcome (Normal body) (getMpcSign node this id) = Throw e) /\
    (is_empty body = false ->
     forall obj, js_eval node ("(" +:+ body +:+ ")") = Normal obj ->
     outcome (Normal body) (getLatestMpc node this) = latest_of obj /\
     outcome (Normal body) (proposeMpcSign node this data) = proposal_of obj /\
     outcome (Normal body) (getMpcSign node this id) = signature_of obj).
Proof.
  intros node this id data body ([u1 H1] & [u2 H2] & [u3 H3]) Hd.
  rewrite (getLatestMpc_outcome _ _ _ _ H1),
    (proposeMpcSign_outcome _ _ _ _ _ H2 Hd),
    (getMpcSign_outcome _ _ _ _ _ H3).
  split; [|split].
  - intros He. rewrite He. auto.
  - intros He e Hx. rewrite He, Hx. auto.
  - intros He obj Hx. rewrite He, Hx. auto.
Qed.

Lemma mpc_response_evaluated_witness :
  (outcome (Normal EmptyString) (getLatestMpc local_platform local_client)
   = Normal JNull) /\
  (outcome (Normal "}") (getMpcSign local_platform local_client "7")
   = Throw SyntaxError) /\
  (outcome (Normal "{result:{signed_tx:'0x01'}}")
           (getMpcSign local_platform local_client "7")
   = Normal (JStr "0x01")).
Proof.
  pose proof (fun body =>
                mpc_response_evaluated local_platform local_client "7" JNull body
                  local_urls_valid ltac:(discriminate)) as H.
  split; [|split].
  - exact (proj1 (proj1 (H EmptyString) eq_refl)).
  - exact (proj2 (proj2 (proj1 (proj2 (H "}")) eq_refl SyntaxError eq_refl))).
  - exact (proj2 (proj2 (proj2 (proj2 (H "{result:{signed_tx:'0x01'}}")) eq_refl
                    (JObj [("result", JObj [("signed_tx", JStr "0x01")])])
                    eq_refl))).
Defined.

(** C5, as stated, fails.  The body [null] is well-formed JSON, and each
    of the three operations throws a [TypeError] on it; on the malformed
    body [}] each of them throws a [SyntaxError] instead of returning an
    absent value. *)
Lemma mpc_single_shot_counterexample :
  is_json "null" = true /\
  outcome (Normal "null") (getLatestMpc local_platform local_client)
  = Throw TypeError /\
  outcome (Normal "null") (proposeMpcSign local_platform local_client (JObj []))
  = Throw TypeError /\
  outcome (Normal "null") (getMpcSign local_platform local_client "7")
  = Throw TypeError /\
  outcome (Normal "}") (getLatestMpc local_platform local_client)
  = Throw SyntaxError /\
  ~ (forall body : string,
        exists v : JsVal,
          outcome (Normal body) (getMpcSign local_platform local_client "7")
          = Normal v).
Proof.
  repeat (split; [reflexivity|]).
  intros H. destruct (H "null") as [v Hv]. discriminate Hv.
Qed.

(** C5, amended.  On the empty body the three operations return [null],
    [null] and the empty string.  On a body whose evaluation does nothing
    but yield a plain data value [obj] other than [null] and [undefined]
    none of them throws: [getLatestMpc] returns [obj.result] when
    [obj.result] and [obj.result.mpc_address] are truthy and [null]
    otherwise; [proposeMpcSign] returns [obj] unless [obj.error] is truthy,
    in which case it returns [null]; [getMpcSign] returns
    [obj.result.signed_tx] when [obj.error] is falsy and [obj.result] and
    the signature are truthy, and the empty string otherwise.  On a body
    that evaluates to [null] or [undefined] each of them throws a
    [TypeError], and on a body whose evaluation throws, each of them
    throws that exception.  (The request is made: the URLs are
    well-formed and the data to sign is not [undefined].) *)
Theorem mpc_single_shot_results :
  forall (node : Platform) (this : MpcClient)
         (id : string) (data : JsVal) (body : string),
    valid_urls node this id ->
    data <> JUndefined ->
    (is_empty body = true ->
     outcome (Normal body) (getLatestMpc node this) = Normal JNull /\
     outcome (Normal body) (proposeMpcSign node this data) = Normal JNull /\
     outcome (Normal body) (getMpcSign node this id)
     = Normal (JStr EmptyString)) /\
    (is_empty body = false ->
     forall obj, js_eval node ("(" +:+ body +:+ ")") = Normal obj ->
     obj <> JNull -> obj <> JUndefined ->
     let result := property_or_undefined obj "result" in
     let error := property_or_undefined obj "error" in
     let mpc_address := property_or_undefined result "mpc_address" in
     let signed_tx := property_or_undefined result "signed_tx" in
     outcome (Normal body) (getLatestMpc node this)
     = (if truthy result && truthy mpc_address
        then Normal result else Normal JNull) /\
     outcome (Normal body) (proposeMpcSign node this data)
     = (if truthy error then Normal JNull else Normal obj) /\
     outcome (Normal body) (getMpcSign node this id)
     = (if truthy error then Normal (JStr EmptyString)
        else if truthy result && truthy signed_tx then Normal signed_tx
             else Normal (JStr EmptyString))) /\
    (is_empty body = false ->
     forall obj, js_eval node ("(" +:+ body +:+ ")") = Normal obj ->
     obj = JNull \/ obj = JUndefined ->
     outcome (Normal body) (getLatestMpc node this) = Throw TypeError /\
     outcome (Normal body) (proposeMpcSign node this data) = Throw TypeError /\
     outcome (Normal body) (getMpcSign node this id) = Throw TypeError) /\
    (is_empty body = false ->
     forall e, js_eval node ("(" +:+ body +:+ ")") = Throw e ->
     outcome (Normal body) (getLatestMpc node this) = Throw e /\
     outcome (Normal body) (proposeMpcSign node this data) = Throw e /\
     outcome (Normal body) (getMpcSign node this id) = Throw e).
Proof.
  intros node this id data body ([u1 H1] & [u2 H2] & [u3 H3]) Hd.
  rewrite (getLatestMpc_outcome _ _ _ _ H1),
    (proposeMpcSign_outcome _ _ _ _ _ H2 Hd),
    (getMpcSign_outcome _ _ _ _ _ H3).
  split; [|split; [|split]].
  - intros He. rewrite He. auto.
  - intros He obj Hx Hn Hu. rewrite He, Hx.
    unfold latest_of, proposal_of, signature_of.
    rewrite !(get_property_defined obj _ Hn Hu). auto.
  - intros He obj Hx [-> | ->]; rewrite He, Hx; auto.
  - intros He e Hx. rewrite He, Hx. auto.
Qed.

Lemma mpc_single_shot_results_witness :
  (outcome (Normal EmptyString)
           (proposeMpcSign local_platform local_client (JObj []))
   = Normal JNull) /\
  (outcome (Normal "{result:{mpc_address:'0xabc'}}")
           (getLatestMpc local_platform local_client)
   = Normal (JObj [("mpc_address", JStr "0xabc")])) /\
  (outcome (Normal "{error:'busy'}") (getMpcSign local_platform local_client "7")
   = Normal (JStr EmptyString)) /\
  (outcome (Normal "null") (getMpcSign local_platform local_client "7")
   = Throw TypeError) /\
  (outcome (Normal "]") (proposeMpcSign local_platform local_client (JObj []))
   = Throw SyntaxError).
Proof.
  pose proof (fun body =>
                mpc_single_shot_results local_platform local_client "7" (JObj [])
                  body local_urls_valid ltac:(discriminate)) as H.
  split; [|split; [|split; [|split]]].
  - exact (proj1 (proj2 (proj1 (H EmptyString) eq_refl))).
  - exact (proj1 (proj1 (proj2 (H "{result:{mpc_address:'0xabc'}}")) eq_refl
                    (JObj [("result", JObj [("mpc_address", JStr "0xabc")])])
                    eq_refl ltac:(discriminate) ltac:(discriminate))).
  - exact (proj2 (proj2 (proj1 (proj2 (H "{error:'busy'}")) eq_refl
                           (JObj [("error", JStr "busy")]) eq_refl
                           ltac:(discriminate) ltac:(discriminate)))).
  - exact (proj2 (proj2 (proj1 (proj2 (proj2 (H "null"))) eq_refl JNull eq_refl
                           (or_introl eq_refl)))).
  - exact (proj1 (proj2 (proj2 (proj2 (proj2 (H "]"))) eq_refl SyntaxError
                           eq_refl))).
Defined.

(** *** Transaction submission *)

(** The number of bits of a number. *)
Lemma size_bounds (n : N) :
  n < 2 ^ N.size n /\ (n <> 0 -> 2 ^ (N.size n - 1) <= n).
Proof.
  split; [apply N.size_gt|].
  intros Hn. rewrite N.size_log2 by exact Hn.
  replace (N.succ (N.log2 n) - 1) with (N.log2 n) by lia.
  apply N.log2_spec. lia.
Qed.

Lemma size_small (n : N) (k : N) : n < 2 ^ k -> N.size n <= k.
Proof.
  intros H. destruct (N.eq_dec n 0) as [->|Hn]; [cbn; lia|].
  rewrite N.size_log2 by exact Hn.
  apply N.le_succ_l. apply N.log2_lt_pow2; lia.
Qed.

(** An integer up to [2^53] is a double. *)
Lemma round_to_double_exact (n : N) :
  n <= 2 ^ 53 -> round_to_double n = n.
Proof.
  intros H. destruct (N.eq_dec n (2 ^ 53)) as [->|Hne]; [reflexivity|].
  unfold round_to_double.
  pose proof (size_small n 53 ltac:(lia)) as Hs.
  replace (N.size n - 53) with 0 by lia. reflexivity.
Qed.

(** The parts of a number above 2^53. *)
Lemma round_to_double_parts (n : N) :
  2 ^ 53 <= n ->
  let e := N.size n - 53 in
  exists kept dropped half,
    1 <= e /\ 2 ^ e = 2 * half /\ half = 2 ^ (e - 1) /\
    n = kept * 2 ^ e + dropped /\ dropped < 2 ^ e /\
    2 ^ 52 <= kept < 2 ^ 53 /\
    round_to_double n
    = if (half <? dropped) || ((dropped =? half) && N.odd kept)
      then (kept + 1) * 2 ^ e else kept * 2 ^ e.
Proof.
  intros Hn e.
  destruct (size_bounds n) as [Hlt Hge].
  specialize (Hge ltac:(lia)).
  assert (54 <= N.size n) as Hsize.
  { apply N.lt_succ_r. apply N.lt_succ_r.
    destruct (N.le_gt_cases (N.size n) 53) as [Hc|Hc]; [|lia].
    pose proof (N.pow_le_mono_r 2 (N.size n) 53 ltac:(lia) Hc). lia. }
  assert (N.size n = e + 53) as He by (unfold e; lia).
  assert (1 <= e) as He1 by lia.
  exists (N.shiftr n e), (N.land n (N.ones e)), (N.shiftl 1 (e - 1)).
  rewrite N.shiftl_1_l.
  assert (2 ^ e = 2 * 2 ^ (e - 1)) as Hpow.
  { replace e with (N.succ (e - 1)) at 1 by lia. apply N.pow_succ_r'. }
  rewrite N.land_ones, N.shiftr_div_pow2.
  pose proof (N.pow_nonzero 2 e ltac:(lia)) as Hnz.
  pose proof (N.div_mod n (2 ^ e) Hnz) as Hdm.
  pose proof (N.mod_lt n (2 ^ e) Hnz) as Hmod.
  split; [exact He1|]. split; [exact Hpow|]. split; [reflexivity|].
  split; [lia|]. split; [exact Hmod|]. split.
  - rewrite He in Hlt, Hge.
    replace (e + 53 - 1) with (52 + e) in Hge by lia.
    rewrite N.pow_add_r in Hlt, Hge.
    split.
    + apply (N.div_le_lower_bound n (2 ^ e) (2 ^ 52) Hnz). lia.
    + apply N.Div0.div_lt_upper_bound. lia.
  - unfold round_to_double. fold e.
    replace (e =? 0) with false by (symmetry; apply N.eqb_neq; lia).
    rewrite N.shiftl_1_l, N.land_ones, N.shiftr_div_pow2, !N.shiftl_mul_pow2.
    reflexivity.
Qed.

(** Above [2^53] the rounding gives the nearest double. *)
Lemma round_to_double_nearest (n : N) :
  2 ^ 53 <= n -> nearest_double n (round_to_double n).
Proof.
  intros Hn. unfold nearest_double.
  destruct (round_to_double_parts n Hn)
    as (kept & dropped & half & He & Hpow & Hhalf & Hparts & Hd & Hk & Hr).
  cbv zeta in *. set (e := N.size n - 53) in *. rewrite Hr.
  set (unit := 2 ^ e) in *.
  destruct ((half <? dropped) || ((dropped =? half) && N.odd kept)) eqn:Hup.
  - exists (kept + 1).
    apply orb_true_iff in Hup.
    split; [reflexivity|]. split; [lia|].
    destruct Hup as [Hup|Hup].
    + apply N.ltb_lt in Hup. repeat split; lia.
    + apply andb_true_iff in Hup. destruct Hup as [Hup Hodd].
      apply N.eqb_eq in Hup. repeat split; try lia.
      intros _. rewrite N.add_1_r, N.even_succ. exact Hodd.
  - exists kept.
    apply orb_false_iff in Hup. destruct Hup as [Hup Htie].
    apply N.ltb_ge in Hup.
    split; [reflexivity|]. split; [lia|]. repeat split; try lia.
    intros [H|H]; [lia|].
    assert (dropped = half) as Heq by lia.
    rewrite Heq, N.eqb_refl in Htie. cbn in Htie.
    rewrite <- N.negb_odd, Htie. reflexivity.
Qed.

Lemma pow_1024_parts :
  2 ^ 1024 = 2 ^ 53 * 2 ^ 971 /\ 2 ^ 971 = 2 * 2 ^ 970 /\
  2 ^ 1023 = 2 ^ 52 * 2 ^ 971.
Proof. repeat split; rewrite <- ?N.pow_add_r; reflexivity. Qed.

(** The rounding reaches [2^1024] from [2^1024 - 2^970] on. *)
Lemma round_to_double_overflow (n : N) :
  2 ^ 1024 <= round_to_double n <-> 2 ^ 1024 - 2 ^ 970 <= n.
Proof.
  destruct pow_1024_parts as (H1024 & H971 & H1023).
  destruct (N.le_gt_cases n (2 ^ 53)) as [Hsmall|Hbig].
  { rewrite (round_to_double_exact n Hsmall).
    assert (2 ^ 53 < 2 ^ 1024 - 2 ^ 970).
    { apply N.ltb_lt. vm_compute. reflexivity. }
    assert (2 ^ 53 < 2 ^ 1024).
    { apply N.ltb_lt. vm_compute. reflexivity. }
    lia. }
  destruct (round_to_double_parts n ltac:(lia))
    as (kept & dropped & half & He & Hpow & Hhalf & Hparts & Hd & Hk & Hr).
  destruct (size_bounds n) as [Hlt Hge]. specialize (Hge ltac:(lia)).
  set (e := N.size n - 53) in *.
  assert (N.size n = e + 53) as Hsize by (unfold e; lia).
  rewrite Hsize in Hlt, Hge.
  replace (e + 53 - 1) with (52 + e) in Hge by lia.
  rewrite (N.add_comm e 53), N.pow_add_r in Hlt. rewrite N.pow_add_r in Hge.
  rewrite Hr. clear Hr.
  destruct (N.lt_trichotomy e 971) as [Hlow|[Heq|Hhigh]].
  - (* the result stays below 2^1023 *)
    assert (2 ^ e <= 2 ^ 970) as Hp by (apply N.pow_le_mono_r; lia).
    assert ((kept + 1) * 2 ^ e <= 2 ^ 53 * 2 ^ 970) as Hup
        by (apply N.mul_le_mono; lia).
    assert (kept * 2 ^ e <= (kept + 1) * 2 ^ e) as Hdown by lia.
    assert (2 ^ 53 * 2 ^ e <= 2 ^ 53 * 2 ^ 970) as Hn
        by (apply N.mul_le_mono_l; exact Hp).
    set (P := 2 ^ 970) in *. set (Q := 2 ^ 971) in *.
    set (A := 2 ^ 53) in *. set (B := 2 ^ 52) in *.
    assert (0 < P) by (apply N.ltb_lt; vm_compute; reflexivity).
    destruct ((half <? dropped) || ((dropped =? half) && N.odd kept));
      split; intros H'; nia.
  - rewrite Heq in *. clear Heq.
    assert (half = 2 ^ 970) as Hh by lia.
    destruct ((half <? dropped) || ((dropped =? half) && N.odd kept)) eqn:Hup.
    + assert (half <= dropped) as Hd'.
      { apply orb_true_iff in Hup. destruct Hup as [Hup|Hup].
        - apply N.ltb_lt in Hup. lia.
        - apply andb_true_iff in Hup. destruct Hup as [Hup _].
          apply N.eqb_eq in Hup. lia. }
      assert (2 ^ 53 = 2 * 2 ^ 52) as H53 by reflexivity.
      set (P := 2 ^ 970) in *. set (Q := 2 ^ 971) in *.
      set (A := 2 ^ 53) in *. set (B := 2 ^ 52) in *.
      assert (0 < P) by (apply N.ltb_lt; vm_compute; reflexivity).
      split; intros H'; nia.
    + apply orb_false_iff in Hup. destruct Hup as [Hup1 Hup2].
      apply N.ltb_ge in Hup1.
      assert (2 ^ 53 = 2 * 2 ^ 52) as H53 by reflexivity.
      split; intros H'.
      * set (P := 2 ^ 970) in *. set (Q := 2 ^ 971) in *.
        set (A := 2 ^ 53) in *. set (B := 2 ^ 52) in *.
        assert (0 < P) by (apply N.ltb_lt; vm_compute; reflexivity).
        nia.
      * exfalso.
        assert (kept = 2 ^ 53 - 1 /\ dropped = half) as [Hk' Hd'].
        { set (P := 2 ^ 970) in *. set (Q := 2 ^ 971) in *.
          set (A := 2 ^ 53) in *. set (B := 2 ^ 52) in *.
          assert (0 < P) by (apply N.ltb_lt; vm_compute; reflexivity).
          assert (A - 1 <= kept) by nia.
          assert (kept = A - 1) by lia.
          split; [assumption | nia]. }
        rewrite Hd', N.eqb_refl, Hk' in Hup2. vm_compute in Hup2.
        discriminate Hup2.
  - assert (2 ^ 972 <= 2 ^ e) as Hp by (apply N.pow_le_mono_r; lia).
    assert (2 ^ 972 = 2 * 2 ^ 971) as H972.
    { change 972 with (N.succ 971). apply N.pow_succ_r'. }
    assert (2 ^ 52 * 2 ^ 972 <= kept * 2 ^ e) as Hdown
        by (apply N.mul_le_mono; lia).
    assert (2 ^ 53 = 2 * 2 ^ 52) as H53 by reflexivity.
    set (P := 2 ^ 970) in *. set (Q := 2 ^ 971) in *. set (R := 2 ^ 972) in *.
    set (A := 2 ^ 53) in *. set (B := 2 ^ 52) in *.
    assert (0 < P) by (apply N.ltb_lt; vm_compute; reflexivity).
    assert (0 < B) by (apply N.ltb_lt; vm_compute; reflexivity).
    destruct ((half <? dropped) || ((dropped =? half) && N.odd kept));
      split; intros H'; nia.
Qed.

Lemma Number_of_integer_exact (n : N) :
  n <= 2 ^ 53 -> Number_of_integer n = Finite n.
Proof.
  intros H. unfold Number_of_integer. rewrite (round_to_double_exact n H).
  assert (2 ^ 53 < 2 ^ 1024) by (apply N.ltb_lt; vm_compute; reflexivity).
  replace (n <? 2 ^ 1024) with true; [reflexivity|].
  symmetry. apply N.ltb_lt. lia.
Qed.

Lemma Number_of_integer_finite (n : N) :
  n < 2 ^ 1024 - 2 ^ 970 ->
  Number_of_integer n = Finite (round_to_double n).
Proof.
  intros H. unfold Number_of_integer.
  replace (round_to_double n <? 2 ^ 1024) with true; [reflexivity|].
  symmetry. apply N.ltb_lt.
  pose proof (round_to_double_overflow n) as [Hover _]. lia.
Qed.

(** Between [2^53] and the overflow the number is the nearest double. *)
Lemma Number_of_integer_near (n : N) :
  2 ^ 53 <= n -> n < 2 ^ 1024 - 2 ^ 970 ->
  exists d, Number_of_integer n = Finite d /\ nearest_double n d.
Proof.
  intros Hbig Hfinite. exists (round_to_double n).
  split; [apply Number_of_integer_finite; exact Hfinite|].
  apply round_to_double_nearest. exact Hbig.
Qed.

Lemma Number_of_integer_infinite (n : N) :
  2 ^ 1024 - 2 ^ 970 <= n -> Number_of_integer n = Infinity.
Proof.
  intros H. unfold Number_of_integer.
  replace (round_to_double n <? 2 ^ 1024) with false; [reflexivity|].
  symmetry. apply N.ltb_ge. apply round_to_double_overflow. exact H.
Qed.

(** C2, as stated, fails.  With a configured floor of 50 gwei and a
    network gas price of 20 gwei, both modes start the engine at 20 gwei:
    the configured floor is not used. *)
Lemma starting_gas_price_counterexample :
  minGasPriceInGwei example_config = 50 /\
  starting_gas_prices
    (snd (run (on_submit example_env)
              (submitTransactionWithYNATM gwei example_tx example_signer
                 example_config 1 default_hooks) []))
  = [gwei (Finite 20)] /\
  starting_gas_prices
    (snd (run (on_submit example_env)
              (submitSignedTransactionWithYNATM gwei example_tx tt
                 example_signer example_config 1 default_hooks) []))
  = [gwei (Finite 20)] /\
  gwei (Finite 20) <> gwei (Finite (minGasPriceInGwei example_config)).
Proof. repeat split; try reflexivity. discriminate. Qed.

(** C2, amended.  In both modes the starting gas price of the engine is
    the network's current gas price, rounded down to whole gwei and read
    as a JavaScript number, whatever [minGasPriceInGwei] is configured:
    the configuration contributes the maximum, the increment and the
    delay only.  The number is exact for a price of at most [2^53] gwei;
    above, it is the double nearest to the whole gwei (a tie going to
    the even significand), and [Infinity] from [2^1024 - 2^970] gwei
    on. *)
Theorem starting_gas_price_is_network_price :
  forall (SignFunction : Type)
         (ynatm_toGwei ynatmAsync_toGwei : JsNumber -> JsNumber)
         (env : Chain_env SignFunction) (tx : PopulatedTransaction)
         (sign : SignFunction) (signer : Signer) (config : ResubmissionConfig)
         (numConfirmations : N) (hooks : TxSubmissionHooks) (wei : N),
    network_gas_price env signer = Normal wei ->
    starting_gas_prices
      (snd (run (on_submit env)
                (submitTransactionWithYNATM ynatm_toGwei tx signer config
                   numConfirmations hooks) []))
    = [ynatm_toGwei (Number_of_integer (wei / 1000000000))] /\
    starting_gas_prices
      (snd (run (on_submit env)
                (submitSignedTransactionWithYNATM ynatmAsync_toGwei tx sign
                   signer config numConfirmations hooks) []))
    = [ynatmAsync_toGwei (Number_of_integer (wei / 1000000000))] /\
    (wei / 1000000000 <= 2 ^ 53 ->
     Number_of_integer (wei / 1000000000) = Finite (wei / 1000000000)) /\
    (2 ^ 53 <= wei / 1000000000 -> wei / 1000000000 < 2 ^ 1024 - 2 ^ 970 ->
     exists d,
       Number_of_integer (wei / 1000000000) = Finite d /\
       nearest_double (wei / 1000000000) d) /\
    (2 ^ 1024 - 2 ^ 970 <= wei / 1000000000 ->
     Number_of_integer (wei / 1000000000) = Infinity) /\
    forall floor : N,
      let config' :=
        {| resubmissionTimeout := resubmissionTimeout config;
           minGasPriceInGwei := floor;
           maxGasPriceInGwei := maxGasPriceInGwei config;
           gasRetryIncrement := gasRetryIncrement config |} in
      submitTransactionWithYNATM (SignFunction := SignFunction) ynatm_toGwei
        tx signer config' numConfirmations hooks
      = submitTransactionWithYNATM ynatm_toGwei tx signer config
          numConfirmations hooks /\
      submitSignedTransactionWithYNATM ynatmAsync_toGwei tx sign signer config'
        numConfirmations hooks
      = submitSignedTransactionWithYNATM ynatmAsync_toGwei tx sign signer config
          numConfirmations hooks.
Proof.
  intros S g1 g2 env tx sign signer config n hooks wei Hwei.
  split; [|split; [|split; [|split; [|split]]]].
  - cbn. rewrite Hwei. cbn.
    destruct (ynatm_returns env _); reflexivity.
  - cbn. rewrite Hwei. cbn.
    destruct (ynatmAsync_returns env _); reflexivity.
  - apply Number_of_integer_exact.
  - apply Number_of_integer_near.
  - apply Number_of_integer_infinite.
  - intros floor. split; reflexivity.
Qed.

Lemma starting_gas_price_is_network_price_witness :
  starting_gas_prices
    (snd (run (on_submit example_env)
              (submitTransactionWithYNATM gwei example_tx example_signer
                 example_config 1 default_hooks) []))
  = [gwei (Finite 20)] /\
  starting_gas_prices
    (snd (run (on_submit precise_env)
              (submitSignedTransactionWithYNATM gwei example_tx tt
                 example_signer example_config 1 default_hooks) []))
  = [gwei (Finite 9007199254740992)].
Proof.
  split.
  - exact (proj1 (starting_gas_price_is_network_price unit gwei gwei
                    example_env example_tx tt example_signer example_config 1
                    default_hooks 20000000000 eq_refl)).
  - exact (proj1 (proj2 (starting_gas_price_is_network_price unit gwei gwei
                           precise_env example_tx tt example_signer
                           example_config 1 default_hooks
                           9007199254740993000000000 eq_refl))).
Defined.

(** C10.  In pre-signed mode the hook [beforeSendTransaction] is called
    with the transaction as the caller gave it, no gas price being set on
    it, and what is then sent is the signed payload; in sign-per-attempt
    mode the hook is called with the transaction on which the gas price
    of the round has been set, which is also the transaction that is
    sent. *)
Theorem beforeSendTransaction_argument :
  forall (SignFunction : Type) (env : Chain_env SignFunction)
         (tx : PopulatedTransaction) (signer : Signer) (numConfirmations : N)
         (signedTx : string) (gasPrice : N),
    (exists rest,
        snd (run (on_chain env)
                 (sendSignedTxAndWaitForReceipt tx signer numConfirmations
                    reporting_hooks signedTx) [])
        = Called (Notify_beforeSend tx)
            :: Called (Provider_sendTransaction (provider signer) signedTx)
            :: rest) /\
    (exists rest,
        snd (run (on_chain env)
                 (sendTxAndWaitForReceipt tx signer numConfirmations
                    reporting_hooks gasPrice) [])
        = Called (Notify_beforeSend (<["gasPrice" := JNum gasPrice]> tx))
            :: Called (Signer_sendTransaction signer
                         (<["gasPrice" := JNum gasPrice]> tx))
            :: rest) /\
    (<["gasPrice" := JNum gasPrice]> tx : PopulatedTransaction) !! "gasPrice"
    = Some (JNum gasPrice) /\
    (forall key : string,
        key <> "gasPrice" ->
        (<["gasPrice" := JNum gasPrice]> tx : PopulatedTransaction) !! key
        = tx !! key) /\
    (forall hooks : TxSubmissionHooks,
        sendSignedTxAndWaitForReceipt tx signer numConfirmations hooks signedTx
        = bind (beforeSendTransaction hooks tx)
               (fun _ =>
                  sendSignedTxAndWaitForReceipt tx signer numConfirmations
                    {| beforeSendTransaction := fun _ => Ret tt;
                       onTransactionResponse := onTransactionResponse hooks |}
                    signedTx)).
Proof.
  intros S env tx signer n signedTx gasPrice.
  split; [|split; [|split; [|split]]].
  - cbn. destruct (provider_sends env _ _) as [r|e]; cbn; [|eauto].
    destruct (provider_waits env _ _ _); cbn; eauto.
  - cbn. destruct (signer_sends env _ _) as [r|e]; cbn; [|eauto].
    destruct (provider_waits env _ _ _); cbn; eauto.
  - apply lookup_insert_eq.
  - intros key Hk. apply lookup_insert_ne. congruence.
  - intros hooks. reflexivity.
Qed.

Lemma beforeSendTransaction_argument_witness :
  (<["gasPrice" := JNum 7]> example_tx : PopulatedTransaction) !! "to"
  = example_tx !! "to".
Proof.
  exact (proj1 (proj2 (proj2 (proj2
           (beforeSendTransaction_argument unit example_env example_tx
              example_signer 1 "0xf86b" 7))))
           "to" ltac:(discriminate)).
Defined.

(** C8.  [submitTransaction] and [submitSignedTransaction] call the
    corresponding resubmitter function with the signer, the configuration
    and the number of confirmations fixed at construction, unchanged, and
    with the caller's hooks; when the caller gives no hooks they pass
    hooks that do nothing: the engine is then started with the maximum,
    the increment and the delay of the configuration, and a send function
    that uses the signer and the number of confirmations and makes no
    other call. *)
Theorem submitter_delegates :
  forall (SignFunction : Type) (ynatm_toGwei ynatmAsync_toGwei : JsNumber -> JsNumber)
         (this : YnatmTransactionSubmitter) (tx : PopulatedTransaction)
         (sign : SignFunction),
    (forall hooks,
        submitTransaction (SignFunction := SignFunction) ynatm_toGwei this tx
          (Some hooks)
        = submitTransactionWithYNATM ynatm_toGwei tx (signer this)
            (ynatmConfig this) (numConfirmations this) hooks) /\
    (forall hooks,
        submitSignedTransaction ynatmAsync_toGwei this tx sign (Some hooks)
        = submitSignedTransactionWithYNATM ynatmAsync_toGwei tx sign
            (signer this) (ynatmConfig this) (numConfirmations this) hooks) /\
    submitTransaction (SignFunction := SignFunction) ynatm_toGwei this tx None
    = submitTransactionWithYNATM ynatm_toGwei tx (signer this)
        (ynatmConfig this) (numConfirmations this) default_hooks /\
    submitSignedTransaction ynatmAsync_toGwei this tx sign None
    = submitSignedTransactionWithYNATM ynatmAsync_toGwei tx sign
        (signer this) (ynatmConfig this) (numConfirmations this) default_hooks /\
    (forall (env : Chain_env SignFunction) log txResponse,
        run (on_chain env) (beforeSendTransaction default_hooks tx) log
        = (Normal tt, log) /\
        run (on_chain env) (onTransactionResponse default_hooks txResponse) log
        = (Normal tt, log)) /\
    (forall (env : Chain_env SignFunction) (wei : N),
        network_gas_price env (signer this) = Normal wei ->
        snd (run (on_submit env) (submitTransaction ynatm_toGwei this tx None) [])
        = [Submitted (Chain (Signer_getGasPrice (signer this)));
           Submitted (Ynatm_send {|
             sendTransactionFunction :=
               sendTxAndWaitForReceipt tx (signer this) (numConfirmations this)
                 default_hooks;
             send_minGasPrice :=
               ynatm_toGwei (Number_of_integer (wei / 1000000000));
             send_maxGasPrice :=
               ynatm_toGwei (Finite (maxGasPriceInGwei (ynatmConfig this)));
             send_gasPriceScalingFunction :=
               LINEAR (gasRetryIncrement (ynatmConfig this));
             send_delay := resubmissionTimeout (ynatmConfig this) |})] /\
        snd (run (on_submit env)
                 (submitSignedTransaction ynatmAsync_toGwei this tx sign None) [])
        = [Submitted (Chain (Signer_getGasPrice (signer this)));
           Submitted (YnatmAsync_sendAfterSign {|
             sendSignedTransactionFunction :=
               sendSignedTxAndWaitForReceipt tx (signer this)
                 (numConfirmations this) default_hooks;
             signFunction := sign;
             sign_minGasPrice :=
               ynatmAsync_toGwei (Number_of_integer (wei / 1000000000));
             sign_maxGasPrice :=
               ynatmAsync_toGwei
                 (Finite (maxGasPriceInGwei (ynatmConfig this)));
             sign_gasPriceScalingFunction :=
               LINEAR (gasRetryIncrement (ynatmConfig this));
             sign_delay := resubmissionTimeout (ynatmConfig this) |})]) /\
    (forall (env : Chain_env SignFunction) (gasPrice : N) (signedTx : string)
            (txResponse : TransactionResponse),
        signer_sends env (signer this) (<["gasPrice" := JNum gasPrice]> tx)
        = Normal txResponse ->
        provider_sends env (provider (signer this)) signedTx
        = Normal txResponse ->
        snd (run (on_chain env)
                 (sendTxAndWaitForReceipt tx (signer this)
                    (numConfirmations this) default_hooks gasPrice) [])
        = [Called (Signer_sendTransaction (signer this)
                     (<["gasPrice" := JNum gasPrice]> tx));
           Called (Provider_waitForTransaction (provider (signer this))
                     (hash txResponse) (numConfirmations this))] /\
        snd (run (on_chain env)
                 (sendSignedTxAndWaitForReceipt tx (signer this)
                    (numConfirmations this) default_hooks signedTx) [])
        = [Called (Provider_sendTransaction (provider (signer this)) signedTx);
           Called (Provider_waitForTransaction (provider (signer this))
                     (hash txResponse) (numConfirmations this))]).
Proof.
  intros S g1 g2 this tx sign.
  repeat (split; [reflexivity || (intros; reflexivity)|]).
  split; [|split].
  - intros env log r. split; reflexivity.
  - intros env wei Hwei. split.
    + cbn. rewrite Hwei. cbn. destruct (ynatm_returns env _); reflexivity.
    + cbn. rewrite Hwei. cbn. destruct (ynatmAsync_returns env _); reflexivity.
  - intros env gasPrice signedTx r H1 H2. split.
    + cbn. rewrite H1. cbn. destruct (provider_waits env _ _ _); reflexivity.
    + cbn. rewrite H2. cbn. destruct (provider_waits env _ _ _); reflexivity.
Qed.

Lemma submitter_delegates_witness :
  snd (run (on_submit example_env)
           (submitTransaction gwei
              {| signer := example_signer; ynatmConfig := example_config;
                 numConfirmations := 1 |}
              example_tx None) [])
  = [Submitted (Chain (Signer_getGasPrice example_signer));
     Submitted (Ynatm_send {|
       sendTransactionFunction :=
         sendTxAndWaitForReceipt example_tx example_signer 1 default_hooks;
       send_minGasPrice := gwei (Finite 20);
       send_maxGasPrice := gwei (Finite 500);
       send_gasPriceScalingFunction := LINEAR 5;
       send_delay := 60000 |})] /\
  snd (run (on_chain example_env)
           (sendSignedTxAndWaitForReceipt example_tx example_signer 1
              default_hooks "0xf86b") [])
  = [Called (Provider_sendTransaction example_provider "0xf86b");
     Called (Provider_waitForTransaction example_provider "0x01" 1)].
Proof.
  pose proof (submitter_delegates unit gwei gwei
                {| signer := example_signer; ynatmConfig := example_config;
                   numConfirmations := 1 |}
                example_tx tt) as H.
  destruct H as (_ & _ & _ & _ & _ & Hengine & Hsend).
  split.
  - exact (proj1 (Hengine example_env 20000000000 eq_refl)).
  - exact (proj2 (Hsend example_env 7 "0xf86b" {| hash := "0x01"; nonce := 0 |}
                    eq_refl eq_refl)).
Defined.

(** *** The MPC client: waiting for a signature *)

Section PollingFacts.

Variable node : Platform.
Variable this : MpcClient.
Variables (id : string) (maxTimeout interval : Z).
Variable startTime : Z.
Variable service : nat -> Poll.

Local Abbreviation delay' := (delay interval).
Local Abbreviation tick_time' := (tick_time interval startTime).
Local Abbreviation done_at' := (done_at interval startTime service).
Local Abbreviation completion_of' := (completion_of node this id service).
Local Abbreviation decisive' :=
  (decisive node this id maxTimeout interval startTime service).
Local Abbreviation step' :=
  (step node this id maxTimeout interval startTime service).
Local Abbreviation run_loop' :=
  (run_loop node this id maxTimeout interval startTime service).
Local Abbreviation on_completion' := (on_completion maxTimeout startTime).
Local Abbreviation waiting' := (waiting interval startTime).
Local Abbreviation finished' :=
  (finished node this id interval startTime service).

Lemma delay_positive : (1 <= delay')%Z.
Proof.
  unfold delay.
  destruct (interval <? 1)%Z eqn:E1; cbn; [lia|].
  destruct (2147483647 <? interval)%Z; [lia|].
  apply Z.ltb_ge in E1. lia.
Qed.

Lemma tick_time_succ (k : nat) :
  tick_time' (S k) = (tick_time' k + delay')%Z.
Proof. unfold tick_time. rewrite Nat2Z.inj_succ. lia. Qed.

Lemma issued_waiting (k : nat) :
  length (map tick_time' (seq 1 k)) = k.
Proof. rewrite length_map, length_seq. reflexivity. Qed.

Lemma issued_next (k : nat) :
  map tick_time' (seq 1 k) ++ [tick_time' (S k)] = map tick_time' (seq 1 (S k)).
Proof. rewrite seq_S, map_app. reflexivity. Qed.

(** One round, when the poll completes before the next tick. *)
Lemma round (k : nat) :
  (Z.of_N (latency (service (S k))) < delay')%Z ->
  run_loop' 2 (waiting' k)
  = if decisive' (S k) then finished' (S k) else waiting' (S k).
Proof.
  intros Hlat.
  assert (step' (waiting' k)
          = Some {| timer := true;
                    issued := map tick_time' (seq 1 (S k));
                    inflight := [(done_at' (S k), completion_of' (S k))];
                    settled := None |}) as Htick.
  { unfold step, on_tick. cbn [inflight timer issued settled waiting'
                                         waiting take_earliest].
    rewrite issued_waiting, issued_next. reflexivity. }
  cbn [run_loop]. rewrite Htick.
  unfold step.
  cbn [inflight timer issued settled take_earliest andb].
  rewrite issued_waiting.
  assert ((tick_time' (S (S k)) <? done_at' (S k))%Z = false) as ->.
  { apply Z.ltb_ge. unfold done_at.
    rewrite (tick_time_succ (S k)). lia. }
  unfold decisive, on_completion,
    finished, waiting.
  cbn [inflight timer issued settled].
  destruct (completion_of' (S k)) as [signedTx|e]; [|reflexivity].
  destruct (truthy signedTx || (maxTimeout <=? done_at' (S k) - startTime)%Z);
    reflexivity.
Qed.

Lemma finished_stays (k fuel : nat) : run_loop' fuel (finished' k) = finished' k.
Proof. destruct fuel; reflexivity. Qed.

Lemma run_loop_add (a b : nat) (st : Loop) :
  run_loop' (a + b) st = run_loop' b (run_loop' a st).
Proof.
  revert st. induction a as [|a IH]; intros st; [reflexivity|].
  cbn [Nat.add run_loop].
  destruct (step' st) as [st'|] eqn:E; [apply IH|].
  destruct b; cbn [run_loop]; rewrite ?E; reflexivity.
Qed.

Lemma round_then (k n : nat) :
  (Z.of_N (latency (service (S k))) < delay')%Z ->
  run_loop' (2 + n) (waiting' k)
  = run_loop' n (if decisive' (S k) then finished' (S k) else waiting' (S k)).
Proof. intros Hlat. rewrite run_loop_add, (round k Hlat). reflexivity. Qed.

(** When every poll completes before the next tick and the [n]-th poll
    after [k] is the first one to end the wait, the loop stops after
    that poll, with its completion. *)
Lemma sequential_polling (n k extra : nat) :
  (forall j, (k < j <= k + S n)%nat ->
             (Z.of_N (latency (service j)) < delay')%Z) ->
  (forall j, (k < j < k + S n)%nat -> decisive' j = false) ->
  decisive' (k + S n) = true ->
  run_loop' (2 * S n + extra) (waiting' k) = finished' (k + S n).
Proof.
  revert k. induction n as [|n IH]; intros k Hlat Hnot Hdec.
  - replace (k + 1)%nat with (S k) in * by lia.
    change (2 * 1 + extra)%nat with (2 + extra)%nat.
    rewrite round_then by (apply Hlat; lia).
    rewrite Hdec. apply finished_stays.
  - replace (2 * S (S n) + extra)%nat with (2 + (2 * S n + extra))%nat by lia.
    rewrite round_then by (apply Hlat; lia).
    rewrite (Hnot (S k)) by lia.
    replace (k + S (S n))%nat with (S k + S n)%nat in * by lia.
    apply IH.
    + intros j Hj. apply Hlat. lia.
    + intros j Hj. apply Hnot. lia.
    + exact Hdec.
Qed.

(** Once the timer is cleared no poll is issued any more. *)
Lemma cleared_timer_stays (fuel : nat) (st : Loop) :
  timer st = false ->
  timer (run_loop' fuel st) = false /\
  issued (run_loop' fuel st) = issued st.
Proof.
  revert st. induction fuel as [|fuel IH]; intros st Hoff; [auto|].
  cbn [run_loop]. unfold step. rewrite Hoff. cbn [andb].
  destruct (take_earliest (inflight st)) as [[[t c] others]|]; [|auto].
  assert (timer (on_completion' st t c others) = false /\
          issued (on_completion' st t c others) = issued st) as [H1 H2].
  { unfold on_completion. destruct c as [v|e]; [|auto].
    destruct (truthy v || (maxTimeout <=? t - startTime)%Z); auto. }
  destruct (IH _ H1) as [H3 H4]. rewrite H3, H4, H2. auto.
Qed.

(** A settled promise keeps its state. *)
Lemma settled_stays (fuel : nat) (st : Loop) (result : Z * Completion JsVal) :
  settled st = Some result ->
  settled (run_loop' fuel st) = Some result.
Proof.
  revert st. induction fuel as [|fuel IH]; intros st Hs; [exact Hs|].
  cbn [run_loop]. unfold step.
  assert (settled (on_tick node this id interval startTime service st)
          = Some result) as Htick by exact Hs.
  assert (forall t c others,
             settled (on_completion' st t c others) = Some result) as Hdone.
  { intros t c others. unfold on_completion. destruct c as [v|e].
    - destruct (truthy v || (maxTimeout <=? t - startTime)%Z);
        cbn [settled]; rewrite Hs; reflexivity.
    - cbn [settled]. rewrite Hs. reflexivity. }
  destruct (take_earliest (inflight st)) as [[[t c] others]|].
  - destruct (timer st && (tick_time' (S (length (issued st))) <? t)%Z);
      apply IH; auto.
  - destruct (timer st); [apply IH; auto | exact Hs].
Qed.

End PollingFacts.

Lemma first_true (P : nat -> bool) (m : nat) :
  (1 <= m)%nat -> P m = true ->
  exists n, (1 <= n <= m)%nat /\ P n = true /\
            forall j, (1 <= j < n)%nat -> P j = false.
Proof.
  intros Hm HP.
  assert ((forall j, (1 <= j <= m)%nat -> P j = false) \/
          (exists n, (1 <= n <= m)%nat /\ P n = true /\
                     forall j, (1 <= j < n)%nat -> P j = false)) as [H|H].
  { clear. induction m as [|m [IH|IH]].
    - left. intros j Hj. lia.
    - destruct (P (S m)) eqn:E.
      + right. exists (S m). repeat split; try lia; auto.
        intros j Hj. apply IH. lia.
      + left. intros j Hj.
        destruct (Nat.eq_dec j (S m)) as [->|Hne]; [exact E | apply IH; lia].
    - right. destruct IH as (n & Hn & Hp & Hfirst).
      exists n. repeat split; auto; lia. }
  - rewrite (H m) in HP by lia. discriminate.
  - exact H.
Qed.

Lemma decisive_empty (node : Platform) (this : MpcClient)
      (id : string) (maxTimeout interval startTime : Z) (service : nat -> Poll)
      (k : nat) :
  completion_of node this id service k = Normal (JStr EmptyString) ->
  decisive node this id maxTimeout interval startTime service k
  = (maxTimeout <=? done_at interval startTime service k - startTime)%Z.
Proof. intros H. unfold decisive. rewrite H. reflexivity. Qed.

(** *** The MPC client: every state of the wait *)

Lemma take_earliest_none (l : list (Z * Completion JsVal)) :
  take_earliest l = None -> l = [].
Proof.
  destruct l as [|x l]; [reflexivity|]. cbn [take_earliest].
  destruct (take_earliest l) as [[y others]|]; [|discriminate].
  destruct (fst x <=? fst y)%Z; discriminate.
Qed.

Lemma take_earliest_some (l : list (Z * Completion JsVal))
      (p : Z * Completion JsVal) (rest : list (Z * Completion JsVal)) :
  take_earliest l = Some (p, rest) ->
  (forall q, In q l <-> q = p \/ In q rest) /\
  (forall q, In q l -> (fst p <= fst q)%Z) /\
  length l = S (length rest).
Proof.
  revert p rest. induction l as [|x l IH]; intros p rest H; [discriminate|].
  cbn [take_earliest] in H.
  destruct (take_earliest l) as [[y others]|] eqn:E.
  - destruct (IH y others eq_refl) as (Hin & Hmin & Hlen).
    destruct (fst x <=? fst y)%Z eqn:Hle; injection H as <- <-.
    + apply Z.leb_le in Hle. split; [|split].
      * intros q. cbn [In]. split; intros [->|Hq]; auto.
      * intros q [<-|Hq]; [lia|]. specialize (Hmin q Hq). lia.
      * reflexivity.
    + apply Z.leb_gt in Hle. split; [|split].
      * intros q. cbn [In]. rewrite Hin. split.
        -- intros [->|[->|Hq]]; auto.
        -- intros [->|[->|Hq]]; auto.
      * intros q [<-|Hq]; [lia|]. apply Hmin. exact Hq.
      * cbn [length]. rewrite Hlen. reflexivity.
  - apply take_earliest_none in E. subst l. injection H as <- <-.
    split; [|split].
    + intros q. cbn [In]. split; intros [->|[]]; auto.
    + intros q [<-|[]]. lia.
    + reflexivity.
Qed.

Section PollingInvariantFacts.

Variable node : Platform.
Variable this : MpcClient.
Variables (id : string) (maxTimeout interval : Z).
Variable startTime : Z.
Variable service : nat -> Poll.

Local Abbreviation delay' := (delay interval).
Local Abbreviation tick_time' := (tick_time interval startTime).
Local Abbreviation done_at' := (done_at interval startTime service).
Local Abbreviation completion_of' := (completion_of node this id service).
Local Abbreviation decisive' :=
  (decisive node this id maxTimeout interval startTime service).
Local Abbreviation step' :=
  (step node this id maxTimeout interval startTime service).
Local Abbreviation run_loop' :=
  (run_loop node this id maxTimeout interval startTime service).
Local Abbreviation on_tick' := (on_tick node this id interval startTime service).
Local Abbreviation on_completion' := (on_completion maxTimeout startTime).
Local Abbreviation issued_poll' :=
  (issued_poll node this id interval startTime service).
Local Abbreviation ends_wait' := (ends_wait maxTimeout startTime).
Local Abbreviation deadline_poll' := (deadline_poll maxTimeout interval).
Local Abbreviation loop_invariant' :=
  (loop_invariant node this id maxTimeout interval startTime service).

Lemma decisive_ends_wait (k : nat) :
  decisive' k = ends_wait' (done_at' k, completion_of' k).
Proof. reflexivity. Qed.

Lemma issued_poll_more (n m : nat) (p : Z * Completion JsVal) :
  (n <= m)%nat -> issued_poll' n p -> issued_poll' m p.
Proof. intros Hnm (k & Hk & ->). exists k. split; [lia | reflexivity]. Qed.

Lemma tick_time_monotone (a b : nat) :
  (a <= b)%nat -> (tick_time' a <= tick_time' b)%Z.
Proof.
  intros Hab. unfold tick_time. pose proof (delay_positive interval). nia.
Qed.

Lemma tick_time_before_done (k : nat) : (tick_time' k <= done_at' k)%Z.
Proof.
  unfold done_at. pose proof (N2Z.is_nonneg (latency (service k))). lia.
Qed.

(** The poll of the first tick at or after [maxTimeout] ends the wait,
    and that tick comes less than one delay after [maxTimeout]. *)
Lemma deadline_poll_spec :
  (1 <= deadline_poll')%nat /\
  (maxTimeout <= tick_time' deadline_poll' - startTime)%Z /\
  (tick_time' deadline_poll' - startTime <= Z.max 0 maxTimeout + delay')%Z.
Proof.
  pose proof (delay_positive interval) as Hd.
  unfold deadline_poll, tick_time.
  set (d := delay') in *.
  pose proof (Z.div_mod (maxTimeout + d - 1) d ltac:(lia)) as Hdm.
  pose proof (Z.mod_pos_bound (maxTimeout + d - 1) d ltac:(lia)) as Hm.
  set (q := ((maxTimeout + d - 1) / d)%Z) in *.
  set (r := ((maxTimeout + d - 1) mod d)%Z) in *.
  split; [lia|].
  rewrite Z2Nat.id by lia.
  destruct (Z.max_spec 1 q) as [[Hlt ->]|[Hge ->]]; nia.
Qed.

Lemma late_polls_decisive (k : nat) :
  (deadline_poll' <= k)%nat -> decisive' k = true.
Proof.
  intros Hk. unfold decisive.
  destruct (completion_of' k) as [v|e]; [|reflexivity].
  apply orb_true_iff. right. apply Z.leb_le.
  destruct deadline_poll_spec as (_ & Hdl & _).
  pose proof (tick_time_monotone _ _ Hk).
  pose proof (tick_time_before_done k). lia.
Qed.

Lemma invariant_initial :
  loop_invariant'
    {| timer := true; issued := []; inflight := []; settled := None |}.
Proof.
  constructor; cbn.
  - reflexivity.
  - reflexivity.
  - intros p [].
  - intros r H. discriminate H.
  - intros _ k Hk. lia.
Qed.

Lemma invariant_on_tick (st : Loop) :
  loop_invariant' st -> timer st = true -> loop_invariant' (on_tick' st).
Proof.
  intros [Ht Hi Hf Hs Hp] Hon.
  assert (settled st = None) as Hnone.
  { destruct (settled st); [rewrite Hon in Ht; discriminate Ht | reflexivity]. }
  assert (length (issued st ++ [tick_time' (S (length (issued st)))])
          = S (length (issued st))) as Hlen.
  { rewrite length_app. cbn. lia. }
  constructor; unfold on_tick; cbn [timer issued inflight settled].
  - exact Ht.
  - rewrite Hlen, seq_S, map_app, <- Hi. reflexivity.
  - rewrite Hlen. intros p Hin. apply in_app_or in Hin.
    destruct Hin as [Hin|[<-|[]]].
    + apply (issued_poll_more (length (issued st))); [lia | apply Hf, Hin].
    + exists (S (length (issued st))). split; [lia | reflexivity].
  - rewrite Hnone. intros r H. discriminate H.
  - rewrite Hlen. intros _ k Hk Hdec. apply in_or_app.
    destruct (Nat.eq_dec k (S (length (issued st)))) as [->|Hne].
    + right. left. reflexivity.
    + left. apply (Hp Hnone); [lia | exact Hdec].
Qed.

Lemma invariant_on_completion (st : Loop) (t : Z) (c : Completion JsVal)
      (others : list (Z * Completion JsVal)) :
  loop_invariant' st ->
  take_earliest (inflight st) = Some ((t, c), others) ->
  (timer st && (tick_time' (S (length (issued st))) <? t)%Z) = false ->
  loop_invariant' (on_completion' st t c others).
Proof.
  intros [Ht Hi Hf Hs Hp] He Hdue.
  destruct (take_earliest_some _ _ _ He) as (Hin & Hmin & Hlen).
  assert (In (t, c) (inflight st)) as Htc by (apply Hin; left; reflexivity).
  assert (settled st = None ->
          (t <= done_at' deadline_poll')%Z) as Hbound.
  { intros Hnone. rewrite Hnone in Ht. rewrite Ht in Hdue. cbn [andb] in Hdue.
    apply Z.ltb_ge in Hdue.
    destruct (Nat.le_gt_cases deadline_poll' (length (issued st))) as [Hk|Hk].
    - destruct deadline_poll_spec as (H1 & _).
      specialize (Hp Hnone deadline_poll' ltac:(lia)
                     (late_polls_decisive _ (Nat.le_refl _))).
      exact (Hmin _ Hp).
    - pose proof (tick_time_monotone (S (length (issued st))) deadline_poll'
                    ltac:(lia)).
      pose proof (tick_time_before_done deadline_poll'). lia. }
  assert (ends_wait' (t, c) = true ->
          loop_invariant'
            {| timer := false; issued := issued st; inflight := others;
               settled := settle t c (settled st) |}) as Hend.
  { intros Hends. constructor; cbn [timer issued inflight settled].
    - unfold settle. destruct (settled st); reflexivity.
    - exact Hi.
    - intros p Hp'. apply Hf, Hin. right. exact Hp'.
    - intros r Hr. unfold settle in Hr.
      destruct (settled st) as [r'|] eqn:Hset.
      + apply Hs. exact Hr.
      + injection Hr as <-. split; [apply Hf, Htc|].
        split; [exact Hends | apply Hbound; reflexivity].
    - unfold settle. destruct (settled st); discriminate. }
  unfold on_completion. destruct c as [v|e].
  - destruct (truthy v || (maxTimeout <=? t - startTime)%Z) eqn:Hends.
    + apply Hend. exact Hends.
    + constructor; cbn [timer issued inflight settled].
      * exact Ht.
      * exact Hi.
      * intros p Hp'. apply Hf, Hin. right. exact Hp'.
      * exact Hs.
      * intros Hnone k Hk Hdec. specialize (Hp Hnone k Hk Hdec).
        apply Hin in Hp. destruct Hp as [Heq|Hp]; [|exact Hp].
        rewrite decisive_ends_wait, Heq in Hdec.
        unfold ends_wait in Hdec. cbn [fst snd] in Hdec.
        rewrite Hends in Hdec. discriminate Hdec.
  - apply Hend. reflexivity.
Qed.

Lemma invariant_step (st st' : Loop) :
  loop_invariant' st -> step' st = Some st' -> loop_invariant' st'.
Proof.
  intros Hinv Hstep. unfold step in Hstep.
  destruct (take_earliest (inflight st)) as [[[t c] others]|] eqn:He.
  - destruct (timer st && (tick_time' (S (length (issued st))) <? t)%Z) eqn:Hdue;
      injection Hstep as <-.
    + apply invariant_on_tick; [exact Hinv|].
      apply andb_true_iff in Hdue. apply Hdue.
    + apply (invariant_on_completion st t c others Hinv He Hdue).
  - destruct (timer st) eqn:Hon; [|discriminate].
    injection Hstep as <-. apply invariant_on_tick; assumption.
Qed.

Lemma invariant_run (events : nat) (st : Loop) :
  loop_invariant' st -> loop_invariant' (run_loop' events st).
Proof.
  revert st. induction events as [|n IH]; intros st Hinv; [exact Hinv|].
  cbn [run_loop]. destruct (step' st) as [st'|] eqn:E; [|exact Hinv].
  apply IH. apply (invariant_step st st' Hinv E).
Qed.

Local Abbreviation poll_bound' :=
  (poll_bound maxTimeout interval startTime service).
Local Abbreviation remaining' := (remaining_events poll_bound').

Lemma tick_within_bound (st : Loop) :
  loop_invariant' st -> settled st = None ->
  (forall t c others,
      take_earliest (inflight st) = Some ((t, c), others) ->
      (tick_time' (S (length (issued st))) < t)%Z) ->
  (S (length (issued st)) <= poll_bound')%nat.
Proof.
  intros [Ht Hi Hf Hs Hp] Hnone Hdue. unfold poll_bound.
  destruct (Nat.le_gt_cases deadline_poll' (length (issued st))) as [Hk|Hk];
    [|lia].
  destruct deadline_poll_spec as (H1 & _).
  specialize (Hp Hnone deadline_poll' ltac:(lia)
                 (late_polls_decisive _ (Nat.le_refl _))).
  destruct (take_earliest (inflight st)) as [[[t c] others]|] eqn:He.
  - destruct (take_earliest_some _ _ _ He) as (_ & Hmin & _).
    specialize (Hmin _ Hp). cbn [fst] in Hmin.
    specialize (Hdue t c others eq_refl).
    pose proof (delay_positive interval) as Hd.
    unfold tick_time in Hdue.
    assert (Z.of_nat (S (length (issued st)))
            < done_at' deadline_poll' - startTime)%Z by nia.
    lia.
  - apply take_earliest_none in He. rewrite He in Hp. destruct Hp.
Qed.

Lemma progress (st : Loop) :
  loop_invariant' st -> settled st = None ->
  (length (issued st) <= poll_bound')%nat ->
  exists st',
    step' st = Some st' /\
    (settled st' <> None \/
     (settled st' = None /\
      (remaining' st' < remaining' st)%nat /\
      (length (issued st') <= poll_bound')%nat)).
Proof.
  intros Hinv Hnone Hlen.
  assert (timer st = true) as Hon.
  { rewrite (inv_timer _ _ _ _ _ _ _ _ Hinv), Hnone. reflexivity. }
  assert ((forall t c others,
              take_earliest (inflight st) = Some ((t, c), others) ->
              (tick_time' (S (length (issued st))) < t)%Z) ->
          settled (on_tick' st) = None /\
          (remaining' (on_tick' st) < remaining' st)%nat /\
          (length (issued (on_tick' st)) <= poll_bound')%nat) as Htick.
  { intros Hdue. pose proof (tick_within_bound st Hinv Hnone Hdue) as Hb.
    unfold remaining_events, on_tick. cbn [issued inflight settled].
    rewrite !length_app. cbn [length]. split; [exact Hnone|]. lia. }
  unfold step. rewrite Hon. cbn [andb].
  destruct (take_earliest (inflight st)) as [[[t c] others]|] eqn:He.
  - destruct (tick_time' (S (length (issued st))) <? t)%Z eqn:Hdue.
    + eexists. split; [reflexivity|]. right. apply Htick.
      intros t' c' others' Heq. injection Heq as <- _ _.
      apply Z.ltb_lt. exact Hdue.
    + eexists. split; [reflexivity|].
      destruct (take_earliest_some _ _ _ He) as (_ & _ & Hl).
      unfold on_completion. destruct c as [v|e].
      * destruct (truthy v || (maxTimeout <=? t - startTime)%Z).
        -- left. cbn [settled]. rewrite Hnone. discriminate.
        -- right. unfold remaining_events. cbn [issued inflight settled].
           split; [exact Hnone|]. lia.
      * left. cbn [settled]. rewrite Hnone. discriminate.
  - eexists. split; [reflexivity|]. right. apply Htick.
    intros t c others Heq. discriminate Heq.
Qed.

Lemma eventually_settled (m : nat) (st : Loop) :
  loop_invariant' st ->
  (length (issued st) <= poll_bound')%nat ->
  (remaining' st <= m)%nat ->
  settled (run_loop' (S m) st) <> None.
Proof.
  revert st. induction m as [|m IH]; intros st Hinv Hlen Hrem.
  - destruct (settled st) as [r|] eqn:Hs.
    + rewrite (settled_stays node this id maxTimeout interval startTime service
                 _ st r Hs). discriminate.
    + destruct (progress st Hinv Hs Hlen) as (st' & Hstep & [Hdone|(_ & Hlt & _)]);
        [|lia].
      cbn [run_loop]. rewrite Hstep. exact Hdone.
  - destruct (settled st) as [r|] eqn:Hs.
    + rewrite (settled_stays node this id maxTimeout interval startTime service
                 _ st r Hs). discriminate.
    + destruct (progress st Hinv Hs Hlen)
        as (st' & Hstep & [Hdone|(Hs' & Hlt & Hlen')]).
      * change (run_loop' (S (S m)) st) with
          (match step' st with
           | Some st1 => run_loop' (S m) st1
           | None => st
           end).
        rewrite Hstep. destruct (settled st') as [r|] eqn:Hr; [|congruence].
        rewrite (settled_stays node this id maxTimeout interval startTime
                   service _ st' r Hr). discriminate.
      * change (run_loop' (S (S m)) st) with
          (match step' st with
           | Some st1 => run_loop' (S m) st1
           | None => st
           end).
        rewrite Hstep. apply IH; [|exact Hlen'|lia].
        apply (invariant_step st st' Hinv Hstep).
Qed.

End PollingInvariantFacts.

Lemma getMpcSignWithTimeout_invariant
      (node : Platform) (this : MpcClient) (id : string)
      (maxTimeout interval startTime : Z) (service : nat -> Poll)
      (events : nat) :
  loop_invariant node this id maxTimeout interval startTime service
    (getMpcSignWithTimeout node this id maxTimeout interval startTime service
       events).
Proof. apply invariant_run, invariant_initial. Qed.







(** ** Part III.  Further properties *)

(** *** Codec *)

Lemma replace_leading_zeros_idempotent (s : string) :
  replace_leading_zeros (replace_leading_zeros s) = replace_leading_zeros s.
Proof.
  induction s as [|c s IH]; [reflexivity|].
  cbn [replace_leading_zeros].
  destruct (Ascii.eqb c "0") eqn:E; [exact IH|].
  cbn [replace_leading_zeros]. rewrite E. reflexivity.
Qed.

Lemma replace_leading_zeros_head (s : string) (c : ascii) (t : string) :
  replace_leading_zeros s = String c t -> Ascii.eqb c "0" = false.
Proof.
  induction s as [|d s IH]; [discriminate|].
  cbn [replace_leading_zeros].
  destruct (Ascii.eqb d "0") eqn:E; [exact IH|].
  intros H. injection H as -> _. exact E.
Qed.

Lemma removeHexLeadingZero_unfold (hex : string) (keepOneZero : bool) :
  removeHexLeadingZero hex keepOneZero
  = removeHexLeadingZero_described hex keepOneZero.
Proof.
  destruct (startsWith_0x hex) as [Hp [Ht Hf]].
  unfold removeHexLeadingZero, removeHexLeadingZero_described.
  destruct (strip_0x hex) as [had digits]; cbn [fst snd] in *.
  destruct (startsWith hex "0x"); subst had.
  - rewrite (Ht eq_refl).
    destruct (replace_leading_zeros digits); destruct keepOneZero; reflexivity.
  - rewrite <- (Hf eq_refl).
    destruct (replace_leading_zeros digits); destruct keepOneZero; reflexivity.
Qed.

(** What is kept of the digits. *)
Lemma strip_0x_result (hex : string) (keepOneZero : bool) :
  strip_0x (removeHexLeadingZero hex keepOneZero)
  = (fst (strip_0x hex),
     match replace_leading_zeros (snd (strip_0x hex)) with
     | EmptyString => if keepOneZero then "0" else EmptyString
     | String c t => String c t
     end).
Proof.
  rewrite removeHexLeadingZero_unfold. unfold removeHexLeadingZero_described.
  destruct (strip_0x hex) as [had digits]. cbn [fst snd].
  destruct (replace_leading_zeros digits) as [|c t] eqn:E.
  - destruct had, keepOneZero; reflexivity.
  - pose proof (replace_leading_zeros_head _ _ _ E) as Hc.
    destruct had; [reflexivity|].
    cbn [strip_0x]. destruct t as [|d t]; [reflexivity|].
    rewrite Hc. reflexivity.
Qed.

Lemma strip_0x_rebuild (hex : string) :
  hex = (if fst (strip_0x hex) then "0x" else EmptyString) +:+ snd (strip_0x hex).
Proof.
  destruct hex as [|c0 [|c1 body]]; try reflexivity.
  cbn [strip_0x].
  destruct (Ascii.eqb_spec c0 "0") as [->|]; [|reflexivity].
  destruct (Ascii.eqb_spec c1 "x") as [->|]; reflexivity.
Qed.

(** X1.  Stripping is idempotent: a stripped string is left as it is. *)
Theorem removeHexLeadingZero_idempotent :
  forall (hex : string) (keepOneZero : bool),
    removeHexLeadingZero (removeHexLeadingZero hex keepOneZero) keepOneZero
    = removeHexLeadingZero hex keepOneZero.
Proof.
  intros hex keep.
  rewrite (strip_0x_rebuild
             (removeHexLeadingZero (removeHexLeadingZero hex keep) keep)).
  rewrite (strip_0x_rebuild (removeHexLeadingZero hex keep)) at 3.
  rewrite (strip_0x_result (removeHexLeadingZero hex keep) keep).
  rewrite !(strip_0x_result hex keep). cbn [fst snd].
  f_equal.
  destruct (replace_leading_zeros (snd (strip_0x hex))) as [|c t] eqn:E.
  - destruct keep; reflexivity.
  - rewrite <- E, replace_leading_zeros_idempotent, E. reflexivity.
Qed.

Lemma hex_value_replace_leading_zeros (s : string) :
  hex_value (replace_leading_zeros s) = hex_value s.
Proof.
  unfold hex_value. induction s as [|c s IH]; [reflexivity|].
  cbn [replace_leading_zeros].
  destruct (Ascii.eqb_spec c "0") as [->|Hc]; [|reflexivity].
  rewrite IH. reflexivity.
Qed.

(** X2.  Stripping does not change the number the digits denote. *)
Theorem removeHexLeadingZero_value :
  forall (hex : string) (keepOneZero : bool),
    hex_value (hex_digits_of (removeHexLeadingZero hex keepOneZero))
    = hex_value (hex_digits_of hex).
Proof.
  intros hex keep. unfold hex_digits_of.
  rewrite strip_0x_result. cbn [snd].
  rewrite <- (hex_value_replace_leading_zeros (snd (strip_0x hex))).
  destruct (replace_leading_zeros (snd (strip_0x hex))); [|reflexivity].
  destruct keep; reflexivity.
Qed.

Lemma replace_leading_zeros_empty (s : string) :
  replace_leading_zeros s = EmptyString <-> s = zeros (String.length s).
Proof.
  induction s as [|c s IH]; [split; reflexivity|].
  cbn [replace_leading_zeros String.length zeros].
  destruct (Ascii.eqb_spec c "0") as [->|Hc].
  - split; intros H.
    + f_equal. apply IH. exact H.
    + apply IH. congruence.
  - split; [discriminate | intros H; congruence].
Qed.

(** X3.  The digits of the result are in canonical form: they do not
    start with ['0'], except that they are the single digit ["0"] when
    the input digits are all zeros (or missing) and [keepOneZero] is set;
    they are empty exactly when the input digits are all zeros (or
    missing) and [keepOneZero] is not set. *)
Theorem removeHexLeadingZero_canonical :
  forall (hex : string) (keepOneZero : bool),
    let digits := hex_digits_of (removeHexLeadingZero hex keepOneZero) in
    let all_zeros :=
      hex_digits_of hex = zeros (String.length (hex_digits_of hex)) in
    (startsWith digits "0" = true <-> all_zeros /\ keepOneZero = true) /\
    (digits = "0" <-> all_zeros /\ keepOneZero = true) /\
    (digits = EmptyString <-> all_zeros /\ keepOneZero = false).
Proof.
  intros hex keep. cbv zeta. unfold hex_digits_of.
  rewrite strip_0x_result. cbn [snd].
  rewrite <- replace_leading_zeros_empty.
  destruct (replace_leading_zeros (snd (strip_0x hex))) as [|c t] eqn:E.
  - destruct keep; repeat split; try tauto; try discriminate;
      intros [_ H]; discriminate H.
  - pose proof (replace_leading_zeros_head _ _ _ E) as Hc.
    assert (startsWith (String c t) "0" = false) as Hs.
    { cbn. rewrite andb_true_r, Ascii.eqb_sym. exact Hc. }
    rewrite Hs.
    split; [|split]; split; intros H;
      try discriminate H; try (apply proj1 in H; discriminate H).
    injection H as -> _. vm_compute in Hc. discriminate Hc.
Qed.

(** X4.  Decoding stops at the first ['=']: whatever follows it, more
    padding or more base64 text, does not contribute to the result. *)
Theorem base64ToHex_stops_at_padding :
  forall (s1 s2 : string),
    base64ToHex (s1 +:+ String "=" s2) = base64ToHex s1.
Proof.
  intros s1 s2. unfold base64ToHex, Buffer_from_base64.
  rewrite base64_decode_after_padding. reflexivity.
Qed.

Lemma to_standard_alphabet_value (c : ascii) :
  unbase64 (to_standard_alphabet c) = unbase64 c /\
  Ascii.eqb (to_standard_alphabet c) "=" = Ascii.eqb c "=".
Proof.
  destruct c as [[] [] [] [] [] [] [] []]; split; reflexivity.
Qed.

Lemma base64_decode_url_safe (phase : nat) (hi : N) (s : string) :
  base64_decode_from phase hi (string_map to_standard_alphabet s)
  = base64_decode_from phase hi s.
Proof.
  revert phase hi. induction s as [|c s IH]; intros phase hi; [reflexivity|].
  cbn [string_map base64_decode_from].
  destruct (to_standard_alphabet_value c) as [-> ->].
  destruct (Ascii.eqb c "="); [reflexivity|].
  destruct (unbase64 c) as [lo|]; [|apply IH].
  destruct phase as [|[|[|phase]]]; rewrite IH; reflexivity.
Qed.

(** X5.  The URL-safe alphabet is accepted: writing ['+'] for ['-'] and
    ['/'] for ['_'] gives the same result. *)
Theorem base64ToHex_url_safe :
  forall s : string,
    base64ToHex (string_map to_standard_alphabet s) = base64ToHex s.
Proof.
  intros s. unfold base64ToHex, Buffer_from_base64.
  rewrite base64_decode_url_safe. reflexivity.
Qed.

Lemma base64_decode_length (phase : nat) (hi : N) (s : string) :
  (phase < 4)%nat ->
  length (base64_decode_from phase hi s)
  = (3 * (sextet_count s + phase) / 4 - 3 * phase / 4)%nat.
Proof.
  revert phase hi. induction s as [|c s IH]; intros phase hi Hp.
  - cbn [base64_decode_from sextet_count length Nat.add].
    destruct phase as [|[|[|[|phase]]]]; try lia; reflexivity.
  - cbn [base64_decode_from sextet_count].
    destruct (Ascii.eqb c "=").
    + cbn [length Nat.add].
      destruct phase as [|[|[|[|phase]]]]; try lia; reflexivity.
    + destruct (unbase64 c) as [lo|]; [|apply IH; exact Hp].
      destruct phase as [|[|[|[|phase]]]]; try lia;
        cbn [length]; rewrite IH by lia;
        set (m := sextet_count s);
        repeat match goal with
               | |- context [Nat.div ?a 4] =>
                   let q := fresh "q" in
                   let Hq := fresh "Hq" in
                   pose proof (Nat.div_mod_eq a 4) as Hq;
                   pose proof (Nat.mod_upper_bound a 4 ltac:(lia));
                   set (q := Nat.div a 4) in *;
                   clearbody q
               end;
        lia.
Qed.

(** X6.  The number of bytes decoded is three quarters, rounded down, of
    the number of code units whose low byte is a character of the
    alphabet, counted up to the first code unit whose low byte is ['='];
    the result has two hex digits for each of them after ["0x"].  So the
    two characters [AQ] followed by U+0141 give two bytes. *)
Theorem base64ToHex_length :
  forall units : list N,
    length (Buffer_from_base64_utf16 units)
    = (3 * sextet_count (low_bytes units) / 4)%nat /\
    String.length (base64ToHex_utf16 units)
    = (2 + 2 * (3 * sextet_count (low_bytes units) / 4))%nat /\
    length (Buffer_from_base64_utf16 [65; 81; 321]) = 2%nat.
Proof.
  intros units.
  assert (length (Buffer_from_base64_utf16 units)
          = (3 * sextet_count (low_bytes units) / 4)%nat) as H.
  { unfold Buffer_from_base64_utf16, Buffer_from_base64.
    rewrite base64_decode_length by lia.
    rewrite Nat.add_0_r. cbn. lia. }
  split; [exact H|]. split; [|reflexivity].
  unfold base64ToHex_utf16.
  change ("0x" +:+ ?x) with (String "0" (String "x" x)).
  cbn [String.length]. rewrite Buffer_toString_hex_length, H. reflexivity.
Qed.

Lemma hex_byte_injective (x y : N) :
  x < 256 -> y < 256 ->
  hex_digit (N.shiftr x 4) = hex_digit (N.shiftr y 4) ->
  hex_digit (N.land x 15) = hex_digit (N.land y 15) ->
  x = y.
Proof.
  intros Hx Hy H1 H2.
  pose proof (below_forall2 256
    (fun x y =>
       negb (Ascii.eqb (hex_digit (N.shiftr x 4)) (hex_digit (N.shiftr y 4))
             && Ascii.eqb (hex_digit (N.land x 15)) (hex_digit (N.land y 15)))
       || (x =? y))) as H.
  specialize (H ltac:(vm_compute; reflexivity) x y Hx Hy). cbv beta in H.
  rewrite H1, H2, !Ascii.eqb_refl in H. cbn in H.
  apply N.eqb_eq. exact H.
Qed.

Lemma Buffer_toString_hex_injective (a b : list byte) :
  Buffer_toString_hex a = Buffer_toString_hex b -> a = b.
Proof.
  revert b. induction a as [|x a IH]; intros [|y b] H;
    try reflexivity; try discriminate H.
  cbn [Buffer_toString_hex] in H. injection H as H1 H2 H3.
  f_equal; [|apply IH; exact H3].
  rewrite <- (byte_of_N_of_byte x), <- (byte_of_N_of_byte y). f_equal.
  apply hex_byte_injective; auto using N_of_byte_bound.
Qed.

(** X7.  Byte sequences that differ give results that differ: the hex
    encoding is injective, and so is the path from bytes through base64
    and [base64ToHex]. *)
Theorem base64ToHex_injective :
  forall a b : list byte,
    (Buffer_toString_hex a = Buffer_toString_hex b -> a = b) /\
    (base64ToHex (base64_encode a) = base64ToHex (base64_encode b) -> a = b).
Proof.
  intros a b. split; [apply Buffer_toString_hex_injective|].
  unfold base64ToHex. rewrite !base64_decode_encode.
  change ("0x" +:+ ?x) with (String "0" (String "x" x)).
  intros H. injection H as H. apply Buffer_toString_hex_injective. exact H.
Qed.

Lemma base64ToHex_injective_witness :
  [byte_of_N 1; byte_of_N 255] = [byte_of_N 1; byte_of_N 255].
Proof.
  exact (proj2 (base64ToHex_injective [byte_of_N 1; byte_of_N 255]
                  [byte_of_N 1; byte_of_N 255]) eq_refl).
Defined.

Lemma base64_decode_encode_append (a : list byte) (s : string) (h : N) :
  base64_decode_from 0 h (base64_encode a +:+ s)
  = a ++ (if (length a mod 3 =? 0)%nat then base64_decode_from 0 h s else []).
Proof.
  assert (0 < 256) as H0 by lia.
  revert h. induction a as [|x|x y|x y z rest IH] using list_ind3; intros h.
  - rewrite append_empty. reflexivity.
  - pose proof (N_of_byte_bound x) as Hx.
    destruct (sextet_bounds _ _ Hx H0) as (B1 & B2 & _).
    destruct (decoded_bytes _ _ Hx H0) as (D1 & _).
    cbn [base64_encode]. rewrite !append_String.
    rewrite (proj1 (base64_decode_legal h _ _ B1)).
    rewrite (proj1 (proj2 (base64_decode_legal _ _ _ B2))).
    rewrite D1, byte_of_N_of_byte. reflexivity.
  - pose proof (N_of_byte_bound x) as Hx.
    pose proof (N_of_byte_bound y) as Hy.
    destruct (sextet_bounds _ _ Hx Hy) as (B1 & B2 & _).
    destruct (sextet_bounds _ _ Hy H0) as (_ & _ & B3 & _).
    destruct (decoded_bytes _ _ Hx Hy) as (D1 & D2 & _).
    destruct (decoded_bytes _ _ Hy H0) as (_ & _ & D3 & D4 & _).
    cbn [base64_encode]. rewrite !append_String.
    rewrite (proj1 (base64_decode_legal h _ _ B1)).
    rewrite (proj1 (proj2 (base64_decode_legal _ _ _ B2))).
    rewrite (proj1 (proj2 (proj2 (base64_decode_legal _ _ _ B3)))).
    rewrite D1, D2, D3, D4, !byte_of_N_of_byte. reflexivity.
  - cbn [base64_encode]. rewrite !append_String.
    rewrite base64_decode_group, IH.
    replace (length (x :: y :: z :: rest) mod 3)%nat
      with (length rest mod 3)%nat; [reflexivity|].
    cbn [length].
    replace (S (S (S (length rest)))) with (length rest + 1 * 3)%nat by lia.
    rewrite Nat.Div0.mod_add. reflexivity.
Qed.

(** X8.  Decoding an encoding that is followed by more text gives the
    encoded bytes, followed by the decoding of the rest when the number
    of bytes is a multiple of three, and by nothing otherwise, the
    padding ending the decoding. *)
Theorem base64_decode_concatenation :
  forall (a : list byte) (s : string),
    Buffer_from_base64 (base64_encode a +:+ s)
    = a ++ (if (length a mod 3 =? 0)%nat then Buffer_from_base64 s else []).
Proof. intros a s. apply base64_decode_encode_append. Qed.

(** *** The MPC client: single requests *)

(** X9.  Nothing is requested and nothing is logged when the base of the
    client and the path do not make a URL: the operation throws the
    error of [new URL], whatever the service would have replied.  The
    same holds for [proposeMpcSign] when the data is [undefined]: it
    throws a [TypeError] before any request. *)
Theorem no_request_without_url :
  forall (node : Platform) (this : MpcClient) (id : string) (data : JsVal)
         (reply : Completion string) (e : JsError),
    (new_URL node "/mpc/latest" (url this) = Throw e ->
     run (answering reply) (getLatestMpc node this) [] = (Throw e, [])) /\
    (new_URL node "/mpc/propose-mpc-sign" (url this) = Throw e ->
     run (answering reply) (proposeMpcSign node this data) [] = (Throw e, [])) /\
    (new_URL node ("/mpc/sign/" +:+ id) (url this) = Throw e ->
     run (answering reply) (getMpcSign node this id) [] = (Throw e, [])) /\
    (forall u, new_URL node "/mpc/propose-mpc-sign" (url this) = Normal u ->
               run (answering reply) (proposeMpcSign node this JUndefined) []
               = (Throw TypeError, [])).
Proof.
  intros node this id data reply e.
  split; [|split; [|split]].
  - intros H. unfold getLatestMpc. rewrite H. reflexivity.
  - intros H. unfold proposeMpcSign. rewrite H. reflexivity.
  - intros H. unfold getMpcSign. rewrite H. reflexivity.
  - intros u H. unfold proposeMpcSign. rewrite H. reflexivity.
Qed.

Lemma no_request_without_url_witness :
  run (answering (Normal "{result:{signed_tx:'0xf86b'}}"))
      (getMpcSign local_platform misconfigured_client "7") []
  = (Throw TypeError, []) /\
  run (answering (Normal "{}"))
      (proposeMpcSign local_platform local_client JUndefined) []
  = (Throw TypeError, []).
Proof.
  split.
  - exact (proj1 (proj2 (proj2
             (no_request_without_url local_platform misconfigured_client "7"
                JNull (Normal "{result:{signed_tx:'0xf86b'}}") TypeError)))
             eq_refl).
  - exact (proj2 (proj2 (proj2
             (no_request_without_url local_platform local_client "7"
                JNull (Normal "{}") TypeError)))
             {| URL_hostname := "127.0.0.1"; URL_port := "1317";
                URL_pathname := "/mpc/propose-mpc-sign" |} eq_refl).
Defined.

(** A program that makes no call leaves the record of calls as it is. *)
Lemma run_complete_bind {E : Type -> Type} {A B W : Type}
      (handle : forall X, E X -> W -> Completion X * W)
      (c : Completion A) (f : A -> Prog E B) (w : W) :
  run handle (bind (complete c) f) w
  = match c with
    | Normal a => run handle (f a) w
    | Throw e => (Throw e, w)
    end.
Proof. destruct c; reflexivity. Qed.

Lemma run_if {E : Type -> Type} {A W : Type}
      (handle : forall X, E X -> W -> Completion X * W)
      (b : bool) (p q : Prog E A) (w : W) :
  run handle (if b then p else q) w
  = if b then run handle p w else run handle q w.
Proof. destruct b; reflexivity. Qed.



Lemma latest_of_value (obj v : JsVal) :
  latest_of obj = Normal v ->
  v = JNull \/
  (truthy v = true /\ truthy (property_or_undefined v "mpc_address") = true).
Proof.
  unfold latest_of.
  destruct (get_property obj "result") as [result|e]; [|discriminate].
  destruct (truthy result && truthy (property_or_undefined result "mpc_address"))
    eqn:E; intros H; injection H as <-; [|left; reflexivity].
  right. apply andb_true_iff. exact E.
Qed.

Lemma signature_of_value (obj v : JsVal) :
  signature_of obj = Normal v -> v = JStr EmptyString \/ truthy v = true.
Proof.
  unfold signature_of.
  destruct (get_property obj "error") as [err|e]; [|discriminate].
  destruct (truthy err); [intros H; injection H as <-; left; reflexivity|].
  destruct (truthy (property_or_undefined obj "result")
            && truthy (property_or_undefined
                         (property_or_undefined obj "result") "signed_tx"))
    eqn:E; intros H; injection H as <-; [|left; reflexivity].
  right. apply andb_true_iff in E. apply E.
Qed.

Lemma proposal_of_value (obj v : JsVal) :
  proposal_of obj = Normal v ->
  v = JNull \/ truthy (property_or_undefined v "error") = false.
Proof.
  unfold proposal_of, property_or_undefined.
  destruct (get_property obj "error") as [err|e] eqn:He; [|discriminate].
  destruct (truthy err) eqn:Ht; intros H; injection H as <-;
    [left; reflexivity|].
  right. rewrite He. exact Ht.
Qed.

(** X11.  What the operations return when the evaluation of the reply
    does nothing but yield plain data or throw: [getLatestMpc] returns
    [null] or a truthy value whose [mpc_address] is truthy; [getMpcSign]
    returns the empty string or a truthy value; [proposeMpcSign] returns
    [null] or a value whose [error] is falsy. *)
Theorem returned_values :
  forall (node : Platform) (this : MpcClient) (id : string) (data : JsVal)
         (reply : Completion string) (v : JsVal),
    (outcome reply (getLatestMpc node this) = Normal v ->
     v = JNull \/
     (truthy v = true /\
      truthy (property_or_undefined v "mpc_address") = true)) /\
    (outcome reply (getMpcSign node this id) = Normal v ->
     v = JStr EmptyString \/ truthy v = true) /\
    (outcome reply (proposeMpcSign node this data) = Normal v ->
     v = JNull \/ truthy (property_or_undefined v "error") = false).
Proof.
  intros node this id data reply v.
  split; [|split]; intros H.
  - destruct (new_URL node "/mpc/latest" (url this)) as [u|e] eqn:Hu;
      [|unfold outcome, getLatestMpc in H; rewrite Hu in H; discriminate H].
    destruct reply as [body|e];
      [|unfold outcome, getLatestMpc in H; rewrite Hu in H; discriminate H].
    rewrite (getLatestMpc_outcome node this body u Hu) in H.
    destruct (is_empty body); [injection H as <-; left; reflexivity|].
    destruct (js_eval node _) as [obj|e]; [|discriminate H].
    apply (latest_of_value obj v H).
  - destruct (new_URL node ("/mpc/sign/" +:+ id) (url this)) as [u|e] eqn:Hu;
      [|unfold outcome, getMpcSign in H; rewrite Hu in H; discriminate H].
    destruct reply as [body|e];
      [|unfold outcome, getMpcSign in H; rewrite Hu in H; discriminate H].
    rewrite (getMpcSign_outcome node this id body u Hu) in H.
    destruct (is_empty body); [injection H as <-; left; reflexivity|].
    destruct (js_eval node _) as [obj|e]; [|discriminate H].
    apply (signature_of_value obj v H).
  - destruct (new_URL node "/mpc/propose-mpc-sign" (url this)) as [u|e] eqn:Hu;
      [|unfold outcome, proposeMpcSign in H; rewrite Hu in H; discriminate H].
    assert (data = JUndefined \/ data <> JUndefined) as [->|Hd]
        by (destruct data; auto; right; discriminate).
    { unfold outcome, proposeMpcSign in H. rewrite Hu in H. discriminate H. }
    destruct reply as [body|e].
    + rewrite (proposeMpcSign_outcome node this data body u Hu Hd) in H.
      destruct (is_empty body); [injection H as <-; left; reflexivity|].
      destruct (js_eval node _) as [obj|e]; [|discriminate H].
      apply (proposal_of_value obj v H).
    + unfold outcome, proposeMpcSign in H. rewrite Hu in H.
      destruct data; try congruence; discriminate H.
Qed.

Lemma returned_values_witness :
  JObj [("mpc_address", JStr "0xabc")] = JNull \/
  (truthy (JObj [("mpc_address", JStr "0xabc")]) = true /\
   truthy (property_or_undefined (JObj [("mpc_address", JStr "0xabc")])
             "mpc_address") = true).
Proof.
  exact (proj1 (returned_values local_platform local_client "7" JNull
                  (Normal "{result:{mpc_address:'0xabc'}}")
                  (JObj [("mpc_address", JStr "0xabc")])) eq_refl).
Defined.

(** X12.  A truthy [error] in the reply hides a signature: [getMpcSign]
    returns the empty string and [proposeMpcSign] returns [null], whatever
    else the reply holds; [getLatestMpc] does not look at [error] and
    still returns a [result] whose [mpc_address] is truthy. *)
Theorem error_field_precedence :
  forall (node : Platform) (this : MpcClient) (id : string) (data : JsVal)
         (body : string) (obj : JsVal),
    valid_urls node this id ->
    data <> JUndefined ->
    is_empty body = false ->
    js_eval node ("(" +:+ body +:+ ")") = Normal obj ->
    truthy (property_or_undefined obj "error") = true ->
    outcome (Normal body) (getMpcSign node this id) = Normal (JStr EmptyString) /\
    outcome (Normal body) (proposeMpcSign node this data) = Normal JNull /\
    (truthy (property_or_undefined obj "result") = true ->
     truthy (property_or_undefined (property_or_undefined obj "result")
               "mpc_address") = true ->
     outcome (Normal body) (getLatestMpc node this)
     = Normal (property_or_undefined obj "result")).
Proof.
  intros node this id data body obj ([u1 H1] & [u2 H2] & [u3 H3]) Hd He Hx Herr.
  rewrite (getLatestMpc_outcome _ _ _ _ H1),
    (proposeMpcSign_outcome _ _ _ _ _ H2 Hd),
    (getMpcSign_outcome _ _ _ _ _ H3), He, Hx.
  assert (obj <> JNull /\ obj <> JUndefined) as [Hn Hu].
  { split; intros ->; discriminate Herr. }
  unfold signature_of, proposal_of, latest_of.
  rewrite !(get_property_defined obj _ Hn Hu), Herr.
  repeat split. intros Hr Ha. rewrite Hr, Ha. reflexivity.
Qed.

Lemma error_field_precedence_witness :
  outcome (Normal "{error:'busy',result:{signed_tx:'0xf86b'}}")
          (getMpcSign local_platform local_client "7")
  = Normal (JStr EmptyString).
Proof.
  exact (proj1 (error_field_precedence local_platform local_client "7" JNull
                  "{error:'busy',result:{signed_tx:'0xf86b'}}"
                  (JObj [("error", JStr "busy");
                         ("result", JObj [("signed_tx", JStr "0xf86b")])])
                  local_urls_valid ltac:(discriminate) eq_refl eq_refl eq_refl)).
Defined.

(** *** Transaction submission *)

(** X13.  One attempt that is accepted, in order: the hook
    [beforeSendTransaction], the send, the hook [onTransactionResponse]
    with the response of that send, and the wait for the hash of that
    response with the configured number of confirmations, whose result
    (receipt or error) is the result of the attempt. *)
Theorem attempt_sequence :
  forall (SignFunction : Type) (env : Chain_env SignFunction)
         (tx : PopulatedTransaction) (signer : Signer) (numConfirmations : N)
         (gasPrice : N) (signedTx : string) (txResponse : TransactionResponse),
    (signer_sends env signer (<["gasPrice" := JNum gasPrice]> tx)
     = Normal txResponse ->
     run (on_chain env)
         (sendTxAndWaitForReceipt tx signer numConfirmations reporting_hooks
            gasPrice) []
     = (provider_waits env (provider signer) (hash txResponse) numConfirmations,
        [Called (Notify_beforeSend (<["gasPrice" := JNum gasPrice]> tx));
         Called (Signer_sendTransaction signer
                   (<["gasPrice" := JNum gasPrice]> tx));
         Called (Notify_response txResponse);
         Called (Provider_waitForTransaction (provider signer)
                   (hash txResponse) numConfirmations)])) /\
    (provider_sends env (provider signer) signedTx = Normal txResponse ->
     run (on_chain env)
         (sendSignedTxAndWaitForReceipt tx signer numConfirmations
            reporting_hooks signedTx) []
     = (provider_waits env (provider signer) (hash txResponse) numConfirmations,
        [Called (Notify_beforeSend tx);
         Called (Provider_sendTransaction (provider signer) signedTx);
         Called (Notify_response txResponse);
         Called (Provider_waitForTransaction (provider signer)
                   (hash txResponse) numConfirmations)])).
Proof.
  intros S env tx signer n gasPrice signedTx r. split; intros H.
  - cbn. rewrite H. cbn. destruct (provider_waits env _ _ _); reflexivity.
  - cbn. rewrite H. cbn. destruct (provider_waits env _ _ _); reflexivity.
Qed.

Lemma attempt_sequence_witness :
  run (on_chain example_env)
      (sendTxAndWaitForReceipt example_tx example_signer 2 reporting_hooks 7) []
  = (Normal example_receipt,
     [Called (Notify_beforeSend (<["gasPrice" := JNum 7]> example_tx));
      Called (Signer_sendTransaction example_signer
                (<["gasPrice" := JNum 7]> example_tx));
      Called (Notify_response {| hash := "0x01"; nonce := 0 |});
      Called (Provider_waitForTransaction example_provider "0x01" 2)]).
Proof.
  exact (proj1 (attempt_sequence unit example_env example_tx example_signer 2 7
                  "0xf86b" {| hash := "0x01"; nonce := 0 |}) eq_refl).
Defined.

(** X14.  When the send fails, the attempt fails with the same error:
    [onTransactionResponse] is not called and nothing is waited for. *)
Theorem failed_send_stops_attempt :
  forall (SignFunction : Type) (env : Chain_env SignFunction)
         (tx : PopulatedTransaction) (signer : Signer) (numConfirmations : N)
         (gasPrice : N) (signedTx : string) (e : JsError),
    (signer_sends env signer (<["gasPrice" := JNum gasPrice]> tx) = Throw e ->
     run (on_chain env)
         (sendTxAndWaitForReceipt tx signer numConfirmations reporting_hooks
            gasPrice) []
     = (Throw e,
        [Called (Notify_beforeSend (<["gasPrice" := JNum gasPrice]> tx));
         Called (Signer_sendTransaction signer
                   (<["gasPrice" := JNum gasPrice]> tx))])) /\
    (provider_sends env (provider signer) signedTx = Throw e ->
     run (on_chain env)
         (sendSignedTxAndWaitForReceipt tx signer numConfirmations
            reporting_hooks signedTx) []
     = (Throw e,
        [Called (Notify_beforeSend tx);
         Called (Provider_sendTransaction (provider signer) signedTx)])).
Proof.
  intros S env tx signer n gasPrice signedTx e. split; intros H.
  - cbn. rewrite H. reflexivity.
  - cbn. rewrite H. reflexivity.
Qed.

Lemma failed_send_stops_attempt_witness :
  run (on_chain offline_env)
      (sendSignedTxAndWaitForReceipt example_tx example_signer 2
         reporting_hooks "0xf86b") []
  = (Throw (TransportError "ETIMEDOUT"),
     [Called (Notify_beforeSend example_tx);
      Called (Provider_sendTransaction example_provider "0xf86b")]).
Proof.
  exact (proj2 (failed_send_stops_attempt unit offline_env example_tx
                  example_signer 2 7 "0xf86b" (TransportError "ETIMEDOUT"))
           eq_refl).
Defined.

(** X15.  The hooks are part of the attempt, in both modes.  When
    [beforeSendTransaction] throws, the attempt throws its error and
    nothing is sent; when [onTransactionResponse] throws, the transaction
    has been sent but it is not waited for, and the attempt throws the
    error of the hook. *)
Theorem throwing_hook_stops_attempt :
  forall (SignFunction : Type) (env : Chain_env SignFunction)
         (tx : PopulatedTransaction) (signer : Signer) (numConfirmations : N)
         (hooks : TxSubmissionHooks) (gasPrice : N) (signedTx : string)
         (e : JsError) (log log' : list ChainEvent),
    (run (on_chain env)
         (beforeSendTransaction hooks (<["gasPrice" := JNum gasPrice]> tx)) log
     = (Throw e, log') ->
     run (on_chain env)
         (sendTxAndWaitForReceipt tx signer numConfirmations hooks gasPrice) log
     = (Throw e, log')) /\
    (run (on_chain env) (beforeSendTransaction hooks tx) log = (Throw e, log') ->
     run (on_chain env)
         (sendSignedTxAndWaitForReceipt tx signer numConfirmations hooks
            signedTx) log
     = (Throw e, log')) /\
    (forall txResponse log1 log2,
        run (on_chain env)
            (beforeSendTransaction hooks (<["gasPrice" := JNum gasPrice]> tx))
            log
        = (Normal tt, log1) ->
        signer_sends env signer (<["gasPrice" := JNum gasPrice]> tx)
        = Normal txResponse ->
        run (on_chain env) (onTransactionResponse hooks txResponse)
            (log1 ++ [Called (Signer_sendTransaction signer
                                (<["gasPrice" := JNum gasPrice]> tx))])
        = (Throw e, log2) ->
        run (on_chain env)
            (sendTxAndWaitForReceipt tx signer numConfirmations hooks gasPrice)
            log
        = (Throw e, log2)) /\
    (forall txResponse log1 log2,
        run (on_chain env) (beforeSendTransaction hooks tx) log
        = (Normal tt, log1) ->
        provider_sends env (provider signer) signedTx = Normal txResponse ->
        run (on_chain env) (onTransactionResponse hooks txResponse)
            (log1 ++ [Called (Provider_sendTransaction (provider signer)
                                signedTx)])
        = (Throw e, log2) ->
        run (on_chain env)
            (sendSignedTxAndWaitForReceipt tx signer numConfirmations hooks
               signedTx) log
        = (Throw e, log2)).
Proof.
  intros S env tx signer n hooks gasPrice signedTx e log log'.
  split; [|split; [|split]].
  - intros H. unfold sendTxAndWaitForReceipt. rewrite run_bind, H. reflexivity.
  - intros H. unfold sendSignedTxAndWaitForReceipt. rewrite run_bind, H.
    reflexivity.
  - intros r log1 log2 Hb Hs Hr. unfold sendTxAndWaitForReceipt.
    rewrite run_bind, Hb. destruct tt.
    rewrite run_bind. cbn [perform run on_chain chain_answer].
    rewrite Hs. cbn [run]. rewrite run_bind, Hr. reflexivity.
  - intros r log1 log2 Hb Hs Hr. unfold sendSignedTxAndWaitForReceipt.
    rewrite run_bind, Hb. destruct tt.
    rewrite run_bind. cbn [perform run on_chain chain_answer].
    rewrite Hs. cbn [run]. rewrite run_bind, Hr. reflexivity.
Qed.

Lemma throwing_hook_stops_attempt_witness :
  run (on_chain example_env)
      (sendTxAndWaitForReceipt example_tx example_signer 2
         (refusing_hooks TypeError) 7) []
  = (Throw TypeError, []) /\
  run (on_chain example_env)
      (sendTxAndWaitForReceipt example_tx example_signer 2
         (response_refusing_hooks TypeError) 7) []
  = (Throw TypeError,
     [Called (Notify_beforeSend (<["gasPrice" := JNum 7]> example_tx));
      Called (Signer_sendTransaction example_signer
                (<["gasPrice" := JNum 7]> example_tx))]) /\
  run (on_chain example_env)
      (sendSignedTxAndWaitForReceipt example_tx example_signer 2
         (response_refusing_hooks TypeError) "0xf86b") []
  = (Throw TypeError,
     [Called (Notify_beforeSend example_tx);
      Called (Provider_sendTransaction example_provider "0xf86b")]).
Proof.
  split; [|split].
  - exact (proj1 (throwing_hook_stops_attempt unit example_env example_tx
                    example_signer 2 (refusing_hooks TypeError) 7 "0xf86b"
                    TypeError [] []) eq_refl).
  - exact (proj1 (proj2 (proj2
             (throwing_hook_stops_attempt unit example_env example_tx
                example_signer 2 (response_refusing_hooks TypeError) 7
                "0xf86b" TypeError [] [])))
             {| hash := "0x01"; nonce := 0 |} _ _ eq_refl eq_refl eq_refl).
  - exact (proj2 (proj2 (proj2
             (throwing_hook_stops_attempt unit example_env example_tx
                example_signer 2 (response_refusing_hooks TypeError) 7
                "0xf86b" TypeError [] [])))
             {| hash := "0x01"; nonce := 0 |} _ _ eq_refl eq_refl eq_refl).
Defined.

(** X16.  The resubmission engine is started only once the gas price is
    known: when the query of the gas price fails, both functions fail
    with its error after that single call; when it succeeds they make
    one more call, which starts the engine, and return what the engine
    returns, receipt or error. *)
Theorem engine_started_after_gas_price :
  forall (SignFunction : Type) (ynatm_toGwei ynatmAsync_toGwei : JsNumber -> JsNumber)
         (env : Chain_env SignFunction) (tx : PopulatedTransaction)
         (sign : SignFunction) (signer : Signer) (config : ResubmissionConfig)
         (numConfirmations : N) (hooks : TxSubmissionHooks),
    (forall e,
        network_gas_price env signer = Throw e ->
        run (on_submit env)
            (submitTransactionWithYNATM ynatm_toGwei tx signer config
               numConfirmations hooks) []
        = (Throw e, [Submitted (Chain (Signer_getGasPrice signer))]) /\
        run (on_submit env)
            (submitSignedTransactionWithYNATM ynatmAsync_toGwei tx sign signer
               config numConfirmations hooks) []
        = (Throw e, [Submitted (Chain (Signer_getGasPrice signer))])) /\
    (forall wei,
        network_gas_price env signer = Normal wei ->
        let options :=
          {| sendTransactionFunction :=
               sendTxAndWaitForReceipt tx signer numConfirmations hooks;
             send_minGasPrice :=
               ynatm_toGwei (Number_of_integer (wei / 1000000000));
             send_maxGasPrice :=
               ynatm_toGwei (Finite (maxGasPriceInGwei config));
             send_gasPriceScalingFunction := LINEAR (gasRetryIncrement config);
             send_delay := resubmissionTimeout config |} in
        let signed_options :=
          {| sendSignedTransactionFunction :=
               sendSignedTxAndWaitForReceipt tx signer numConfirmations hooks;
             signFunction := sign;
             sign_minGasPrice :=
               ynatmAsync_toGwei (Number_of_integer (wei / 1000000000));
             sign_maxGasPrice :=
               ynatmAsync_toGwei (Finite (maxGasPriceInGwei config));
             sign_gasPriceScalingFunction := LINEAR (gasRetryIncrement config);
             sign_delay := resubmissionTimeout config |} in
        run (on_submit env)
            (submitTransactionWithYNATM ynatm_toGwei tx signer config
               numConfirmations hooks) []
        = (ynatm_returns env options,
           [Submitted (Chain (Signer_getGasPrice signer));
            Submitted (Ynatm_send options)]) /\
        run (on_submit env)
            (submitSignedTransactionWithYNATM ynatmAsync_toGwei tx sign
               signer config numConfirmations hooks) []
        = (ynatmAsync_returns env signed_options,
           [Submitted (Chain (Signer_getGasPrice signer));
            Submitted (YnatmAsync_sendAfterSign signed_options)])).
Proof.
  intros S g1 g2 env tx sign signer config n hooks. split.
  - intros e H. split; cbn; rewrite H; reflexivity.
  - intros wei H. cbv zeta. split.
    + cbn. rewrite H. cbn. destruct (ynatm_returns env _); reflexivity.
    + cbn. rewrite H. cbn. destruct (ynatmAsync_returns env _); reflexivity.
Qed.

Lemma engine_started_after_gas_price_witness :
  run (on_submit offline_env)
      (submitTransactionWithYNATM gwei example_tx example_signer example_config
         1 default_hooks) []
  = (Throw (TransportError "ETIMEDOUT"),
     [Submitted (Chain (Signer_getGasPrice example_signer))]) /\
  fst (run (on_submit example_env)
           (submitSignedTransactionWithYNATM gwei example_tx tt example_signer
              example_config 1 default_hooks) [])
  = Normal example_receipt.
Proof.
  split.
  - exact (proj1 (proj1 (engine_started_after_gas_price unit gwei gwei
                           offline_env example_tx tt example_signer
                           example_config 1 default_hooks)
                    (TransportError "ETIMEDOUT") eq_refl)).
  - exact (f_equal fst
             (proj2 (proj2 (engine_started_after_gas_price unit gwei gwei
                              example_env example_tx tt example_signer
                              example_config 1 default_hooks)
                       20000000000 eq_refl))).
Defined.

(** X17.  [getGasPriceInGwei] gives the network's gas price in whole
    gwei, rounded down, as a JavaScript number.  Up to [2^53] gwei the
    number is exact: the price lies between that many gwei and one gwei
    more, and a price below one gwei gives zero.  Above, it is the
    nearest double: a number of at most 53 significant bits that differs
    from the whole gwei by at most half a unit in the last place, with an
    even significand when it is half a unit away; and from
    [2^1024 - 2^970] gwei on it is [Infinity]. *)
Theorem gas_price_in_whole_gwei :
  forall (SignFunction : Type) (env : Chain_env SignFunction) (signer : Signer)
         (wei : N),
    network_gas_price env signer = Normal wei ->
    let whole := wei / 1000000000 in
    fst (run (on_submit env) (getGasPriceInGwei signer) [])
    = Normal (Number_of_integer whole) /\
    whole * 1000000000 <= wei < (whole + 1) * 1000000000 /\
    (wei < 1000000000 -> whole = 0) /\
    (whole <= 2 ^ 53 -> Number_of_integer whole = Finite whole) /\
    (2 ^ 53 <= whole -> whole < 2 ^ 1024 - 2 ^ 970 ->
     exists price,
       Number_of_integer whole = Finite price /\
       nearest_double whole price) /\
    (2 ^ 1024 - 2 ^ 970 <= whole -> Number_of_integer whole = Infinity).
Proof.
  intros S env signer wei H whole.
  split; [cbn; rewrite H; reflexivity|].
  split.
  { pose proof (N.div_mod wei 1000000000 ltac:(lia)) as Hdm.
    pose proof (N.mod_lt wei 1000000000 ltac:(lia)) as Hlt.
    unfold whole.
    set (q := wei / 1000000000) in *. set (r := wei mod 1000000000) in *.
    lia. }
  split; [intros Hsmall; apply N.div_small; exact Hsmall|].
  split; [apply Number_of_integer_exact|].
  split; [apply Number_of_integer_near | apply Number_of_integer_infinite].
Qed.

Lemma gas_price_in_whole_gwei_witness :
  fst (run (on_submit congested_env) (getGasPriceInGwei example_signer) [])
  = Normal (Finite 900) /\
  fst (run (on_submit precise_env) (getGasPriceInGwei example_signer) [])
  = Normal (Finite 9007199254740992) /\
  nearest_double 9007199254740993 9007199254740992.
Proof.
  split; [|split].
  - exact (proj1 (gas_price_in_whole_gwei unit congested_env example_signer
                    900500000000 eq_refl)).
  - exact (proj1 (gas_price_in_whole_gwei unit precise_env example_signer
                    9007199254740993000000000 eq_refl)).
  - destruct (gas_price_in_whole_gwei unit precise_env example_signer
                9007199254740993000000000 eq_refl)
      as (_ & _ & _ & _ & Hnear & _).
    destruct Hnear as (price & Hprice & Hnearest).
    + vm_compute. discriminate.
    + vm_compute. reflexivity.
    + vm_compute in Hprice. injection Hprice as <-. exact Hnearest.
Defined.

(** X18.  The starting price is not compared with the configured
    maximum: when the number of whole gwei of the network's price is
    above [maxGasPriceInGwei], both engines are started with a minimum
    above their maximum (for a conversion that preserves the order).  For
    a price of at most [2^53] gwei it is enough that its whole gwei are
    above the maximum. *)
Theorem starting_price_not_capped :
  forall (SignFunction : Type)
         (ynatm_toGwei ynatmAsync_toGwei : JsNumber -> JsNumber)
         (env : Chain_env SignFunction) (tx : PopulatedTransaction)
         (sign : SignFunction) (signer : Signer) (config : ResubmissionConfig)
         (numConfirmations : N) (hooks : TxSubmissionHooks) (wei : N),
    (forall a b, JsNumber_lt a b ->
                 JsNumber_lt (ynatm_toGwei a) (ynatm_toGwei b)) ->
    (forall a b, JsNumber_lt a b ->
                 JsNumber_lt (ynatmAsync_toGwei a) (ynatmAsync_toGwei b)) ->
    network_gas_price env signer = Normal wei ->
    (JsNumber_lt (Finite (maxGasPriceInGwei config))
                 (Number_of_integer (wei / 1000000000)) ->
     (exists lowest highest,
         price_ranges
           (snd (run (on_submit env)
                     (submitTransactionWithYNATM ynatm_toGwei tx signer config
                        numConfirmations hooks) []))
         = [(lowest, highest)] /\ JsNumber_lt highest lowest) /\
     (exists lowest highest,
         price_ranges
           (snd (run (on_submit env)
                     (submitSignedTransactionWithYNATM ynatmAsync_toGwei tx
                        sign signer config numConfirmations hooks) []))
         = [(lowest, highest)] /\ JsNumber_lt highest lowest)) /\
    (wei / 1000000000 <= 2 ^ 53 ->
     maxGasPriceInGwei config < wei / 1000000000 ->
     JsNumber_lt (Finite (maxGasPriceInGwei config))
                 (Number_of_integer (wei / 1000000000))).
Proof.
  intros S g1 g2 env tx sign signer config n hooks wei Hg1 Hg2 Hwei.
  split.
  - intros Hmax. split.
    + exists (g1 (Number_of_integer (wei / 1000000000))),
        (g1 (Finite (maxGasPriceInGwei config))).
      split; [|apply Hg1; exact Hmax].
      cbn. rewrite Hwei. cbn. destruct (ynatm_returns env _); reflexivity.
    + exists (g2 (Number_of_integer (wei / 1000000000))),
        (g2 (Finite (maxGasPriceInGwei config))).
      split; [|apply Hg2; exact Hmax].
      cbn. rewrite Hwei. cbn. destruct (ynatmAsync_returns env _); reflexivity.
  - intros Hexact Hmax. rewrite (Number_of_integer_exact _ Hexact). exact Hmax.
Qed.

Lemma gwei_increasing (a b : JsNumber) :
  JsNumber_lt a b -> JsNumber_lt (gwei a) (gwei b).
Proof. destruct a, b; cbn; try tauto. lia. Qed.

Lemma starting_price_not_capped_witness :
  exists lowest highest,
    price_ranges
      (snd (run (on_submit congested_env)
                (submitTransactionWithYNATM gwei example_tx example_signer
                   example_config 1 default_hooks) []))
    = [(lowest, highest)] /\ JsNumber_lt highest lowest.
Proof.
  destruct (starting_price_not_capped unit gwei gwei congested_env
              example_tx tt example_signer example_config 1 default_hooks
              900500000000 gwei_increasing gwei_increasing eq_refl)
    as [Hrange Hexact].
  apply Hrange. apply Hexact.
  - vm_compute. discriminate.
  - reflexivity.
Defined.

(** *** The MPC client: every state of the wait, continued *)

(** X19.  The interval timer is cleared exactly when the call has
    settled: it never keeps running after the call is resolved or
    rejected, and it is not stopped before. *)
Theorem timer_cleared_iff_settled :
  forall (node : Platform) (this : MpcClient) (id : string)
         (maxTimeout interval startTime : Z) (service : nat -> Poll)
         (events : nat),
    let st :=
      getMpcSignWithTimeout node this id maxTimeout interval startTime service
        events in
    timer st = false <-> settled st <> None.
Proof.
  intros node this id maxTimeout interval startTime service events st.
  pose proof (getMpcSignWithTimeout_invariant node this id maxTimeout interval
                startTime service events) as Hinv.
  fold st in Hinv. rewrite (inv_timer _ _ _ _ _ _ _ _ Hinv).
  destruct (settled st); split; congruence.
Qed.

(** The polls in flight when none of the first [k] has completed. *)
Lemma none_completed_yet (node : Platform) (this : MpcClient) (id : string)
      (maxTimeout interval startTime : Z) (service : nat -> Poll) (k : nat) :
  (forall j, (1 <= j < k)%nat ->
             (tick_time interval startTime k
              < done_at interval startTime service j)%Z) ->
  getMpcSignWithTimeout node this id maxTimeout interval startTime service k
  = {| timer := true;
       issued := map (tick_time interval startTime) (seq 1 k);
       inflight :=
         map (fun j => (done_at interval startTime service j,
                        completion_of node this id service j)) (seq 1 k);
       settled := None |}.
Proof.
  induction k as [|k IH]; intros Hslow; [reflexivity|].
  unfold getMpcSignWithTimeout in *.
  replace (S k) with (k + 1)%nat by lia.
  rewrite run_loop_add, IH.
  - cbn [run_loop]. unfold step. cbn [timer issued inflight settled andb].
    rewrite length_map, length_seq.
    assert (on_tick node this id interval startTime service
              {| timer := true;
                 issued := map (tick_time interval startTime) (seq 1 k);
                 inflight :=
                   map (fun j => (done_at interval startTime service j,
                                  completion_of node this id service j))
                       (seq 1 k);
                 settled := None |}
            = {| timer := true;
                 issued := map (tick_time interval startTime) (seq 1 (k + 1));
                 inflight :=
                   map (fun j => (done_at interval startTime service j,
                                  completion_of node this id service j))
                       (seq 1 (k + 1));
                 settled := None |}) as Htick.
    { unfold on_tick. cbn [timer issued inflight settled].
      rewrite length_map, length_seq.
      replace (k + 1)%nat with (S k) by lia.
      rewrite !seq_S, !map_app. reflexivity. }
    destruct (take_earliest _) as [[[t c] others]|] eqn:He;
      [|rewrite Htick; reflexivity].
    destruct (take_earliest_some _ _ _ He) as (Hin & _ & _).
    assert (In (t, c)
               (map (fun j => (done_at interval startTime service j,
                               completion_of node this id service j))
                    (seq 1 k))) as Hp by (apply Hin; left; reflexivity).
    apply in_map_iff in Hp. destruct Hp as (j & Hj & Hseq).
    apply in_seq in Hseq. injection Hj as <- _.
    replace (tick_time interval startTime (S k)
             <? done_at interval startTime service j)%Z with true.
    + rewrite Htick. reflexivity.
    + symmetry. apply Z.ltb_lt. apply Hslow. lia.
  - intros j Hj.
    pose proof (tick_time_monotone interval startTime k (S k) ltac:(lia)).
    specialize (Hslow j ltac:(lia)). lia.
Qed.



(** X21.  The call settles with the completion of one of the polls it
    made, at the time that poll completes (the request being made: the
    URL is well-formed); it does not resolve with a falsy value, such as
    the empty string, before [maxTimeout] has passed. *)
Theorem settled_with_a_poll :
  forall (node : Platform) (this : MpcClient) (id : string)
         (maxTimeout interval startTime : Z) (service : nat -> Poll)
         (events : nat) (t : Z) (c : Completion JsVal),
    valid_urls node this id ->
    let st :=
      getMpcSignWithTimeout node this id maxTimeout interval startTime service
        events in
    settled st = Some (t, c) ->
    (exists k, (1 <= k <= length (issued st))%nat /\
               t = done_at interval startTime service k /\
               c = completion_of node this id service k) /\
    (forall v, c = Normal v -> truthy v = false ->
               (maxTimeout <= t - startTime)%Z).
Proof.
  intros node this id maxTimeout interval startTime service events t c _ st Hs.
  pose proof (getMpcSignWithTimeout_invariant node this id maxTimeout interval
                startTime service events) as Hinv.
  destruct (inv_settled _ _ _ _ _ _ _ _ Hinv _ Hs) as ((k & Hk & Heq) & Hends & _).
  split.
  - exists k. injection Heq as -> ->. auto.
  - intros v -> Hv. unfold ends_wait in Hends. cbn [fst snd] in Hends.
    rewrite Hv in Hends. apply Z.leb_le. exact Hends.
Qed.

Lemma settled_with_a_poll_witness :
  (exists k, (1 <= k <= 3)%nat /\
             3000%Z = done_at 1000 0 no_signature_yet k /\
             Normal (JStr EmptyString)
             = completion_of local_platform local_client "7" no_signature_yet k) /\
  (forall v, Normal (JStr EmptyString) = Normal v -> truthy v = false ->
             (3000 <= 3000 - 0)%Z).
Proof.
  exact (settled_with_a_poll local_platform local_client "7" 3000 1000 0
           no_signature_yet 20 3000 (Normal (JStr EmptyString))
           local_urls_valid eq_refl).
Defined.

(** X22.  The call settles once: after it has settled, the events that
    follow (polls still in flight that complete, with a value or with an
    error) change neither its result nor the polls made. *)
Theorem settled_once :
  forall (node : Platform) (this : MpcClient) (id : string)
         (maxTimeout interval startTime : Z) (service : nat -> Poll)
         (events more : nat) (result : Z * Completion JsVal),
    settled (getMpcSignWithTimeout node this id maxTimeout interval startTime
               service events) = Some result ->
    settled (getMpcSignWithTimeout node this id maxTimeout interval startTime
               service (events + more)) = Some result /\
    issued (getMpcSignWithTimeout node this id maxTimeout interval startTime
              service (events + more))
    = issued (getMpcSignWithTimeout node this id maxTimeout interval startTime
                service events).
Proof.
  intros node this id maxTimeout interval startTime service events more r Hs.
  pose proof (getMpcSignWithTimeout_invariant node this id maxTimeout interval
                startTime service events) as Hinv.
  pose proof (inv_timer _ _ _ _ _ _ _ _ Hinv) as Ht. rewrite Hs in Ht.
  unfold getMpcSignWithTimeout in *. rewrite run_loop_add.
  split.
  - apply settled_stays. exact Hs.
  - apply cleared_timer_stays. exact Ht.
Qed.

Lemma settled_once_witness :
  settled (getMpcSignWithTimeout local_platform local_client "7" 10000 1000 0
             late_failure (3 + 2))
  = Some (2100%Z, Normal (JStr "0xf86b")).
Proof.
  exact (proj1 (settled_once local_platform local_client "7" 10000 1000 0
                  late_failure 3 2 (2100%Z, Normal (JStr "0xf86b")) eq_refl)).
Defined.

(** X23.  For a finite [maxTimeout] the wait always ends when every
    request completes, whatever the service replies and however long its
    replies take, polls overlapping or not: after finitely many events
    the call has settled, no later than the completion of the poll issued
    at the first tick at or after [maxTimeout], a tick that comes at most
    one delay after [maxTimeout].  (With a [maxTimeout] that is not a
    finite number, [NaN] or [Infinity], the comparison of line 114 is
    never true and the wait has no deadline; that case is left out.) *)
Theorem wait_always_ends :
  forall (node : Platform) (this : MpcClient) (id : string)
         (maxTimeout interval startTime : Z) (service : nat -> Poll),
    let last := deadline_poll maxTimeout interval in
    exists events t c,
      settled (getMpcSignWithTimeout node this id maxTimeout interval startTime
                 service events) = Some (t, c) /\
      (t <= done_at interval startTime service last)%Z /\
      (done_at interval startTime service last - startTime
       <= Z.max 0 maxTimeout + delay interval
          + Z.of_N (latency (service last)))%Z.
Proof.
  intros node this id maxTimeout interval startTime service last.
  set (bound := poll_bound maxTimeout interval startTime service).
  pose proof (eventually_settled node this id maxTimeout interval startTime
                service (2 * bound)
                {| timer := true; issued := []; inflight := []; settled := None |}
                (invariant_initial _ _ _ _ _ _ _)) as Hend.
  specialize (Hend ltac:(cbn; lia)
                   ltac:(unfold remaining_events; cbn; fold bound; lia)).
  exists (S (2 * bound)).
  pose proof (getMpcSignWithTimeout_invariant node this id maxTimeout interval
                startTime service (S (2 * bound))) as Hinv.
  unfold getMpcSignWithTimeout in *.
  destruct (settled _) as [[t c]|] eqn:Hs; [|congruence].
  exists t, c. split; [reflexivity|].
  destruct (inv_settled _ _ _ _ _ _ _ _ Hinv _ Hs) as (_ & _ & Hle).
  split; [exact Hle|].
  destruct (deadline_poll_spec maxTimeout interval startTime) as (_ & _ & Hk).
  unfold done_at. fold last in Hk |- *. lia.
Qed.
